(** * Verification of [checkpoints_manager.py]

    A shallow embedding of the class [CheckpointsManager] and the proofs of
    the properties its specification states.

    Modelling conventions.
    - The experiment directory is the root of the modelled file tree;
      a path is the list of the names below it, [os.path.join] appends a
      name and [os.path.basename] takes the last one.  This is what the
      code does on names that are single path components (no separator,
      neither empty nor a dot name): the predicate [is_component], which
      the properties about arbitrary tracked names assume.
    - [sorted] on names is the byte-wise lexicographic order and [int] is
      Python's decimal parser on ASCII input, without its limit of 4300
      digits.  This is what the code does on ASCII names of at most 4300
      characters: the predicate [readable_name], which the properties
      about arbitrary directory listings assume; [f'{n:02d}'] is Python's
      below [str_digits_limit].
    - A checkpoint file holds the state dictionary that was written to it;
      the serialisation done by [torch.save] and [torch.load] is opaque.
    - An exception leaves behind every mutation made before it, so an
      operation is a function from the world to an outcome and a world.
    - [print] has no effect on the state; the [verbose] flag is kept as a
      field and the messages are left out. *)

From Stdlib Require Import ZArith Ascii String List Bool Lia.
From Stdlib Require Import DecimalString DecimalZ DecimalPos.
From stdpp Require Import base option list gmap strings fin_maps.

Open Scope Z_scope.

(** ** Python strings *)

Module PyStr.

(** [s.split(sep)] for a one-character separator: never the empty list. *)
Fixpoint split (sep : ascii) (s : string) : list string :=
  match s with
  | EmptyString => [EmptyString]
  | String c rest =>
      if Ascii.eqb c sep then EmptyString :: split sep rest
      else match split sep rest with
           | [] => [String c EmptyString]
           | w :: ws => String c w :: ws
           end
  end.

(** [l[0]] and [l[-1]] of a list of strings ([IndexError] cannot happen on
    the result of [split]; the default stands for it). *)
Definition first (l : list string) : string := hd EmptyString l.
Definition final (l : list string) : string := default EmptyString (last l).

(** The ASCII white space that [int] strips. *)
Definition is_space (c : ascii) : bool :=
  match c with
  | "009" | "010" | "011" | "012" | "013" | " " => true
  | _ => false
  end%char.

Definition is_digit (c : ascii) : bool :=
  match c with
  | "0" | "1" | "2" | "3" | "4" | "5" | "6" | "7" | "8" | "9" => true
  | _ => false
  end%char.

Fixpoint lstrip (s : string) : string :=
  match s with
  | String c rest => if is_space c then lstrip rest else s
  | EmptyString => EmptyString
  end.

(** Dropping trailing white space: a suffix made of white space only
    collapses to the empty string. *)
Fixpoint rstrip (s : string) : string :=
  match s with
  | EmptyString => EmptyString
  | String c rest =>
      match rstrip rest with
      | EmptyString => if is_space c then EmptyString else String c EmptyString
      | r => String c r
      end
  end.

Definition strip (s : string) : string := rstrip (lstrip s).

(** The digits of an integer literal with its underscores removed: an
    underscore is accepted only between two digits.  [prev] tells whether
    the previous character was a digit. *)
Fixpoint digits_of (prev : bool) (s : string) : option string :=
  match s with
  | EmptyString => if prev then Some EmptyString else None
  | String c rest =>
      if is_digit c then String c <$> digits_of true rest
      else if Ascii.eqb c "_"%char then
             (if prev then
                match rest with
                | String d _ => if is_digit d then digits_of false rest else None
                | EmptyString => None
                end
              else None)
           else None
  end.

(** The value of an unsigned literal. *)
Definition unsigned_value (s : string) : option Z :=
  match s with
  | EmptyString => None
  | _ =>
      body ← digits_of false s;
      Z.of_uint <$> NilEmpty.uint_of_string body
  end.

(** [int(s)], with [None] for [ValueError]. *)
Definition int (s : string) : option Z :=
  match strip s with
  | String "-" rest => Z.opp <$> unsigned_value rest
  | String "+" rest => unsigned_value rest
  | t => unsigned_value t
  end.

(** [f'{n:02d}']: the sign, then zeros up to the width 2, then the
    digits. *)
Definition format_02d (n : Z) : string :=
  let (sign, digits) :=
    match Z.to_int n with
    | Decimal.Pos d => (""%string, NilEmpty.string_of_uint d)
    | Decimal.Neg d => ("-"%string, NilEmpty.string_of_uint d)
    end in
  let pad := (2 - String.length sign - String.length digits)%nat in
  sign +:+ string_of_list_ascii (repeat "0"%char pad) +:+ digits.

(** Insertion of a name into a sorted list, and [sorted] itself. *)
Fixpoint insert_sorted (x : string) (l : list string) : list string :=
  match l with
  | [] => [x]
  | y :: ys => if String.leb x y then x :: l else y :: insert_sorted x ys
  end.

Definition sorted (l : list string) : list string :=
  foldr insert_sorted [] l.

End PyStr.

(** ** Outcomes and exceptions *)

Inductive exn : Type :=
| NotADirectoryError
| FileExistsError
| FileNotFoundError
| IsADirectoryError
| ValueError
| NameError
| IndexError
| HookError.

Inductive outcome (A : Type) : Type :=
| Return (a : A)
| Raise (e : exn).
Arguments Return {A} a.
Arguments Raise {A} e.

(** The interface of a tracked object: [state_dict()] and
    [load_state_dict(d)], either of which may raise. *)
Class Trackable (Mod StateDict : Type) : Type := {
  state_dict : Mod -> outcome StateDict;
  load_state_dict : Mod -> StateDict -> outcome Mod
}.

(** ** The file tree below the experiment directory *)

#[warnings="-register-all"]
Inductive node (B : Type) : Type :=
| File (content : B)
| Dir (entries : gmap string (node B)).
Arguments File {B} content.
Arguments Dir {B} entries.

Abbreviation tree B := (gmap string (node B)).
Abbreviation path := (list string).

Module Fs.
Section Fs.
Context {B : Type}.

(** The node a path names, if any. *)
Fixpoint resolve (p : path) (d : tree B) : option (node B) :=
  match p with
  | [] => Some (Dir d)
  | n :: rest =>
      match d !! n with
      | Some (Dir d') => resolve rest d'
      | Some (File b) => match rest with [] => Some (File b) | _ => None end
      | None => None
      end
  end.

(** [os.path.isdir]. *)
Definition isdir (p : path) (d : tree B) : bool :=
  match resolve p d with
  | Some (Dir _) => true
  | _ => false
  end.

(** [os.listdir]: the names of the entries, in the order of the map. *)
Definition listdir (p : path) (d : tree B) : outcome (list string) :=
  match resolve p d with
  | Some (Dir d') => Return (map_to_list d').*1
  | Some (File _) => Raise NotADirectoryError
  | None => Raise FileNotFoundError
  end.

(** A chain of fresh directories. *)
Fixpoint fresh (p : path) : tree B :=
  match p with
  | [] => ∅
  | n :: rest => {[ n := Dir (fresh rest) ]}
  end.

(** [os.makedirs(p)] without [exist_ok]: the missing ancestors are
    created, and the leaf must not exist. *)
Fixpoint makedirs (p : path) (d : tree B) : outcome (tree B) :=
  match p with
  | [] => Raise FileExistsError
  | n :: rest =>
      match d !! n with
      | None => Return (<[ n := Dir (fresh rest) ]> d)
      | Some (File _) =>
          match rest with
          | [] => Raise FileExistsError
          | _ => Raise NotADirectoryError
          end
      | Some (Dir d') =>
          match makedirs rest d' with
          | Return d'' => Return (<[ n := Dir d'' ]> d)
          | Raise e => Raise e
          end
      end
  end.

(** Opening [p] for writing and storing [b]: the parent must be a
    directory and [p] must not be one. *)
Fixpoint write (p : path) (b : B) (d : tree B) : outcome (tree B) :=
  match p with
  | [] => Raise IsADirectoryError
  | [n] =>
      match d !! n with
      | Some (Dir _) => Raise IsADirectoryError
      | _ => Return (<[ n := File b ]> d)
      end
  | n :: rest =>
      match d !! n with
      | Some (Dir d') =>
          match write rest b d' with
          | Return d'' => Return (<[ n := Dir d'' ]> d)
          | Raise e => Raise e
          end
      | Some (File _) => Raise NotADirectoryError
      | None => Raise FileNotFoundError
      end
  end.

(** Opening [p] for reading. *)
Definition read (p : path) (d : tree B) : outcome B :=
  match resolve p d with
  | Some (File b) => Return b
  | Some (Dir _) => Raise IsADirectoryError
  | None => Raise FileNotFoundError
  end.

End Fs.
End Fs.

(** ** The manager *)

Section World.
Context {Mod StateDict : Type}.

(** The attributes of a [CheckpointsManager] object together with the
    content of its experiment directory.  [modules_to_track] is a Python
    dictionary: its items in insertion order, with distinct names. *)
Record world : Type := World {
  modules_to_track : list (string * Mod);
  epochs_per_run : Z;
  verbose : bool;
  start_epoch : Z;
  current_run_dir_path : path;
  disk : tree StateDict
}.

Definition set_start_epoch (e : Z) (w : world) : world :=
  World (modules_to_track w) (epochs_per_run w) (verbose w)
        e (current_run_dir_path w) (disk w).
Definition set_current_run_dir_path (p : path) (w : world) : world :=
  World (modules_to_track w) (epochs_per_run w) (verbose w)
        (start_epoch w) p (disk w).
Definition set_disk (d : tree StateDict) (w : world) : world :=
  World (modules_to_track w) (epochs_per_run w) (verbose w)
        (start_epoch w) (current_run_dir_path w) d.
Definition set_modules (ms : list (string * Mod)) (w : world) : world :=
  World ms (epochs_per_run w) (verbose w)
        (start_epoch w) (current_run_dir_path w) (disk w).

(** A method: it returns or raises, and leaves a world behind. *)
Definition M (A : Type) : Type := world -> outcome A * world.

Definition ret {A} (a : A) : M A := fun w => (Return a, w).
Definition raise {A} (e : exn) : M A := fun w => (Raise e, w).
Definition bind {A C} (m : M A) (k : A -> M C) : M C :=
  fun w =>
    match m w with
    | (Return a, w') => k a w'
    | (Raise e, w') => (Raise e, w')
    end.
Definition get {A} (f : world -> A) : M A := fun w => (Return (f w), w).
Definition modify (f : world -> world) : M unit := fun w => (Return tt, f w).
Definition lift {A} (o : outcome A) : M A := fun w => (o, w).

End World.

Declare Scope py_scope.
Delimit Scope py_scope with py.
Notation "x <- y ; z" := (bind y (fun x => z))
  (at level 20, y at level 100, z at level 200, only parsing) : py_scope.
Notation "y ;; z" := (bind y (fun _ => z))
  (at level 100, z at level 200, only parsing, right associativity) : py_scope.
Open Scope py_scope.

Section Manager.
Context {Mod StateDict : Type} `{Trackable Mod StateDict}.
Implicit Types (w : world (Mod:=Mod) (StateDict:=StateDict)).
Local Abbreviation M := (M (Mod:=Mod) (StateDict:=StateDict)).

(** [for x in l: body(x)]. *)
Fixpoint for_each {A} (l : list A) (body : A -> M unit) : M unit :=
  match l with
  | [] => ret tt
  | x :: rest => body x ;; for_each rest body
  end.

(** The calls into [os] and [torch], on the disk of the world. *)
Definition os_listdir (p : path) : M (list string) :=
  d <- get disk ; lift (Fs.listdir p d).
Definition os_path_isdir (p : path) : M bool :=
  d <- get disk ; ret (Fs.isdir p d).
Definition os_makedirs (p : path) : M unit :=
  d <- get disk ; d' <- lift (Fs.makedirs p d) ; modify (set_disk d').
Definition torch_save (obj : StateDict) (p : path) : M unit :=
  d <- get disk ; d' <- lift (Fs.write p obj d) ; modify (set_disk d').
Definition torch_load (p : path) : M StateDict :=
  d <- get disk ; lift (Fs.read p d).

Definition os_path_basename (p : path) : string := default EmptyString (last p).

(** Python's [int] as a method: [ValueError] when the text is no integer. *)
Definition py_int (s : string) : M Z :=
  match PyStr.int s with
  | Some n => ret n
  | None => raise ValueError
  end.

(** [module.load_state_dict(d)] mutates the object that the dictionary
    holds under [name]; the names of a dictionary are distinct, so the
    object met by the loop is the one stored there. *)
Fixpoint replace_module (name : string) (m : Mod) (ms : list (string * Mod))
  : list (string * Mod) :=
  match ms with
  | [] => []
  | (n, m0) :: rest =>
      if String.eqb n name then (n, m) :: rest
      else (n, m0) :: replace_module name m rest
  end.

Definition get_checkpoint_module_path (name : string) (epoch : Z) : M path :=
  run <- get current_run_dir_path ;
  ret (run ++ [name; PyStr.format_02d epoch +:+ ".pth"]).

Definition get_number_of_runs : M Z :=
  run_dir_list <- os_listdir [] ;
  ret (Z.of_nat (length run_dir_list)).

Definition get_start_epoch : M Z := get start_epoch.

(** The parameter is spelled [slef] and the body reads [self], a name that
    is bound nowhere: the call raises [NameError]. *)
Definition get_current_run_dir_path : M path := raise NameError.

Definition get_run_index_from_path (run_dir_path : path) : M Z :=
  py_int (PyStr.final (PyStr.split "_" (os_path_basename run_dir_path))).

Definition make_run_dir (index : Z) : M unit :=
  let run_dir_path := [("run_" +:+ PyStr.format_02d index)%string] in
  os_makedirs run_dir_path ;;
  ms <- get modules_to_track ;
  for_each ms (fun '(module_name, _) =>
    os_makedirs (run_dir_path ++ [module_name])) ;;
  modify (set_start_epoch 0) ;;
  modify (set_current_run_dir_path run_dir_path).

Definition get_last_run_dir_path : M path :=
  names <- os_listdir [] ;
  let run_dir_list := PyStr.sorted names in
  match last run_dir_list with
  | Some last_run_dir => ret [last_run_dir]
  | None => raise IndexError
  end.

Definition _get_last_epoch_index (dir_path : path) : M Z :=
  is_dir <- os_path_isdir dir_path ;
  if negb is_dir then raise NotADirectoryError
  else
    names <- os_listdir dir_path ;
    let checkpoints := PyStr.sorted names in
    if (Z.of_nat (length checkpoints) =? 0) then ret (-1)
    else py_int (PyStr.first (PyStr.split "." (PyStr.final checkpoints))).

Definition get_last_epoch_index (run_dir_path : path) : M Z :=
  let model_dir_path := run_dir_path ++ ["model"%string] in
  let optimizer_dir_path := run_dir_path ++ ["optimizer"%string] in
  let scheduler_dir_path := run_dir_path ++ ["scheduler"%string] in
  a <- _get_last_epoch_index model_dir_path ;
  b <- _get_last_epoch_index optimizer_dir_path ;
  c <- _get_last_epoch_index scheduler_dir_path ;
  ret (Z.min (Z.min a b) c).

Definition is_checkpoint_dir_full (checkpoints_dir_path : path) : M bool :=
  last_epoch <- get_last_epoch_index checkpoints_dir_path ;
  budget <- get epochs_per_run ;
  ret (last_epoch =? budget - 1).

Definition is_run_completed (run_dir_path : path) : M bool :=
  full <- is_checkpoint_dir_full run_dir_path ;
  if full then ret true else ret false.

Definition scan_experiment_dir : M unit :=
  num_runs <- get_number_of_runs ;
  if num_runs =? 0 then make_run_dir 0
  else
    last_run_dir_path <- get_last_run_dir_path ;
    completed <- is_run_completed last_run_dir_path ;
    if completed then
      i <- get_run_index_from_path last_run_dir_path ;
      let current_run_index := i + 1 in
      make_run_dir current_run_index
    else
      modify (set_current_run_dir_path last_run_dir_path) ;;
      run <- get current_run_dir_path ;
      e <- get_last_epoch_index run ;
      modify (set_start_epoch (e + 1)).

Definition load_last_checkpoint : M unit :=
  scan_experiment_dir ;;
  e <- get start_epoch ;
  if e =? 0 then ret tt
  else
    ms <- get modules_to_track ;
    for_each ms (fun '(module_name, module) =>
      e <- get start_epoch ;
      checkpoint_module_path <- get_checkpoint_module_path module_name (e - 1) ;
      blob <- torch_load checkpoint_module_path ;
      module' <- lift (load_state_dict module blob) ;
      modify (fun w => set_modules
                (replace_module module_name module' (modules_to_track w)) w)).

Definition save_modules : M unit :=
  ms <- get modules_to_track ;
  for_each ms (fun '(module_name, module) =>
    e <- get start_epoch ;
    checkpoint_module_path <- get_checkpoint_module_path module_name e ;
    obj <- lift (state_dict module) ;
    torch_save obj checkpoint_module_path).

Definition save_checkpoint : M unit :=
  save_modules ;;
  e <- get start_epoch ;
  modify (set_start_epoch (e + 1)) ;;
  e' <- get start_epoch ;
  budget <- get epochs_per_run ;
  if e' =? budget then
    run <- get current_run_dir_path ;
    current_run_index <- get_run_index_from_path run ;
    make_run_dir (current_run_index + 1)
  else ret tt.

(** [CheckpointsManager(modules_to_track, experiment_dir_path,
    epochs_per_run, verbose)] on an experiment directory holding [d].  The
    two cursor attributes start as [None]; the scan assigns them before
    anything reads them, and the values given here stand for [None]. *)
Definition new_manager (modules : list (string * Mod)) (budget : Z)
    (verb : bool) (d : tree StateDict) : outcome unit * world :=
  scan_experiment_dir (World modules budget verb 0 [] d).

End Manager.

(** * Vocabulary of the properties

    Functions and predicates that the statements below use: what the
    reading methods compute as functions of the disk, the names and paths
    that the manager builds, and the bodies of its loops. *)

(** [m] is at least every name of [l]. *)
Definition upper (m : string) (l : list string) : Prop :=
  ∀ y, y ∈ l → String.le y m.

(** Strings of decimal digits, strings of zeros, strings holding a
    character. *)
Fixpoint all_digits (s : string) : bool :=
  match s with
  | EmptyString => true
  | String c rest => PyStr.is_digit c && all_digits rest
  end.

Definition zeros (k : nat) : string := string_of_list_ascii (repeat "0"%char k).

Fixpoint has_char (sep : ascii) (s : string) : bool :=
  match s with
  | EmptyString => false
  | String c rest => Ascii.eqb c sep || has_char sep rest
  end.

(** The name of the checkpoint file of an epoch. *)
Definition ckpt_name (epoch : Z) : string := PyStr.format_02d epoch +:+ ".pth".

(** Whether the names of the checkpoints of the epochs below [bound] sort
    like the epochs. *)
Definition names_sort_like_epochs (bound : Z) : bool :=
  forallb (fun a =>
    forallb (fun b => implb (String.leb (ckpt_name a) (ckpt_name b)) (a <=? b))
            (seqZ 0 bound))
          (seqZ 0 bound).

(** Whether the names that [name] gives to the numbers below [bound] sort
    exactly like the numbers. *)
Definition sorts_like_numbers (name : Z → string) (bound : Z) : bool :=
  forallb (fun a =>
    forallb (fun b => Bool.eqb (String.leb (name a) (name b)) (a <=? b))
            (seqZ 0 bound))
          (seqZ 0 bound).

(** A name that [os.path.join] and the file system take as one path
    component below the directory it is joined to: not empty, neither
    [.] nor [..], without separator and without null character.  On such
    names joining a name to a path is appending it, which is how the
    operations above build their paths. *)
Definition is_component (s : string) : bool :=
  match s with
  | EmptyString => false
  | _ =>
      negb (String.eqb s ".") && negb (String.eqb s "..")
      && negb (has_char "/" s) && negb (has_char "000" s)
  end.

Definition components (names : list string) : Prop :=
  Forall (fun n => is_component n = true) names.

(** Python converts between integers and strings of at most 4300 digits:
    [f'{n:02d}'] raises for an integer outside these bounds, and [int] for
    a longer numeral. *)
Definition max_str_digits : nat := 4300.
Definition str_digits_limit : Z := 10 ^ 4300.

(** A file name that Python reads as the characters it is made of: ASCII
    only, and no longer than [max_str_digits].  On such names the order of
    [sorted] is the order of the bytes and [int] is the ASCII parser. *)
Definition is_ascii (s : string) : bool :=
  forallb (fun c => match c with Ascii _ _ _ _ _ _ _ b7 => negb b7 end)
          (list_ascii_of_string s).

Definition readable_name (s : string) : bool :=
  is_ascii s && (String.length s <=? max_str_digits)%nat.

Section Vocabulary.
Context {Mod StateDict : Type} `{Trackable Mod StateDict}.
Implicit Types (w : world (Mod:=Mod) (StateDict:=StateDict)) (d : tree StateDict).

Definition out_bind {A C} (o : outcome A) (k : A → outcome C) : outcome C :=
  match o with
  | Return a => k a
  | Raise e => Raise e
  end.

(** What [_get_last_epoch_index] computes on a disk. *)
Definition last_index (p : path) d : outcome Z :=
  match Fs.resolve p d with
  | Some (Dir es) =>
      let checkpoints := PyStr.sorted (map_to_list es).*1 in
      if Z.of_nat (length checkpoints) =? 0 then Return (-1)
      else match PyStr.int (PyStr.first (PyStr.split "." (PyStr.final checkpoints))) with
           | Some n => Return n
           | None => Raise ValueError
           end
  | _ => Raise NotADirectoryError
  end.

(** What [get_last_epoch_index] computes on a disk. *)
Definition min_last_index (run : path) d : outcome Z :=
  out_bind (last_index (run ++ ["model"%string]) d) (fun a =>
  out_bind (last_index (run ++ ["optimizer"%string]) d) (fun b =>
  out_bind (last_index (run ++ ["scheduler"%string]) d) (fun c =>
  Return (Z.min (Z.min a b) c)))).

(** One empty directory per name. *)
Definition empty_dirs (names : list string) : tree StateDict :=
  list_to_map ((fun n => (n, Dir ∅)) <$> names).

Definition run_name (index : Z) : string := "run_" +:+ PyStr.format_02d index.

(** The greatest name of a directory listing. *)
Definition last_entry d : string := PyStr.final (PyStr.sorted (map_to_list d).*1).

(** The path of the checkpoint of a tracked name at an epoch, and the
    body of the loop of [save_checkpoint]. *)
Definition ckpt_path w (name : string) (epoch : Z) : path :=
  current_run_dir_path w ++ [name; PyStr.format_02d epoch +:+ ".pth"].

Definition save_body : string * Mod → M (Mod:=Mod) (StateDict:=StateDict) unit :=
  fun '(module_name, module) =>
    e <- get start_epoch ;
    checkpoint_module_path <- get_checkpoint_module_path module_name e ;
    obj <- lift (state_dict module) ;
    torch_save obj checkpoint_module_path.

(** The index of a run directory, as [get_run_index_from_path] reads it. *)
Definition run_index (run : path) : option Z :=
  PyStr.int (PyStr.final (PyStr.split "_" (os_path_basename run))).

(** [n] calls of [save_checkpoint] in a row, stopping at the first one
    that raises. *)
Fixpoint save_times (n : nat) : M (Mod:=Mod) (StateDict:=StateDict) unit :=
  match n with
  | O => ret tt
  | S k => save_checkpoint ;; save_times k
  end.

(** The body of the loop of [load_last_checkpoint]. *)
Definition load_body : string * Mod → M (Mod:=Mod) (StateDict:=StateDict) unit :=
  fun '(module_name, module) =>
    e <- get start_epoch ;
    checkpoint_module_path <- get_checkpoint_module_path module_name (e - 1) ;
    blob <- torch_load checkpoint_module_path ;
    module' <- lift (load_state_dict module blob) ;
    modify (fun w => set_modules
              (replace_module module_name module' (modules_to_track w)) w).

(** [after] is [before] once it has loaded the checkpoint of the epoch
    before the cursor of [w] from the current run of [w]. *)
Definition loaded_from w (before after : string * Mod) : Prop :=
  after.1 = before.1
  ∧ ∃ blob,
      Fs.resolve (ckpt_path w before.1 (start_epoch w - 1)) (disk w) = Some (File blob)
      ∧ load_state_dict before.2 blob = Return after.2.

(** The names spelled out in [get_last_epoch_index]. *)
Definition fixed_names : list string := ["model"; "optimizer"; "scheduler"]%string.

(** Two disks show the same three directories below a run. *)
Definition same_fixed_dirs (run : path) d1 d2 : Prop :=
  ∀ c, c ∈ fixed_names → Fs.resolve (run ++ [c]) d1 = Fs.resolve (run ++ [c]) d2.

(** Every entry of a component directory is the checkpoint of an epoch
    of the budget. *)
Definition within_budget (budget : Z) (es : tree StateDict) : Prop :=
  ∀ name, is_Some (es !! name) → ∃ k, 0 ≤ k < budget ∧ name = ckpt_name k.

(** The entries of a component directory are files, one for each epoch
    below [h]. *)
Definition epochs_dir (h : Z) (es : tree StateDict) : Prop :=
  (∀ name, is_Some (es !! name) ↔ ∃ k, 0 ≤ k < h ∧ name = ckpt_name k)
  ∧ (∀ name x, es !! name = Some x → ∃ b, x = File b).

(** A manager in step with its disk.  It tracks [model], [optimizer] and
    [scheduler]; the experiment directory holds the runs 0 to [i], named by
    [make_run_dir], with [i] below 100, and the cursor is on run [i], at an
    epoch of a budget of at most 100.  In that run the directories of the
    objects [todo] hold the checkpoints of the epochs before the cursor,
    and the directories of the objects [done], which come first in the
    dictionary, hold the checkpoint of the epoch of the cursor as well: a
    save of that epoch stopped after them. *)
(** The directory [c] of a run holds exactly the checkpoints of the
    epochs below [h]. *)
Definition holds_epochs (run : path) (c : string) (h : Z) d : Prop :=
  0 ≤ h ≤ 100
  ∧ ∃ es, Fs.resolve (run ++ [c]) d = Some (Dir es) ∧ epochs_dir h es.

Definition readable_dir (es : tree StateDict) : Prop :=
  ∀ k, is_Some (es !! k) → readable_name k = true.

Definition in_step w : Prop :=
  ∃ (i : Z) (done todo : list string),
    0 ≤ i < 100
    ∧ current_run_dir_path w = [run_name i]
    ∧ (∀ n, is_Some (disk w !! n) ↔ ∃ j, 0 ≤ j ≤ i ∧ n = run_name j)
    ∧ (modules_to_track w).*1 ≡ₚ fixed_names
    ∧ 0 ≤ start_epoch w < epochs_per_run w
    ∧ epochs_per_run w ≤ 100
    ∧ (modules_to_track w).*1 = done ++ todo
    ∧ todo ≠ []
    ∧ (∀ c, c ∈ done →
         ∃ es, Fs.resolve [run_name i; c] (disk w) = Some (Dir es)
               ∧ epochs_dir (start_epoch w + 1) es)
    ∧ (∀ c, c ∈ todo →
         ∃ es, Fs.resolve [run_name i; c] (disk w) = Some (Dir es)
               ∧ epochs_dir (start_epoch w) es).

End Vocabulary.

(** ** A concrete instance for examples

    A tracked object is an integer, its state dictionary is that integer;
    a negative object refuses to give its state, and a negative state is
    refused on loading. *)

#[export] Instance Z_trackable : Trackable Z Z := {
  state_dict m := if m <? 0 then Raise HookError else Return m;
  load_state_dict _ d := if d <? 0 then Raise HookError else Return d
}.

(** A component directory holding the checkpoints of the given epochs,
    the checkpoint of epoch [e] holding the blob [e]. *)
Definition ckpt_dir (epochs : list Z) : node Z :=
  Dir (list_to_map (map (fun e => (PyStr.format_02d e +:+ ".pth", File e)) epochs)).

(** The root of the worked example of the specification: run 0 with
    epochs 0 to 2 for [model] and 0 to 1 for [optimizer]. *)
Definition lagging_root : tree Z :=
  {[ "run_00"%string :=
       Dir (<[ "model"%string := ckpt_dir [0; 1; 2] ]>
            {[ "optimizer"%string := ckpt_dir [0; 1] ]}) ]}.

Definition lagging_root3 : tree Z :=
  {[ "run_00"%string :=
       Dir (<[ "model"%string := ckpt_dir [0; 1; 2] ]>
            (<[ "optimizer"%string := ckpt_dir [0; 1] ]>
             {[ "scheduler"%string := ckpt_dir [0; 1; 2] ]})) ]}.

Abbreviation demo_world := (world (Mod:=Z) (StateDict:=Z)).

Definition demo_modules : list (string * Z) :=
  [("model", 5); ("optimizer", 6); ("scheduler", 7)]%string.

(** A manager on the directories that [make_run_dir 0] creates. *)
Definition fresh_world (modules : list (string * Z)) (budget : Z) : demo_world :=
  World modules budget true 0 ["run_00"%string]
    {[ "run_00"%string := Dir (empty_dirs modules.*1) ]}.

(** Run 0 with the checkpoints of the epochs 0 to 3 in each of the three
    directories, under a budget of 3. *)
Definition overshoot_world : demo_world :=
  World demo_modules 3 true 0 ["run_00"%string]
    {[ "run_00"%string :=
         Dir (<[ "model"%string := ckpt_dir [0; 1; 2; 3] ]>
              (<[ "optimizer"%string := ckpt_dir [0; 1; 2; 3] ]>
               {[ "scheduler"%string := ckpt_dir [0; 1; 2; 3] ]})) ]}.

(** Run 0 with the checkpoints of all the 101 epochs of a budget of 101,
    named as [save_checkpoint] names them. *)
Definition long_world : demo_world :=
  World demo_modules 101 true 0 ["run_00"%string]
    {[ "run_00"%string :=
         Dir (<[ "model"%string := ckpt_dir (seqZ 0 101) ]>
              (<[ "optimizer"%string := ckpt_dir (seqZ 0 101) ]>
               {[ "scheduler"%string := ckpt_dir (seqZ 0 101) ]})) ]}.

(** A tracked object that refuses to give its state. *)
Definition failing_hook_world : demo_world :=
  fresh_world [("model", 5); ("optimizer", -1); ("scheduler", 7)]%string 3.

(** A manager whose run 0 lags on [optimizer], before its scan. *)
Definition lagging_world (modules : list (string * Z)) : demo_world :=
  World modules 3 true 0 [] lagging_root3.

(** A root whose greatest entry is a regular file, and a root whose
    [model] directory ends with a name that is no epoch. *)
Definition stray_file_root : tree Z :=
  <[ "zzz.txt"%string := File 0 ]> lagging_root3.

Definition junk_name_root : tree Z :=
  {[ "run_00"%string :=
       Dir (<[ "model"%string :=
                 Dir (<[ "notes.txt"%string := File 0 ]> {[ "00.pth"%string := File 0 ]}) ]>
            {[ "optimizer"%string := ckpt_dir [0] ]}) ]}.

(** A run directory whose epoch 1 of [optimizer] holds a state that the
    [load_state_dict] hook refuses. *)
Definition refused_root : tree Z :=
  {[ "run_00"%string :=
       Dir (<[ "model"%string := ckpt_dir [0; 1] ]>
            (<[ "optimizer"%string :=
                  Dir (<[ "01.pth"%string := File (-1) ]> {[ "00.pth"%string := File 0 ]}) ]>
             {[ "scheduler"%string := ckpt_dir [0; 1] ]})) ]}.

Definition refused_world : demo_world :=
  World demo_modules 3 true 0 [] refused_root.

(** A manager that tracks [encoder] only, on a run whose directory
    [encoder] holds the epochs 0 to 4 beside the three directories of
    [lagging_root3]. *)
Definition foreign_world : demo_world :=
  World [("encoder", 1)]%string 3 true 0 []
    {[ "run_00"%string :=
         Dir (<[ "encoder"%string := ckpt_dir [0; 1; 2; 3; 4] ]>
              (<[ "model"%string := ckpt_dir [0; 1; 2] ]>
               (<[ "optimizer"%string := ckpt_dir [0; 1] ]>
                {[ "scheduler"%string := ckpt_dir [0; 1; 2] ]}))) ]}.


(** A manager at the last epoch of run 0 whose next run directory is
    already there. *)
Definition blocked_world : demo_world :=
  World demo_modules 1 true 0 ["run_00"%string]
    (<[ "run_01"%string := Dir ∅ ]>
       {[ "run_00"%string := Dir (empty_dirs demo_modules.*1) ]}).

(** * Properties *)

Ltac by_compute := apply (bool_decide_unpack _); vm_compute; exact I.

Example split_dot : PyStr.split "." "07.pth" = ["07"; "pth"]%string.
Proof. reflexivity. Qed.
Example split_run : PyStr.final (PyStr.split "_" "run_03") = "03"%string.
Proof. reflexivity. Qed.
Example int_samples :
  map PyStr.int ["07"; " 12 "; "-3"; "+4"; "1_000"; "1__0"; "_1"; "1_"; ""; "-"; "abc"; "0x1"; "100"]%string
  = [Some 7; Some 12; Some (-3); Some 4; Some 1000; None; None; None; None; None; None; None; Some 100].
Proof. reflexivity. Qed.
Example format_samples :
  map PyStr.format_02d [0; 7; 12; 100; -1; -12]
  = ["00"; "07"; "12"; "100"; "-1"; "-12"]%string.
Proof. reflexivity. Qed.
Example sorted_sample :
  PyStr.sorted ["99.pth"; "100.pth"; "09.pth"]%string = ["09.pth"; "100.pth"; "99.pth"]%string.
Proof. reflexivity. Qed.

Example scan_lagging3 :
  let '(o, w) := new_manager [("model", 5); ("optimizer", 6); ("scheduler", 7)]%string 3 true lagging_root3 in
  (o, start_epoch w, current_run_dir_path w) = (Return tt, 2, ["run_00"%string]).
Proof. vm_compute. reflexivity. Qed.

Example scan_lagging2 :
  fst (new_manager [("model", 5); ("optimizer", 6)]%string 3 true lagging_root) = Raise NotADirectoryError.
Proof. vm_compute. reflexivity. Qed.

(** ** Sorting *)

Lemma insert_sorted_perm x l : PyStr.insert_sorted x l ≡ₚ x :: l.
Proof.
  induction l as [|y ys IH]; simpl; [done|].
  destruct (String.leb x y); [done|].
  rewrite IH. apply Permutation_swap.
Qed.

Lemma sorted_perm l : PyStr.sorted l ≡ₚ l.
Proof.
  induction l as [|x l IH]; simpl; [done|].
  rewrite insert_sorted_perm. by rewrite IH.
Qed.

Lemma sorted_length l : length (PyStr.sorted l) = length l.
Proof. by rewrite sorted_perm. Qed.

Lemma insert_sorted_last x l :
  (∀ m, last l = Some m → upper m l) →
  ∃ m', last (PyStr.insert_sorted x l) = Some m' ∧ m' ∈ x :: l ∧ upper m' (x :: l).
Proof.
  induction l as [|y ys IH]; intros Hmax; simpl.
  - exists x. split; [done|]. split; [set_solver|].
    intros z Hz. apply list_elem_of_singleton in Hz as ->. done.
  - destruct (String.leb x y) eqn:Hxy.
    + destruct (last (y :: ys)) as [m|] eqn:Hl.
      2:{ by apply last_None in Hl. }
      exists m. rewrite last_cons_cons. split; [done|].
      pose proof (Hmax m eq_refl) as Hup.
      split.
      * right. apply last_Some in Hl as [l' ->]. set_solver.
      * intros z Hz. apply elem_of_cons in Hz as [->|Hz]; [|by apply Hup].
        transitivity y; [by apply Is_true_true|]. apply Hup. set_solver.
    + destruct IH as (m' & Hl' & Hmem & Hup').
      { intros m Hm. intros z Hz. apply (Hmax m).
        - destruct ys; [done|]. by rewrite last_cons_cons.
        - set_solver. }
      exists m'. split.
      { destruct (PyStr.insert_sorted x ys) eqn:E; [done|]. by rewrite last_cons_cons. }
      split; [set_solver|].
      intros z Hz.
      assert (String.le y x) as Hyx.
      { destruct (String.le_total x y) as [Hc|Hc]; [|done].
        apply Is_true_true in Hc. congruence. }
      apply elem_of_cons in Hz as [->|Hz]; [apply Hup'; set_solver|].
      apply elem_of_cons in Hz as [->|Hz].
      * transitivity x; [done|]. apply Hup'. set_solver.
      * apply Hup'. set_solver.
Qed.

Lemma sorted_last_max l m :
  last (PyStr.sorted l) = Some m → m ∈ l ∧ upper m l.
Proof.
  revert m. induction l as [|x l IH]; intros m; simpl; [done|].
  intros Hl.
  destruct (insert_sorted_last x (PyStr.sorted l)) as (m' & Hl' & Hmem & Hup).
  { intros m0 Hm0 z Hz. apply (IH m0 Hm0). by rewrite <- (sorted_perm l). }
  rewrite Hl in Hl'. injection Hl' as <-.
  split.
  - rewrite (sorted_perm l) in Hmem. done.
  - intros z Hz. apply Hup. rewrite (sorted_perm l). done.
Qed.

Lemma sorted_final_max l :
  l ≠ [] → PyStr.final (PyStr.sorted l) ∈ l ∧ upper (PyStr.final (PyStr.sorted l)) l.
Proof.
  intros Hne. unfold PyStr.final.
  destruct (last (PyStr.sorted l)) as [m|] eqn:Hl.
  - simpl. by apply sorted_last_max.
  - apply last_None in Hl. apply (f_equal length) in Hl.
    rewrite sorted_length in Hl. by destruct l.
Qed.

(** ** Printing and parsing integers *)

Lemma all_digits_app s t :
  all_digits (s +:+ t) = all_digits s && all_digits t.
Proof.
  induction s as [|c s IH]; simpl; [done|].
  change (String c s +:+ t) with (String c (s +:+ t)). simpl.
  rewrite IH. by rewrite andb_assoc.
Qed.

Lemma all_digits_of_uint d : all_digits (NilEmpty.string_of_uint d) = true.
Proof. induction d; simpl; auto. Qed.

Lemma all_digits_zeros k : all_digits (zeros k) = true.
Proof. induction k; simpl; auto. Qed.

Lemma digit_not_space c : PyStr.is_digit c = true → PyStr.is_space c = false.
Proof. destruct c as [[] [] [] [] [] [] [] []]; simpl; congruence. Qed.

Lemma digits_of_plain prev s :
  all_digits s = true → s ≠ EmptyString ∨ prev = true →
  PyStr.digits_of prev s = Some s.
Proof.
  revert prev. induction s as [|c s IH]; intros prev Hd Hne; simpl.
  - destruct Hne as [Hne | ->]; done.
  - simpl in Hd. apply andb_true_iff in Hd as [Hc Hs].
    rewrite Hc. rewrite IH; auto.
Qed.

Lemma rstrip_plain s : all_digits s = true → PyStr.rstrip s = s.
Proof.
  induction s as [|c s IH]; simpl; [done|].
  intros [Hc Hs]%andb_true_iff. rewrite (IH Hs).
  destruct s; [|done]. by rewrite (digit_not_space c Hc).
Qed.

Lemma strip_plain s : all_digits s = true → PyStr.strip s = s.
Proof.
  intros Hd. unfold PyStr.strip.
  assert (PyStr.lstrip s = s) as ->; [|by apply rstrip_plain].
  destruct s as [|c s]; [done|]. simpl in *.
  apply andb_true_iff in Hd as [Hc _]. by rewrite (digit_not_space c Hc).
Qed.

Lemma uint_of_zeros k d :
  NilEmpty.uint_of_string (zeros k +:+ NilEmpty.string_of_uint d)
  = Some (Nat.iter k Decimal.D0 d).
Proof.
  unfold zeros. induction k as [|k IH]; simpl.
  - apply NilEmpty.usu.
  - change (uint_of_char "0"
      (NilEmpty.uint_of_string
         (string_of_list_ascii (repeat "0"%char k) +:+ NilEmpty.string_of_uint d))
      = Some (Decimal.D0 (Nat.iter k Decimal.D0 d))).
    by rewrite IH.
Qed.

Lemma of_uint_zeros k d : Z.of_uint (Nat.iter k Decimal.D0 d) = Z.of_uint d.
Proof. induction k as [|k IH]; simpl; [done|]. exact IH. Qed.

Lemma string_of_uint_nonempty d :
  d ≠ Decimal.Nil → NilEmpty.string_of_uint d ≠ EmptyString.
Proof. destruct d; simpl; congruence. Qed.

Lemma app_nonempty_r s t : t ≠ EmptyString → s +:+ t ≠ EmptyString.
Proof. destruct s; simpl; [done|]. intros _. discriminate. Qed.

Lemma unsigned_value_plain s :
  s ≠ EmptyString → all_digits s = true →
  PyStr.unsigned_value s = Z.of_uint <$> NilEmpty.uint_of_string s.
Proof.
  intros Hne Hd. unfold PyStr.unsigned_value.
  destruct s as [|c t]; [done|].
  rewrite digits_of_plain; [reflexivity|done|by left].
Qed.

Lemma unsigned_value_padded k d :
  d ≠ Decimal.Nil →
  PyStr.unsigned_value (zeros k +:+ NilEmpty.string_of_uint d) = Some (Z.of_uint d).
Proof.
  intros Hd. rewrite unsigned_value_plain.
  - rewrite uint_of_zeros. simpl. by rewrite of_uint_zeros.
  - by apply app_nonempty_r, string_of_uint_nonempty.
  - by rewrite all_digits_app, all_digits_zeros, all_digits_of_uint.
Qed.

Lemma int_unsigned s :
  s ≠ EmptyString → all_digits s = true → PyStr.int s = PyStr.unsigned_value s.
Proof.
  intros Hne Hd. unfold PyStr.int. rewrite (strip_plain s Hd).
  destruct s as [|c t]; [done|]. simpl in Hd.
  apply andb_true_iff in Hd as [Hc _].
  destruct c as [[] [] [] [] [] [] [] []]; simpl in Hc; try discriminate; reflexivity.
Qed.

Lemma int_negative s :
  s ≠ EmptyString → all_digits s = true →
  PyStr.int (String "-" s) = Z.opp <$> PyStr.unsigned_value s.
Proof.
  intros Hne Hd. unfold PyStr.int, PyStr.strip.
  change (PyStr.lstrip (String "-" s)) with (String "-" s).
  assert (PyStr.rstrip (String "-" s) = String "-" s) as ->; [|done].
  simpl. rewrite (rstrip_plain s Hd). by destruct s.
Qed.

(** The digits and the sign that [format_02d] prints. *)
Lemma format_02d_pos p :
  PyStr.format_02d (Z.pos p)
  = zeros (2 - String.length (NilEmpty.string_of_uint (Pos.to_uint p)))
    +:+ NilEmpty.string_of_uint (Pos.to_uint p).
Proof. reflexivity. Qed.

Lemma format_02d_neg p :
  PyStr.format_02d (Z.neg p)
  = String "-" (zeros (2 - 1 - String.length (NilEmpty.string_of_uint (Pos.to_uint p)))
    +:+ NilEmpty.string_of_uint (Pos.to_uint p)).
Proof. reflexivity. Qed.

(** Parsing what [format_02d] printed gives the number back. *)
Lemma int_format_02d n : PyStr.int (PyStr.format_02d n) = Some n.
Proof.
  destruct n as [|p|p].
  - reflexivity.
  - rewrite format_02d_pos.
    pose proof (Unsigned.to_uint_nonnil p) as Hnil.
    rewrite int_unsigned.
    + rewrite unsigned_value_padded by done.
      unfold Z.of_uint. by rewrite Unsigned.of_to.
    + by apply app_nonempty_r, string_of_uint_nonempty.
    + by rewrite all_digits_app, all_digits_zeros, all_digits_of_uint.
  - rewrite format_02d_neg.
    pose proof (Unsigned.to_uint_nonnil p) as Hnil.
    rewrite int_negative.
    + rewrite unsigned_value_padded by done.
      unfold Z.of_uint. by rewrite Unsigned.of_to.
    + by apply app_nonempty_r, string_of_uint_nonempty.
    + by rewrite all_digits_app, all_digits_zeros, all_digits_of_uint.
Qed.

(** ** Splitting names *)

Lemma has_char_cons sep c s :
  has_char sep (String c s) = Ascii.eqb c sep || has_char sep s.
Proof. reflexivity. Qed.

Lemma split_nonempty sep s : PyStr.split sep s ≠ [].
Proof.
  destruct s as [|c s]; simpl; [done|].
  destruct (Ascii.eqb c sep); [done|]. by destruct (PyStr.split sep s).
Qed.

Lemma split_no_sep sep s : has_char sep s = false → PyStr.split sep s = [s].
Proof.
  induction s as [|c s IH]; simpl; [done|].
  intros [Hc Hs]%orb_false_iff. rewrite Hc, (IH Hs). done.
Qed.

Lemma final_cons_nonempty x l : l ≠ [] → PyStr.final (x :: l) = PyStr.final l.
Proof. unfold PyStr.final. destruct l; [done|]. by rewrite last_cons_cons. Qed.

Lemma first_split_app sep s t :
  has_char sep s = false →
  PyStr.first (PyStr.split sep (s +:+ String sep t)) = s.
Proof.
  induction s as [|c s IH]; simpl.
  - intros _. change (EmptyString +:+ String sep t) with (String sep t).
    simpl. by rewrite Ascii.eqb_refl.
  - intros [Hc Hs]%orb_false_iff.
    change (String c s +:+ String sep t) with (String c (s +:+ String sep t)).
    simpl. rewrite Hc. specialize (IH Hs).
    destruct (PyStr.split sep (s +:+ String sep t)) as [|w ws] eqn:E.
    + by apply split_nonempty in E.
    + simpl in *. by rewrite IH.
Qed.

Lemma has_char_app sep s t :
  has_char sep (s +:+ t) = has_char sep s || has_char sep t.
Proof.
  induction s as [|c s IH]; simpl; [done|].
  change (String c s +:+ t) with (String c (s +:+ t)). simpl.
  rewrite IH. by rewrite orb_assoc.
Qed.

Lemma has_char_digits sep s :
  PyStr.is_digit sep = false → all_digits s = true → has_char sep s = false.
Proof.
  intros Hsep. induction s as [|c s IH]; simpl; [done|].
  intros [Hc Hs]%andb_true_iff. rewrite (IH Hs), orb_false_r.
  destruct (Ascii.eqb_spec c sep) as [->|]; [congruence|done].
Qed.

Lemma has_char_format_02d sep n :
  PyStr.is_digit sep = false → sep ≠ "-"%char →
  has_char sep (PyStr.format_02d n) = false.
Proof.
  intros Hd Hm.
  assert (∀ k d, has_char sep (zeros k +:+ NilEmpty.string_of_uint d) = false) as Hz.
  { intros k d. apply has_char_digits; [done|].
    by rewrite all_digits_app, all_digits_zeros, all_digits_of_uint. }
  destruct n as [|p|p].
  - apply (Hz 1%nat (Decimal.D0 Decimal.Nil)).
  - rewrite format_02d_pos. apply Hz.
  - rewrite format_02d_neg, has_char_cons, Hz, orb_false_r.
    apply Ascii.eqb_neq. congruence.
Qed.

(** The epoch of a checkpoint name, and the index of a run name. *)
Lemma checkpoint_name_epoch e :
  PyStr.int (PyStr.first (PyStr.split "." (PyStr.format_02d e +:+ ".pth"))) = Some e.
Proof.
  change (PyStr.format_02d e +:+ ".pth")%string
    with (PyStr.format_02d e +:+ String "." "pth")%string.
  rewrite first_split_app by (by apply has_char_format_02d).
  apply int_format_02d.
Qed.

Lemma run_name_index i :
  PyStr.int (PyStr.final (PyStr.split "_" ("run_" +:+ PyStr.format_02d i))) = Some i.
Proof.
  change (PyStr.split "_" ("run_" +:+ PyStr.format_02d i))
    with ("run"%string :: PyStr.split "_" (PyStr.format_02d i)).
  rewrite final_cons_nonempty by apply split_nonempty.
  rewrite split_no_sep by (by apply has_char_format_02d).
  apply int_format_02d.
Qed.

(** ** Reading the disk

    The methods that only read are functions of the disk: they leave the
    world as it is. *)

Section Reading.
Context {Mod StateDict : Type} `{Trackable Mod StateDict}.
Implicit Types (w : world (Mod:=Mod) (StateDict:=StateDict)) (d : tree StateDict).

Lemma _get_last_epoch_index_reads p w :
  _get_last_epoch_index p w = (last_index p (disk w), w).
Proof.
  unfold _get_last_epoch_index, last_index, os_path_isdir, os_listdir, py_int,
    bind, get, ret, lift, raise, Fs.isdir, Fs.listdir.
  destruct (Fs.resolve p (disk w)) as [[b|es]|] eqn:E; simpl;
    rewrite ?E; simpl; try reflexivity.
  destruct (Z.of_nat _ =? 0); [reflexivity|].
  destruct (PyStr.int _); reflexivity.
Qed.

Lemma get_last_epoch_index_reads run w :
  get_last_epoch_index run w = (min_last_index run (disk w), w).
Proof.
  unfold get_last_epoch_index, min_last_index, bind, ret.
  rewrite _get_last_epoch_index_reads.
  destruct (last_index (run ++ ["model"%string]) (disk w));
    cbn beta iota delta [out_bind]; [|reflexivity].
  rewrite _get_last_epoch_index_reads.
  destruct (last_index (run ++ ["optimizer"%string]) (disk w));
    cbn beta iota delta [out_bind]; [|reflexivity].
  rewrite _get_last_epoch_index_reads.
  destruct (last_index (run ++ ["scheduler"%string]) (disk w)); reflexivity.
Qed.

Lemma is_run_completed_reads run w :
  is_run_completed run w
  = (out_bind (min_last_index run (disk w))
       (fun e => Return (e =? epochs_per_run w - 1)), w).
Proof.
  unfold is_run_completed, is_checkpoint_dir_full, bind.
  rewrite get_last_epoch_index_reads.
  destruct (min_last_index run (disk w)) as [e|x]; simpl; [|reflexivity].
  unfold get, ret. by destruct (e =? epochs_per_run w - 1).
Qed.

Lemma get_number_of_runs_reads w :
  get_number_of_runs w = (Return (Z.of_nat (size (disk w))), w).
Proof.
  unfold get_number_of_runs, os_listdir, bind, get, lift, ret. simpl.
  by rewrite length_fmap, length_map_to_list.
Qed.

Lemma get_last_run_dir_path_reads w :
  disk w ≠ ∅ →
  get_last_run_dir_path w
  = (Return [PyStr.final (PyStr.sorted (map_to_list (disk w)).*1)], w).
Proof.
  intros Hne.
  unfold get_last_run_dir_path, os_listdir, bind, get, lift, ret, PyStr.final.
  simpl.
  destruct (last (PyStr.sorted (map_to_list (disk w)).*1)) as [x|] eqn:Hl; [done|].
  apply last_None in Hl. apply (f_equal length) in Hl.
  rewrite sorted_length, length_fmap, length_map_to_list in Hl.
  by apply map_size_empty_iff in Hl.
Qed.

End Reading.

(** ** Creating a run directory *)

Section RunDir.
Context {Mod StateDict : Type} `{Trackable Mod StateDict}.
Implicit Types (w : world (Mod:=Mod) (StateDict:=StateDict)) (d : tree StateDict).
Local Abbreviation empty_dirs := (empty_dirs (StateDict:=StateDict)).

Lemma empty_dirs_lookup names n :
  empty_dirs names !! n = if decide (n ∈ names) then Some (Dir ∅) else None.
Proof.
  unfold empty_dirs. induction names as [|x names IH].
  - rewrite fmap_nil, list_to_map_nil, lookup_empty.
    rewrite decide_False; [done|set_solver].
  - rewrite fmap_cons, list_to_map_cons.
    destruct (decide (x = n)) as [->|Hne].
    + rewrite lookup_insert_eq, decide_True; [done|set_solver].
    + rewrite lookup_insert_ne by done. rewrite IH.
      destruct (decide (n ∈ names)).
      * rewrite decide_True; [done|set_solver].
      * rewrite decide_False; [done|set_solver].
Qed.

Lemma makedirs_child r n d acc :
  d !! r = Some (Dir acc) → acc !! n = None →
  Fs.makedirs [r; n] d = Return (<[r := Dir (<[n := Dir ∅]> acc)]> d).
Proof. intros Hr Hn. simpl. by rewrite Hr, Hn. Qed.

Lemma for_each_makedirs (ms : list (string * Mod)) r acc w :
  disk w !! r = Some (Dir acc) →
  NoDup ms.*1 →
  (∀ n, n ∈ ms.*1 → acc !! n = None) →
  for_each ms (fun '(module_name, _) => os_makedirs ([r] ++ [module_name])) w
  = (Return tt, set_disk (<[r := Dir (empty_dirs ms.*1 ∪ acc)]> (disk w)) w).
Proof.
  revert acc w. induction ms as [|[n m] ms IH]; intros acc w Hr Hnd Hfresh.
  - simpl. unfold ret, empty_dirs. simpl. rewrite (left_id_L ∅ (∪)).
    rewrite insert_id by done. by destruct w.
  - simpl in Hnd. apply NoDup_cons in Hnd as [Hn Hnd].
    cbn [for_each]. unfold bind at 1.
    assert (os_makedirs ([r] ++ [n]) w
            = (Return tt, set_disk (<[r := Dir (<[n := Dir ∅]> acc)]> (disk w)) w)) as ->.
    { unfold os_makedirs, bind, get, lift, modify. cbv beta.
      change ([r] ++ [n]) with [r; n].
      rewrite (makedirs_child r n (disk w) acc Hr); [done|].
      apply Hfresh. set_solver. }
    rewrite (IH (<[n := Dir ∅]> acc)).
    + f_equal. unfold set_disk. simpl. f_equal.
      rewrite insert_insert_eq. f_equal. f_equal.
      unfold empty_dirs. simpl.
      rewrite <- insert_union_l. rewrite <- insert_union_r; [done|].
      apply not_elem_of_list_to_map_1.
      rewrite <- list_fmap_compose. simpl.
      intros Hin. apply Hn. revert Hin. clear.
      induction ms as [|[] ms IHms]; simpl; set_solver.
    + simpl. by rewrite lookup_insert_eq.
    + done.
    + intros n' Hn'. rewrite lookup_insert_ne.
      * apply Hfresh. set_solver.
      * intros ->. done.
Qed.

(** [make_run_dir] on a free name: the run directory and one empty
    directory per tracked name appear, and the cursor moves there. *)
Lemma make_run_dir_fresh index w :
  disk w !! run_name index = None →
  NoDup (modules_to_track w).*1 →
  make_run_dir index w
  = (Return tt,
     set_current_run_dir_path [run_name index]
       (set_start_epoch 0
          (set_disk (<[run_name index := Dir (empty_dirs (modules_to_track w).*1)]> (disk w)) w))).
Proof.
  intros Hfree Hnd. unfold make_run_dir. fold (run_name index).
  unfold bind at 1.
  assert (os_makedirs [run_name index] w
          = (Return tt, set_disk (<[run_name index := Dir ∅]> (disk w)) w)) as ->.
  { unfold os_makedirs, bind, get, lift, modify. simpl. by rewrite Hfree. }
  unfold bind at 1. unfold get at 1. cbv beta iota.
  unfold bind at 1.
  rewrite (for_each_makedirs _ (run_name index) ∅).
  - unfold bind, modify. simpl. f_equal.
    unfold set_current_run_dir_path, set_start_epoch, set_disk. simpl. f_equal.
    rewrite insert_insert_eq. by rewrite (right_id_L ∅ (∪)).
  - simpl. by rewrite lookup_insert_eq.
  - done.
  - intros n _. apply lookup_empty.
Qed.

(** [make_run_dir] on a taken name raises and changes nothing. *)
Lemma make_run_dir_taken index w :
  disk w !! run_name index ≠ None →
  make_run_dir index w = (Raise FileExistsError, w).
Proof.
  intros Htaken. unfold make_run_dir. fold (run_name index).
  unfold bind at 1. unfold os_makedirs, bind, get, lift, modify. simpl.
  destruct (disk w !! run_name index) as [[b|es]|]; done.
Qed.

End RunDir.

(** ** The scan *)

Section Scan.
Context {Mod StateDict : Type} `{Trackable Mod StateDict}.
Implicit Types (w : world (Mod:=Mod) (StateDict:=StateDict)) (d : tree StateDict).

Lemma last_entry_greatest d :
  d ≠ ∅ →
  is_Some (d !! last_entry d) ∧ ∀ n, is_Some (d !! n) → String.le n (last_entry d).
Proof.
  intros Hne. unfold last_entry.
  destruct (sorted_final_max (map_to_list d).*1) as [Hmem Hup].
  { intros Hnil. apply fmap_nil_inv in Hnil. by apply map_to_list_empty_iff in Hnil. }
  split.
  - apply list_elem_of_fmap in Hmem as ([n x] & -> & Hnx).
    apply elem_of_map_to_list in Hnx. by exists x.
  - intros n [x Hx]. apply Hup.
    apply list_elem_of_fmap. exists (n, x). split; [done|].
    by apply elem_of_map_to_list.
Qed.

Lemma scan_empty w : disk w = ∅ → scan_experiment_dir w = make_run_dir 0 w.
Proof.
  intros He. unfold scan_experiment_dir. unfold bind at 1.
  rewrite get_number_of_runs_reads, He. by rewrite map_size_empty.
Qed.

Lemma scan_nonempty w :
  disk w ≠ ∅ →
  scan_experiment_dir w
  = (completed <- is_run_completed [last_entry (disk w)] ;
     if completed then
       i <- get_run_index_from_path [last_entry (disk w)] ;
       make_run_dir (i + 1)
     else
       modify (set_current_run_dir_path [last_entry (disk w)]) ;;
       run <- get current_run_dir_path ;
       e <- get_last_epoch_index run ;
       modify (set_start_epoch (e + 1))) w.
Proof.
  intros Hne. unfold scan_experiment_dir. unfold bind at 1.
  rewrite get_number_of_runs_reads.
  assert ((Z.of_nat (size (disk w)) =? 0) = false) as ->.
  { apply Z.eqb_neq. intros Hz. apply Hne, map_size_empty_iff. lia. }
  unfold bind at 1. by rewrite get_last_run_dir_path_reads.
Qed.


(** The scan of a root that holds entries, as a function of the disk. *)
Lemma scan_nonempty_reads w :
  disk w ≠ ∅ →
  scan_experiment_dir w
  = match min_last_index [last_entry (disk w)] (disk w) with
    | Raise x => (Raise x, w)
    | Return e =>
        if e =? epochs_per_run w - 1 then
          (i <- get_run_index_from_path [last_entry (disk w)] ;
           make_run_dir (i + 1)) w
        else
          (Return tt,
           set_start_epoch (e + 1)
             (set_current_run_dir_path [last_entry (disk w)] w))
    end.
Proof.
  intros Hne. rewrite (scan_nonempty w Hne).
  unfold bind at 1. rewrite is_run_completed_reads.
  destruct (min_last_index [last_entry (disk w)] (disk w)) as [e|x] eqn:E;
    cbn [out_bind]; [|done].
  destruct (e =? epochs_per_run w - 1); [done|].
  unfold bind at 1. unfold modify at 1. cbv beta iota.
  unfold bind at 1. unfold get at 1. cbv beta iota.
  unfold bind at 1. rewrite get_last_epoch_index_reads.
  cbn [disk set_current_run_dir_path current_run_dir_path]. rewrite E. done.
Qed.

End Scan.

(** ** Initialisation, discovery of runs, accessors *)

Section Discovery.
Context {Mod StateDict : Type} `{Trackable Mod StateDict}.
Implicit Types (w : world (Mod:=Mod) (StateDict:=StateDict)) (d : tree StateDict).
Local Abbreviation empty_dirs := (empty_dirs (StateDict:=StateDict)).

Lemma new_manager_on_empty (modules : list (string * Mod)) (budget : Z) (verb : bool) :
  NoDup modules.*1 →
  new_manager modules budget verb ∅
  = (Return tt,
     World modules budget verb 0 ["run_00"%string]
       ({[ "run_00"%string := Dir (empty_dirs modules.*1) ]} : tree StateDict)).
Proof.
  intros Hnd. unfold new_manager.
  rewrite scan_empty by done.
  rewrite make_run_dir_fresh; [|apply lookup_empty|done].
  cbn. by rewrite insert_empty.
Qed.

(** C5.  For every budget of at least one epoch and every dictionary of
    tracked objects whose names are directory names (single path
    components), constructing the manager on an empty experiment directory
    succeeds, creates [run_00] holding exactly one empty directory per
    tracked name, and leaves the cursor at epoch 0 of that run. *)
Theorem init_on_empty_root (modules : list (string * Mod)) (budget : Z) (verb : bool) :
  1 ≤ budget →
  NoDup modules.*1 →
  components modules.*1 →
  new_manager modules budget verb ∅
  = (Return tt,
     World modules budget verb 0 ["run_00"%string]
       ({[ "run_00"%string := Dir (empty_dirs modules.*1) ]} : tree StateDict)).
Proof. intros _ Hnd _. by apply new_manager_on_empty. Qed.

(** C9.  [get_start_epoch] returns the epoch of the cursor and changes
    nothing; [get_current_run_dir_path] raises [NameError] on every
    manager instead of returning the path of the current run. *)
Theorem accessors w :
  get_start_epoch w = (Return (start_epoch w), w)
  ∧ get_current_run_dir_path w = (Raise NameError, w).
Proof. split; reflexivity. Qed.

End Discovery.

(** ** Writing files *)

Section Writing.
Context {B : Type}.
Implicit Types (d : tree B) (p q : path).

Lemma write_cons2 a c p x d :
  Fs.write (a :: c :: p) x d
  = match d !! a with
    | Some (Dir d') =>
        match Fs.write (c :: p) x d' with
        | Return d'' => Return (<[a := Dir d'']> d)
        | Raise e => Raise e
        end
    | Some (File _) => Raise NotADirectoryError
    | None => Raise FileNotFoundError
    end.
Proof. reflexivity. Qed.

Lemma resolve_cons a p d :
  Fs.resolve (a :: p) d
  = match d !! a with
    | Some (Dir d') => Fs.resolve p d'
    | Some (File b) => match p with [] => Some (File b) | _ => None end
    | None => None
    end.
Proof. reflexivity. Qed.

(** The file that was written is there. *)
Lemma write_resolve_same p x d d' :
  Fs.write p x d = Return d' → Fs.resolve p d' = Some (File x).
Proof.
  revert d d'. induction p as [|a p IH]; intros d d' Hw; [done|].
  destruct p as [|c p].
  - simpl in Hw. rewrite resolve_cons.
    destruct (d !! a) as [[y|es]|]; simplify_eq; by rewrite lookup_insert_eq.
  - rewrite write_cons2 in Hw. rewrite resolve_cons.
    destruct (d !! a) as [[y|es]|]; try done.
    destruct (Fs.write (c :: p) x es) as [es'|] eqn:E; simplify_eq.
    rewrite lookup_insert_eq. by eapply IH.
Qed.

(** Writing below one directory leaves its siblings alone. *)
Lemma write_sibling cur n f n' q x d d' :
  Fs.write (cur ++ [n; f]) x d = Return d' → n ≠ n' →
  Fs.resolve (cur ++ n' :: q) d' = Fs.resolve (cur ++ n' :: q) d.
Proof.
  revert d d'. induction cur as [|c cur IH]; intros d d' Hw Hne.
  - simpl app in *. rewrite write_cons2 in Hw. rewrite !resolve_cons.
    destruct (d !! n) as [[y|es]|]; try done.
    destruct (Fs.write [f] x es) as [es'|]; simplify_eq.
    by rewrite lookup_insert_ne.
  - assert (∃ c' r, cur ++ [n; f] = c' :: r) as (c' & r & Hr).
    { destruct cur; simpl; eauto. }
    rewrite <- !app_comm_cons in *. rewrite Hr, write_cons2 in Hw.
    rewrite !resolve_cons.
    destruct (d !! c) as [[y|es]|] eqn:Hc; try done.
    destruct (Fs.write (c' :: r) x es) as [es'|] eqn:E; simplify_eq.
    rewrite lookup_insert_eq. rewrite <- Hr in E. by eapply IH.
Qed.

(** Writing a file two levels down or deeper keeps the entries of the
    root. *)
Lemma write_dom a c p x d d' :
  Fs.write (a :: c :: p) x d = Return d' → dom d' = dom d.
Proof.
  rewrite write_cons2. intros Hw.
  destruct (d !! a) as [[y|es]|] eqn:Ha; try done.
  destruct (Fs.write (c :: p) x es) as [es'|]; simplify_eq.
  by apply dom_insert_lookup_L.
Qed.

(** A new entry of the root hides nothing that was there. *)
Lemma resolve_insert_fresh r y p d node0 :
  d !! r = None → p ≠ [] → Fs.resolve p d = Some node0 →
  Fs.resolve p (<[r := y]> d) = Some node0.
Proof.
  intros Hr Hp. destruct p as [|a p]; [done|]. rewrite !resolve_cons.
  destruct (decide (a = r)) as [->|Hne]; [by rewrite Hr|].
  by rewrite lookup_insert_ne.
Qed.

End Writing.

(** ** Saving *)

Section Saving.
Context {Mod StateDict : Type} `{Trackable Mod StateDict}.
Implicit Types (w : world (Mod:=Mod) (StateDict:=StateDict)) (d : tree StateDict).
Local Abbreviation empty_dirs := (empty_dirs (StateDict:=StateDict)).

Lemma set_disk_set_disk d d' w : set_disk d (set_disk d' w) = set_disk d w.
Proof. reflexivity. Qed.

Lemma set_disk_same w : set_disk (disk w) w = w.
Proof. by destruct w. Qed.

Lemma save_modules_loop w :
  save_modules w = for_each (modules_to_track w) save_body w.
Proof. reflexivity. Qed.

Lemma save_body_eq n m w :
  save_body (n, m) w
  = match state_dict m with
    | Return b =>
        match Fs.write (ckpt_path w n (start_epoch w)) b (disk w) with
        | Return d' => (Return tt, set_disk d' w)
        | Raise e => (Raise e, w)
        end
    | Raise e => (Raise e, w)
    end.
Proof.
  unfold save_body, get_checkpoint_module_path, torch_save, bind, get, ret, lift,
    modify, ckpt_path. cbv beta iota.
  destruct (state_dict m) as [b|e]; [|done].
  by destruct (Fs.write _ b (disk w)).
Qed.

Lemma write_dom_app cur n f x d d' :
  Fs.write (cur ++ [n; f]) x d = Return d' → dom d' = dom d.
Proof.
  destruct cur as [|c cur]; simpl app; [apply write_dom|].
  destruct cur as [|c' cur]; simpl app; apply write_dom.
Qed.

(** Whatever the outcome of the loop, it only changed the disk, below
    the directories of the names it went through, and the root has the
    entries it had. *)
Lemma save_loop_frame ms w o w1 :
  for_each ms save_body w = (o, w1) →
  ∃ d1, w1 = set_disk d1 w
        ∧ dom d1 = dom (disk w)
        ∧ ∀ n q, n ∉ ms.*1 →
            Fs.resolve (current_run_dir_path w ++ n :: q) d1
            = Fs.resolve (current_run_dir_path w ++ n :: q) (disk w).
Proof.
  revert w. induction ms as [|[n m] ms IH]; intros w Hloop.
  - simpl in Hloop. unfold ret in Hloop.
    assert (w1 = w) as -> by congruence.
    exists (disk w). by rewrite set_disk_same.
  - cbn [for_each] in Hloop. unfold bind in Hloop. rewrite save_body_eq in Hloop.
    destruct (state_dict m) as [b|e].
    2:{ assert (w1 = w) as -> by congruence.
        exists (disk w). by rewrite set_disk_same. }
    destruct (Fs.write (ckpt_path w n (start_epoch w)) b (disk w)) as [d'|e] eqn:Hw.
    2:{ assert (w1 = w) as -> by congruence.
        exists (disk w). by rewrite set_disk_same. }
    apply IH in Hloop as (d1 & -> & Hdom & Hframe).
    exists d1. split; [done|]. split.
    + rewrite Hdom. simpl. by eapply write_dom_app.
    + intros n' q Hn'. simpl in Hframe. rewrite Hframe by set_solver.
      eapply write_sibling; [exact Hw|]. set_solver.
Qed.

(** When the loop returns, every tracked object gave its state and the
    state is in the file of the epoch. *)
Lemma save_loop_ok ms w w1 :
  NoDup ms.*1 →
  for_each ms save_body w = (Return tt, w1) →
  ∀ n m, (n, m) ∈ ms →
    ∃ b, state_dict m = Return b
         ∧ Fs.resolve (ckpt_path w n (start_epoch w)) (disk w1) = Some (File b).
Proof.
  revert w. induction ms as [|[n0 m0] ms IH]; intros w Hnd Hloop n m Hin.
  - by apply elem_of_nil in Hin.
  - simpl in Hnd. apply NoDup_cons in Hnd as [Hn0 Hnd].
    cbn [for_each] in Hloop. unfold bind in Hloop. rewrite save_body_eq in Hloop.
    destruct (state_dict m0) as [b0|e] eqn:Hsd; [|done].
    destruct (Fs.write (ckpt_path w n0 (start_epoch w)) b0 (disk w)) as [d'|e] eqn:Hw;
      [|done].
    apply elem_of_cons in Hin as [Heq|Hin].
    + simplify_eq. exists b0. split; [done|].
      apply save_loop_frame in Hloop as (d1 & -> & _ & Hframe).
      simpl. unfold ckpt_path. simpl in Hframe. rewrite Hframe by done.
      by eapply write_resolve_same.
    + by apply (IH (set_disk d' w) Hnd Hloop n m Hin).
Qed.

Lemma get_run_index_from_path_eq run w :
  get_run_index_from_path run w
  = match run_index run with
    | Some i => (Return i, w)
    | None => (Raise ValueError, w)
    end.
Proof.
  unfold get_run_index_from_path, py_int, run_index.
  by destruct (PyStr.int _).
Qed.

Lemma run_index_run_name i : run_index [run_name i] = Some i.
Proof. apply run_name_index. Qed.

Lemma save_checkpoint_eq w :
  save_checkpoint w
  = match save_modules w with
    | (Raise e, w1) => (Raise e, w1)
    | (Return _, w1) =>
        let w2 := set_start_epoch (start_epoch w1 + 1) w1 in
        if start_epoch w1 + 1 =? epochs_per_run w1 then
          match run_index (current_run_dir_path w1) with
          | Some i => make_run_dir (i + 1) w2
          | None => (Raise ValueError, w2)
          end
        else (Return tt, w2)
    end.
Proof.
  unfold save_checkpoint. unfold bind at 1.
  destruct (save_modules w) as [[[]|e] w1]; [|done].
  unfold bind, get, modify, ret. cbv beta iota.
  cbn [start_epoch set_start_epoch epochs_per_run current_run_dir_path].
  destruct (start_epoch w1 + 1 =? epochs_per_run w1); [|done].
  rewrite get_run_index_from_path_eq.
  cbn [current_run_dir_path set_start_epoch].
  by destruct (run_index (current_run_dir_path w1)).
Qed.

(** A call that returns: the loop returned, and the cursor moved by one
    epoch, or to epoch 0 of a new run when the budget is reached. *)
Lemma save_checkpoint_ok w w' :
  NoDup (modules_to_track w).*1 →
  save_checkpoint w = (Return tt, w') →
  ∃ d1,
    save_modules w = (Return tt, set_disk d1 w)
    ∧ dom d1 = dom (disk w)
    ∧ if decide (start_epoch w + 1 = epochs_per_run w) then
        ∃ i, run_index (current_run_dir_path w) = Some i
             ∧ d1 !! run_name (i + 1) = None
             ∧ w' = set_current_run_dir_path [run_name (i + 1)]
                      (set_start_epoch 0
                         (set_disk (<[run_name (i + 1)
                                      := Dir (empty_dirs (modules_to_track w).*1)]> d1) w))
      else w' = set_start_epoch (start_epoch w + 1) (set_disk d1 w).
Proof.
  intros Hnd. rewrite save_checkpoint_eq.
  destruct (save_modules w) as [[[]|e] w1] eqn:Hloop; [|done].
  rewrite save_modules_loop in Hloop.
  apply save_loop_frame in Hloop as (d1 & -> & Hdom & _).
  cbn [start_epoch set_disk epochs_per_run current_run_dir_path].
  intros Hstep. exists d1. split; [done|]. split; [done|].
  destruct (decide (start_epoch w + 1 = epochs_per_run w)) as [Heq|Hne].
  - rewrite (proj2 (Z.eqb_eq _ _) Heq) in Hstep.
    destruct (run_index (current_run_dir_path w)) as [i|]; [|done].
    exists i. split; [done|].
    destruct (d1 !! run_name (i + 1)) as [x|] eqn:Hfree.
    { rewrite make_run_dir_taken in Hstep; [done|].
      cbn [disk set_start_epoch set_disk]. by rewrite Hfree. }
    split; [done|].
    rewrite make_run_dir_fresh in Hstep; [|done|done].
    by injection Hstep as <-.
  - rewrite (proj2 (Z.eqb_neq _ _) Hne) in Hstep. by injection Hstep as <-.
Qed.

(** A loop raises where its first failing step raises. *)
Lemma for_each_raises {A} (l : list A) (body : A → M (Mod:=Mod) (StateDict:=StateDict) unit) w e w1 :
  for_each l body w = (Raise e, w1)
  ↔ ∃ pre x post w0,
      l = pre ++ x :: post
      ∧ for_each pre body w = (Return tt, w0)
      ∧ body x w0 = (Raise e, w1).
Proof.
  revert w. induction l as [|x l IH]; intros w.
  - split; [done|]. intros (pre & x & post & w0 & Hl & _). by destruct pre.
  - cbn [for_each]. unfold bind at 1.
    destruct (body x w) as [[[]|e0] w'] eqn:Hx.
    + rewrite IH. split.
      * intros (pre & y & post & w0 & -> & Hpre & Hy).
        exists (x :: pre), y, post, w0. split; [done|]. split; [|done].
        cbn [for_each]. unfold bind. by rewrite Hx.
      * intros (pre & y & post & w0 & Hl & Hpre & Hy).
        destruct pre as [|x' pre].
        { simpl in Hl, Hpre. unfold ret in Hpre.
          injection Hl as <- _. injection Hpre as <-. by rewrite Hx in Hy. }
        simpl in Hl. injection Hl as <- ->.
        cbn [for_each] in Hpre. unfold bind in Hpre. rewrite Hx in Hpre.
        by exists pre, y, post, w0.
    + split.
      * intros Heq. exists [], x, l, w. split; [done|]. split; [done|].
        rewrite Hx. done.
      * intros (pre & y & post & w0 & Hl & Hpre & Hy).
        destruct pre as [|x' pre].
        { simpl in Hl, Hpre. unfold ret in Hpre.
          injection Hl as <- _. injection Hpre as <-. rewrite Hx in Hy.
          by injection Hy as <- <-. }
        simpl in Hl. injection Hl as <- ->.
        cbn [for_each] in Hpre. unfold bind in Hpre. by rewrite Hx in Hpre.
Qed.

(** The loop of [save_checkpoint] raises exactly when, the objects before
    it being saved, one object refuses its state or its file cannot be
    written. *)
Lemma save_modules_raises w e w1 :
  save_modules w = (Raise e, w1)
  ↔ ∃ pre n m post,
      modules_to_track w = pre ++ (n, m) :: post
      ∧ for_each pre save_body w = (Return tt, w1)
      ∧ (state_dict m = Raise e
         ∨ ∃ b, state_dict m = Return b
                ∧ Fs.write (ckpt_path w1 n (start_epoch w1)) b (disk w1) = Raise e).
Proof.
  rewrite save_modules_loop, for_each_raises. split.
  - intros (pre & [n m] & post & w0 & Hl & Hpre & Hbody).
    rewrite save_body_eq in Hbody.
    exists pre, n, m, post. split; [done|].
    destruct (state_dict m) as [b|e0] eqn:Hsd.
    + destruct (Fs.write _ b (disk w0)) as [d'|e0] eqn:Hw; [done|].
      assert (w1 = w0) as -> by congruence. split; [done|].
      right. exists b. split; [done|]. rewrite Hw. congruence.
    + assert (w1 = w0) as -> by congruence. split; [done|]. left. congruence.
  - intros (pre & n & m & post & Hl & Hpre & Hfail).
    exists pre, (n, m), post, w1. split; [done|]. split; [done|].
    rewrite save_body_eq. destruct Hfail as [->|(b & -> & ->)]; done.
Qed.

(** C2.  When the loop over the tracked objects raises, because a
    [state_dict] hook or a file write raised, [save_checkpoint] raises the
    same exception at once: the epoch, the current run, the tracked
    objects and the budget are what they were, the experiment directory has
    the entries it had, so a second call writes to the same files.  And a
    call that returns has written the file of every tracked object. *)
Theorem failed_save_keeps_cursor w :
  (∀ e w1,
     save_modules w = (Raise e, w1) →
     save_checkpoint w = (Raise e, w1)
     ∧ start_epoch w1 = start_epoch w
     ∧ current_run_dir_path w1 = current_run_dir_path w
     ∧ modules_to_track w1 = modules_to_track w
     ∧ epochs_per_run w1 = epochs_per_run w
     ∧ dom (disk w1) = dom (disk w)
     ∧ ∀ n, ckpt_path w1 n (start_epoch w1) = ckpt_path w n (start_epoch w))
  ∧ (∀ w',
       NoDup (modules_to_track w).*1 →
       save_checkpoint w = (Return tt, w') →
       ∀ n m, (n, m) ∈ modules_to_track w →
         ∃ b, state_dict m = Return b
              ∧ Fs.resolve (ckpt_path w n (start_epoch w)) (disk w') = Some (File b)).
Proof.
  split.
  - intros e w1 Hloop. split.
    { rewrite save_checkpoint_eq. by rewrite Hloop. }
    rewrite save_modules_loop in Hloop.
    apply save_loop_frame in Hloop as (d1 & -> & Hdom & _).
    by repeat split.
  - intros w' Hnd Hsave n m Hin.
    destruct (save_checkpoint_ok w w' Hnd Hsave) as (d1 & Hloop & Hdom & Hcur).
    rewrite save_modules_loop in Hloop.
    destruct (save_loop_ok _ _ _ Hnd Hloop n m Hin) as (b & Hsd & Hfile).
    exists b. split; [done|]. cbn [disk set_disk] in Hfile.
    destruct (decide (start_epoch w + 1 = epochs_per_run w)).
    + destruct Hcur as (i & _ & Hfree & ->).
      cbn [disk set_disk set_start_epoch set_current_run_dir_path].
      apply resolve_insert_fresh; [done| |done].
      unfold ckpt_path. by destruct (current_run_dir_path w).
    + by subst w'.
Qed.

(** C3.  A call of [save_checkpoint] that returns has written the file
    of the current epoch for every tracked object.  If the next epoch is
    not the budget, the epoch went up by one and the run is the same, with
    no new entry in the experiment directory.  If it is the budget, the
    epoch is 0 again, the run index went up by one, and the new run
    directory, which was not there, holds one empty directory per tracked
    name. *)
Theorem save_advances_cursor w w' :
  NoDup (modules_to_track w).*1 →
  save_checkpoint w = (Return tt, w') →
  (∀ n m, (n, m) ∈ modules_to_track w →
     ∃ b, state_dict m = Return b
          ∧ Fs.resolve (ckpt_path w n (start_epoch w)) (disk w') = Some (File b))
  ∧ modules_to_track w' = modules_to_track w
  ∧ epochs_per_run w' = epochs_per_run w
  ∧ if decide (start_epoch w + 1 = epochs_per_run w) then
      ∃ i, run_index (current_run_dir_path w) = Some i
           ∧ start_epoch w' = 0
           ∧ current_run_dir_path w' = [run_name (i + 1)]
           ∧ run_index (current_run_dir_path w') = Some (i + 1)
           ∧ disk w !! run_name (i + 1) = None
           ∧ disk w' !! run_name (i + 1)
             = Some (Dir (empty_dirs (modules_to_track w).*1))
    else
      start_epoch w' = start_epoch w + 1
      ∧ current_run_dir_path w' = current_run_dir_path w
      ∧ dom (disk w') = dom (disk w).
Proof.
  intros Hnd Hsave.
  destruct (save_checkpoint_ok w w' Hnd Hsave) as (d1 & Hloop & Hdom & Hcur).
  rewrite save_modules_loop in Hloop.
  pose proof (save_loop_ok _ _ _ Hnd Hloop) as Hfiles. cbn [disk set_disk] in Hfiles.
  destruct (decide (start_epoch w + 1 = epochs_per_run w)).
  - destruct Hcur as (i & Hidx & Hfree & ->).
    cbn [disk set_disk set_start_epoch set_current_run_dir_path start_epoch
         current_run_dir_path modules_to_track epochs_per_run].
    split.
    { intros n m Hin. destruct (Hfiles n m Hin) as (b & Hsd & Hfile).
      exists b. split; [done|].
      apply resolve_insert_fresh; [done| |done].
      unfold ckpt_path. by destruct (current_run_dir_path w). }
    split; [done|]. split; [done|].
    exists i. split; [done|]. split; [done|]. split; [done|].
    split; [apply run_index_run_name|]. split.
    + apply not_elem_of_dom. rewrite <- Hdom. by apply not_elem_of_dom.
    + by rewrite lookup_insert_eq.
  - subst w'.
    cbn [disk set_disk set_start_epoch start_epoch current_run_dir_path
         modules_to_track epochs_per_run].
    by repeat split.
Qed.

(** From a cursor inside the budget, [n] calls that all return leave the
    cursor [n] epochs further, counted in runs of [epochs_per_run]
    epochs. *)
Lemma save_times_cursor n w w' i :
  NoDup (modules_to_track w).*1 →
  0 ≤ start_epoch w < epochs_per_run w →
  run_index (current_run_dir_path w) = Some i →
  save_times n w = (Return tt, w') →
  start_epoch w' = (start_epoch w + Z.of_nat n) `mod` epochs_per_run w
  ∧ run_index (current_run_dir_path w')
    = Some (i + (start_epoch w + Z.of_nat n) `div` epochs_per_run w).
Proof.
  revert w i. induction n as [|n IH]; intros w i Hnd Hrange Hidx Hrun.
  - simpl in Hrun. unfold ret in Hrun. assert (w' = w) as -> by congruence.
    rewrite Z.add_0_r, Z.mod_small, Z.div_small by lia.
    by rewrite Z.add_0_r.
  - cbn [save_times] in Hrun. unfold bind in Hrun.
    destruct (save_checkpoint w) as [[[]|e] w1] eqn:Hsave; [|done].
    destruct (save_checkpoint_ok w w1 Hnd Hsave) as (d1 & _ & _ & Hcur).
    destruct (decide (start_epoch w + 1 = epochs_per_run w)) as [Heq|Hne].
    + destruct Hcur as (j & Hj & _ & ->).
      assert (j = i) as -> by congruence.
      apply IH with (i := i + 1) in Hrun as [He Hi];
        [|done|cbn; lia|apply run_index_run_name].
      cbn [start_epoch epochs_per_run set_current_run_dir_path set_start_epoch set_disk]
        in He, Hi.
      replace (start_epoch w + Z.of_nat (S n))
        with (Z.of_nat n + 1 * epochs_per_run w) by lia.
      rewrite Z.mod_add, Z.div_add by lia.
      rewrite Z.add_0_l in He, Hi. rewrite He, Hi.
      split; [done|]. f_equal. lia.
    + subst w1.
      apply IH with (i := i) in Hrun as [He Hi]; [|done|cbn; lia|done].
      cbn [start_epoch epochs_per_run current_run_dir_path set_start_epoch set_disk]
        in He, Hi.
      replace (start_epoch w + Z.of_nat (S n))
        with (start_epoch w + 1 + Z.of_nat n) by lia.
      by rewrite He, Hi.
Qed.

End Saving.

(** ** Construction *)

Section Construction.
Context {Mod StateDict : Type} `{Trackable Mod StateDict}.
Implicit Types (w : world (Mod:=Mod) (StateDict:=StateDict)) (d : tree StateDict).

Lemma make_run_dir_overwrites_cursor index w e p :
  NoDup (modules_to_track w).*1 →
  fst (make_run_dir index (set_start_epoch e (set_current_run_dir_path p w)))
  = fst (make_run_dir index w)
  ∧ (fst (make_run_dir index w) = Return tt →
     make_run_dir index (set_start_epoch e (set_current_run_dir_path p w))
     = make_run_dir index w).
Proof.
  intros Hnd. destruct (disk w !! run_name index) as [x|] eqn:Hfree.
  - rewrite !make_run_dir_taken; [done|cbn; by rewrite Hfree..].
  - by rewrite !make_run_dir_fresh.
Qed.

(** The scan reads neither attribute of the cursor, and a scan that
    returns has assigned both: the values that stand for [None] in
    [new_manager] do not matter. *)
Lemma scan_overwrites_cursor w e p :
  NoDup (modules_to_track w).*1 →
  fst (scan_experiment_dir (set_start_epoch e (set_current_run_dir_path p w)))
  = fst (scan_experiment_dir w)
  ∧ (fst (scan_experiment_dir w) = Return tt →
     scan_experiment_dir (set_start_epoch e (set_current_run_dir_path p w))
     = scan_experiment_dir w).
Proof.
  intros Hnd. destruct (decide (disk w = ∅)) as [Hempty|Hne].
  - rewrite !scan_empty by done. by apply make_run_dir_overwrites_cursor.
  - rewrite !scan_nonempty_reads by done.
    cbn [disk epochs_per_run set_start_epoch set_current_run_dir_path].
    destruct (min_last_index [last_entry (disk w)] (disk w)) as [i|x]; [|done].
    destruct (i =? epochs_per_run w - 1); [|done].
    unfold bind. rewrite !get_run_index_from_path_eq.
    destruct (run_index [last_entry (disk w)]) as [j|]; [|done].
    by apply make_run_dir_overwrites_cursor.
Qed.

End Construction.

(** ** Loading *)

Section Loading.
Context {Mod StateDict : Type} `{Trackable Mod StateDict}.
Implicit Types (w : world (Mod:=Mod) (StateDict:=StateDict)) (d : tree StateDict).

Lemma load_last_checkpoint_eq w :
  load_last_checkpoint w
  = match scan_experiment_dir w with
    | (Raise e, w1) => (Raise e, w1)
    | (Return _, w1) =>
        if start_epoch w1 =? 0 then (Return tt, w1)
        else for_each (modules_to_track w1) load_body w1
    end.
Proof.
  unfold load_last_checkpoint. unfold bind at 1.
  destruct (scan_experiment_dir w) as [[[]|e] w1]; [|done].
  unfold bind at 1. unfold get at 1. cbv beta iota.
  by destruct (start_epoch w1 =? 0).
Qed.

Lemma load_body_eq n m w :
  load_body (n, m) w
  = match Fs.resolve (ckpt_path w n (start_epoch w - 1)) (disk w) with
    | Some (File blob) =>
        match load_state_dict m blob with
        | Return m' =>
            (Return tt, set_modules (replace_module n m' (modules_to_track w)) w)
        | Raise e => (Raise e, w)
        end
    | Some (Dir _) => (Raise IsADirectoryError, w)
    | None => (Raise FileNotFoundError, w)
    end.
Proof.
  unfold load_body, get_checkpoint_module_path, torch_load, bind, get, ret, lift,
    modify, ckpt_path, Fs.read. cbv beta iota.
  destruct (Fs.resolve _ (disk w)) as [[blob|es]|]; try done;
    by destruct (load_state_dict m blob).
Qed.

Lemma replace_module_middle n m m' (pre post : list (string * Mod)) :
  n ∉ pre.*1 →
  replace_module n m' (pre ++ (n, m) :: post) = pre ++ (n, m') :: post.
Proof.
  induction pre as [|[n0 m0] pre IH]; intros Hn; simpl.
  - by rewrite String.eqb_refl.
  - destruct (String.eqb_spec n0 n) as [->|Hne]; [set_solver|].
    rewrite IH; [done|set_solver].
Qed.

Lemma load_loop todo : ∀ pre w w',
  modules_to_track w = pre ++ todo →
  NoDup (pre ++ todo).*1 →
  for_each todo load_body w = (Return tt, w')
  ↔ ∃ todo', Forall2 (loaded_from w) todo todo'
             ∧ w' = set_modules (pre ++ todo') w.
Proof.
  induction todo as [|[n m] todo IH]; intros pre w w' Hms Hnd.
  - simpl. unfold ret. split.
    + intros Heq. exists []. split; [constructor|].
      rewrite app_nil_r in *. rewrite <- Hms.
      assert (w' = w) as -> by congruence. by destruct w.
    + intros (todo' & Hall & ->). apply Forall2_nil_inv_l in Hall as ->.
      rewrite app_nil_r in *. rewrite <- Hms. by destruct w.
  - cbn [for_each]. unfold bind. rewrite load_body_eq.
    assert (n ∉ pre.*1) as Hfresh.
    { rewrite fmap_app in Hnd. apply NoDup_app in Hnd as (_ & Hdisj & _).
      intros Hin. apply (Hdisj n Hin). simpl. set_solver. }
    assert (NoDup ((pre ++ [(n, m)]) ++ todo).*1) as Hnd1.
    { by rewrite <- app_assoc. }
    split.
    + destruct (Fs.resolve _ (disk w)) as [[blob|es]|] eqn:Hfile; try done.
      destruct (load_state_dict m blob) as [m'|e] eqn:Hload; [|done].
      intros Hrest.
      apply (IH (pre ++ [(n, m')])) in Hrest as (todo' & Hall & ->).
      * exists ((n, m') :: todo'). split.
        -- constructor; [|exact Hall]. split; [done|]. exists blob. by split.
        -- cbn. by rewrite <- app_assoc.
      * cbn. rewrite Hms, replace_module_middle by done. by rewrite <- app_assoc.
      * rewrite !fmap_app in *. exact Hnd1.
    + intros (todo' & Hall & ->).
      apply Forall2_cons_inv_l in Hall as ([n' m'] & todo'' & [Hn (blob & Hfile & Hload)] & Hall & ->).
      simpl in Hn, Hfile, Hload. subst n'.
      rewrite Hfile, Hload.
      apply (IH (pre ++ [(n, m')])).
      * cbn. rewrite Hms, replace_module_middle by done. by rewrite <- app_assoc.
      * rewrite !fmap_app in *. exact Hnd1.
      * exists todo''. split; [exact Hall|]. cbn. by rewrite <- app_assoc.
Qed.

(** When its scan returns, [load_last_checkpoint] does nothing more when
    the epoch of the cursor is 0.  Otherwise it returns exactly when every
    tracked object could load the file named by the current run, its own
    name and the epoch before the cursor, and then every tracked object is
    what its [load_state_dict] hook made of the content of that file;
    nothing else changes. *)
Theorem resume_loads_previous_epoch w w1 :
  scan_experiment_dir w = (Return tt, w1) →
  (start_epoch w1 = 0 → load_last_checkpoint w = (Return tt, w1))
  ∧ (start_epoch w1 ≠ 0 →
     NoDup (modules_to_track w1).*1 →
     (∀ n e, fst (get_checkpoint_module_path n e w1)
             = Return (current_run_dir_path w1 ++ [n; PyStr.format_02d e +:+ ".pth"]))
     ∧ ∀ w',
       load_last_checkpoint w = (Return tt, w')
       ↔ ∃ loaded,
           Forall2 (loaded_from w1) (modules_to_track w1) loaded
           ∧ w' = set_modules loaded w1).
Proof.
  intros Hscan. rewrite load_last_checkpoint_eq, Hscan. split.
  - intros ->. done.
  - intros Hne Hnd. split; [done|]. intros w'.
    rewrite (proj2 (Z.eqb_neq _ _) Hne).
    apply (load_loop (modules_to_track w1) []); done.
Qed.

End Loading.

(** ** The three directories that the scan reads *)

Section FixedNames.
Context {Mod StateDict : Type} `{Trackable Mod StateDict}.
Implicit Types (w : world (Mod:=Mod) (StateDict:=StateDict)) (d : tree StateDict).

Lemma last_index_ext p d1 d2 :
  Fs.resolve p d1 = Fs.resolve p d2 → last_index p d1 = last_index p d2.
Proof. unfold last_index. by intros ->. Qed.

Lemma min_last_index_ext run d1 d2 :
  same_fixed_dirs run d1 d2 → min_last_index run d1 = min_last_index run d2.
Proof.
  intros Hsame. unfold min_last_index.
  rewrite (last_index_ext (run ++ ["model"%string]) d1 d2),
          (last_index_ext (run ++ ["optimizer"%string]) d1 d2),
          (last_index_ext (run ++ ["scheduler"%string]) d1 d2);
    [done|apply Hsame; unfold fixed_names; set_solver..].
Qed.

Lemma last_index_not_dir p d :
  Fs.isdir p d = false → last_index p d = Raise NotADirectoryError.
Proof.
  unfold Fs.isdir, last_index. by destruct (Fs.resolve p d) as [[b|es]|].
Qed.

Lemma min_last_index_missing run d c :
  c ∈ fixed_names → Fs.isdir (run ++ [c]) d = false →
  ∃ e, min_last_index run d = Raise e.
Proof.
  intros Hc Hmiss. apply last_index_not_dir in Hmiss.
  unfold min_last_index.
  destruct (last_index (run ++ ["model"%string]) d) as [a|e] eqn:Ha; [|by eexists].
  destruct (last_index (run ++ ["optimizer"%string]) d) as [b|e] eqn:Hb; [|by eexists].
  destruct (last_index (run ++ ["scheduler"%string]) d) as [x|e] eqn:Hx; [|by eexists].
  unfold fixed_names in Hc.
  repeat (apply elem_of_cons in Hc as [->|Hc]; [congruence|]).
  by apply elem_of_nil in Hc.
Qed.

End FixedNames.

(** ** Completeness of a run *)

Lemma ckpt_name_le a b :
  0 ≤ a < 100 → 0 ≤ b < 100 →
  String.le (ckpt_name a) (ckpt_name b) → a ≤ b.
Proof.
  intros Ha Hb Hle.
  assert (names_sort_like_epochs 100 = true) as Hall by (vm_compute; reflexivity).
  unfold names_sort_like_epochs in Hall.
  rewrite forallb_forall in Hall.
  specialize (Hall a). rewrite forallb_forall in Hall.
  assert (implb (String.leb (ckpt_name a) (ckpt_name b)) (a <=? b) = true) as Himp.
  { apply Hall; apply list_elem_of_In, elem_of_seqZ; lia. }
  unfold String.le in Hle. apply Is_true_true in Hle. rewrite Hle in Himp.
  simpl in Himp. lia.
Qed.

Section Completeness.
Context {Mod StateDict : Type} `{Trackable Mod StateDict}.
Implicit Types (w : world (Mod:=Mod) (StateDict:=StateDict)) (d : tree StateDict).

Lemma resolve_snoc p f d :
  Fs.resolve (p ++ [f]) d
  = match Fs.resolve p d with
    | Some (Dir es) => es !! f
    | _ => None
    end.
Proof.
  revert d. induction p as [|a p IH]; intros d.
  - simpl. by destruct (d !! f) as [[b|es]|].
  - rewrite <- app_comm_cons, !resolve_cons.
    destruct (d !! a) as [[b|es]|]; [|apply IH|done].
    by destruct p.
Qed.

Lemma last_index_empty p d :
  Fs.resolve p d = Some (Dir ∅) → last_index p d = Return (-1).
Proof. unfold last_index. intros ->. by rewrite map_to_list_empty. Qed.

Lemma last_index_nonempty p d es :
  Fs.resolve p d = Some (Dir es) → es ≠ ∅ →
  last_index p d
  = match PyStr.int (PyStr.first (PyStr.split "." (last_entry es))) with
    | Some n => Return n
    | None => Raise ValueError
    end.
Proof.
  unfold last_index. intros -> Hne. cbv zeta.
  rewrite sorted_length, length_fmap, length_map_to_list.
  assert ((Z.of_nat (size es) =? 0) = false) as ->; [|done].
  apply Z.eqb_neq. intros Hz. apply Hne, map_size_empty_iff. lia.
Qed.

(** In a directory within a budget of at most one hundred epochs, the
    last epoch is the greatest one that has a file. *)
Lemma last_index_within_budget budget p d es :
  1 ≤ budget ≤ 100 →
  Fs.resolve p d = Some (Dir es) → within_budget budget es →
  ∃ hi, last_index p d = Return hi
        ∧ -1 ≤ hi < budget
        ∧ (hi = budget - 1 ↔ is_Some (es !! ckpt_name (budget - 1))).
Proof.
  intros Hb Hdir Hwf. destruct (decide (es = ∅)) as [->|Hne].
  - exists (-1). split; [by apply last_index_empty|]. split; [lia|].
    rewrite lookup_empty. split; [lia|]. by intros [? ?].
  - destruct (last_entry_greatest es Hne) as [Hin Hmax].
    destruct (Hwf _ Hin) as (k & Hk & Hname).
    exists k. split.
    { rewrite (last_index_nonempty p d es Hdir Hne), Hname.
      unfold ckpt_name. by rewrite checkpoint_name_epoch. }
    split; [lia|]. split.
    + intros ->. by rewrite <- Hname.
    + intros Hfinal. specialize (Hmax _ Hfinal). rewrite Hname in Hmax.
      apply ckpt_name_le in Hmax; lia.
Qed.

(** C4, as the code has it.  For a manager that tracks [model],
    [optimizer] and [scheduler], a budget between 1 and 100, and a run whose
    three directories hold only checkpoints of epochs of the budget, the
    run is reported complete exactly when every tracked directory holds the
    checkpoint of the last epoch of the budget. *)
Theorem complete_iff_final_checkpoints w (run : path) :
  1 ≤ epochs_per_run w ≤ 100 →
  (modules_to_track w).*1 ≡ₚ fixed_names →
  (∀ c, c ∈ (modules_to_track w).*1 →
     ∃ es, Fs.resolve (run ++ [c]) (disk w) = Some (Dir es)
           ∧ within_budget (epochs_per_run w) es) →
  ∃ completed,
    is_run_completed run w = (Return completed, w)
    ∧ (completed = true
       ↔ ∀ c, c ∈ (modules_to_track w).*1 →
           is_Some (Fs.resolve (run ++ [c; ckpt_name (epochs_per_run w - 1)]) (disk w))).
Proof.
  intros Hb Hnames Hdirs.
  assert (∀ c, c ∈ fixed_names →
    ∃ hi, last_index (run ++ [c]) (disk w) = Return hi
          ∧ -1 ≤ hi < epochs_per_run w
          ∧ (hi = epochs_per_run w - 1
             ↔ is_Some (Fs.resolve (run ++ [c; ckpt_name (epochs_per_run w - 1)]) (disk w))))
    as Hidx.
  { intros c Hc. rewrite <- Hnames in Hc.
    destruct (Hdirs c Hc) as (es & Hdir & Hwf).
    destruct (last_index_within_budget _ _ _ es Hb Hdir Hwf) as (hi & Hhi & Hr & Hiff).
    exists hi. split; [done|]. split; [done|].
    change (run ++ [c; ckpt_name (epochs_per_run w - 1)])
      with (run ++ [c] ++ [ckpt_name (epochs_per_run w - 1)]).
    by rewrite app_assoc, resolve_snoc, Hdir. }
  destruct (Hidx "model"%string) as (a & Ha & Hra & Hia); [unfold fixed_names; set_solver|].
  destruct (Hidx "optimizer"%string) as (b & Hb' & Hrb & Hib); [unfold fixed_names; set_solver|].
  destruct (Hidx "scheduler"%string) as (c & Hc & Hrc & Hic); [unfold fixed_names; set_solver|].
  exists (Z.min (Z.min a b) c =? epochs_per_run w - 1). split.
  { rewrite is_run_completed_reads. unfold min_last_index.
    by rewrite Ha, Hb', Hc. }
  rewrite Z.eqb_eq. split.
  - intros Hmin name Hname. rewrite Hnames in Hname. unfold fixed_names in Hname.
    repeat (apply elem_of_cons in Hname as [->|Hname];
            [first [apply Hia|apply Hib|apply Hic]; lia|]).
    by apply elem_of_nil in Hname.
  - intros Hall.
    assert (a = epochs_per_run w - 1).
    { apply Hia, Hall. rewrite Hnames. unfold fixed_names. set_solver. }
    assert (b = epochs_per_run w - 1).
    { apply Hib, Hall. rewrite Hnames. unfold fixed_names. set_solver. }
    assert (c = epochs_per_run w - 1).
    { apply Hic, Hall. rewrite Hnames. unfold fixed_names. set_solver. }
    lia.
Qed.

End Completeness.

(** ** The layout that the manager creates, scanned again *)

Section OwnLayout.
Context {Mod StateDict : Type} `{Trackable Mod StateDict}.
Implicit Types (w : world (Mod:=Mod) (StateDict:=StateDict)) (d : tree StateDict).
Local Abbreviation empty_dirs := (empty_dirs (StateDict:=StateDict)).

Lemma last_entry_singleton (k : string) (x : node StateDict) :
  last_entry ({[ k := x ]} : tree StateDict) = k.
Proof. unfold last_entry. by rewrite map_to_list_singleton. Qed.

Lemma last_index_fresh_layout (names : list string) (c : string) :
  last_index ["run_00"%string; c]
    ({[ "run_00"%string := Dir (empty_dirs names) ]} : tree StateDict)
  = if decide (c ∈ names) then Return (-1) else Raise NotADirectoryError.
Proof.
  unfold last_index. rewrite resolve_cons, lookup_singleton_eq, resolve_cons.
  rewrite empty_dirs_lookup. case_decide; [|done].
  simpl. by rewrite map_to_list_empty.
Qed.

(** C7, on a failing input.  A manager that does not track all of
    [model], [optimizer] and [scheduler] starts on an empty experiment
    directory and creates the directory of every object it tracks; the
    next scan of that very layout raises [NotADirectoryError], although no
    directory of a tracked object is missing. *)
Theorem rescan_of_own_layout_raises (modules : list (string * Mod)) (budget : Z)
    (verb : bool) w0 :
  NoDup modules.*1 →
  (∃ c, c ∈ fixed_names ∧ c ∉ modules.*1) →
  new_manager modules budget verb ∅ = (Return tt, w0) →
  (∀ n, n ∈ modules.*1 → Fs.isdir (current_run_dir_path w0 ++ [n]) (disk w0) = true)
  ∧ scan_experiment_dir w0 = (Raise NotADirectoryError, w0).
Proof.
  intros Hnd (c & Hc & Hmiss) Hnew.
  rewrite new_manager_on_empty in Hnew by done. injection Hnew as <-.
  cbn [current_run_dir_path disk]. split.
  - intros n Hn. unfold Fs.isdir.
    change (["run_00"%string] ++ [n]) with ["run_00"%string; n].
    rewrite resolve_cons, lookup_singleton_eq, resolve_cons, empty_dirs_lookup.
    by rewrite decide_True.
  - rewrite scan_nonempty_reads; cbn [disk epochs_per_run].
    2:{ apply insert_non_empty. }
    rewrite last_entry_singleton. unfold min_last_index.
    change (["run_00"%string] ++ ["model"%string]) with ["run_00"%string; "model"%string].
    change (["run_00"%string] ++ ["optimizer"%string]) with ["run_00"%string; "optimizer"%string].
    change (["run_00"%string] ++ ["scheduler"%string]) with ["run_00"%string; "scheduler"%string].
    rewrite !last_index_fresh_layout.
    unfold fixed_names in Hc.
    repeat case_decide; try done.
    repeat (apply elem_of_cons in Hc as [->|Hc]; [done|]).
    by apply elem_of_nil in Hc.
Qed.

Lemma scan_fresh_layout_raises (modules : list (string * Mod)) (budget : Z)
    (verb : bool) (c : string) :
  c ∈ fixed_names → c ∉ modules.*1 →
  scan_experiment_dir
    (World modules budget verb 0 ["run_00"%string]
       ({[ "run_00"%string := Dir (empty_dirs modules.*1) ]} : tree StateDict))
  = (Raise NotADirectoryError,
     World modules budget verb 0 ["run_00"%string]
       ({[ "run_00"%string := Dir (empty_dirs modules.*1) ]} : tree StateDict)).
Proof.
  intros Hc Hmiss.
  rewrite scan_nonempty_reads; cbn [disk epochs_per_run].
  2:{ apply insert_non_empty. }
  rewrite last_entry_singleton. unfold min_last_index.
  change (["run_00"%string] ++ ["model"%string]) with ["run_00"%string; "model"%string].
  change (["run_00"%string] ++ ["optimizer"%string]) with ["run_00"%string; "optimizer"%string].
  change (["run_00"%string] ++ ["scheduler"%string]) with ["run_00"%string; "scheduler"%string].
  rewrite !last_index_fresh_layout.
  unfold fixed_names in Hc.
  repeat case_decide; try done.
  repeat (apply elem_of_cons in Hc as [->|Hc]; [done|]).
  by apply elem_of_nil in Hc.
Qed.

(** C6, on a failing input.  A manager that does not track all of
    [model], [optimizer] and [scheduler] is constructed on an empty
    experiment directory: the construction returns and the epoch of the
    cursor is 0.  [load_last_checkpoint] on that manager is no no-op: it
    raises [NotADirectoryError], from the scan it starts with, which looks
    for the three fixed directories. *)
Theorem resume_at_epoch_zero_raises (modules : list (string * Mod)) (budget : Z)
    (verb : bool) w0 :
  NoDup modules.*1 →
  components modules.*1 →
  (∃ c, c ∈ fixed_names ∧ c ∉ modules.*1) →
  new_manager modules budget verb ∅ = (Return tt, w0) →
  start_epoch w0 = 0
  ∧ load_last_checkpoint w0 = (Raise NotADirectoryError, w0).
Proof.
  intros Hnd _ (c & Hc & Hmiss) Hnew.
  rewrite new_manager_on_empty in Hnew by done. injection Hnew as <-.
  split; [done|].
  by rewrite load_last_checkpoint_eq, (scan_fresh_layout_raises _ _ _ c Hc Hmiss).
Qed.

End OwnLayout.

(** ** Worked inputs *)

(** C1, on the input of the specification.  A manager that tracks
    [model] and [optimizer] with a budget of 3, on a root whose run 0 holds
    the epochs 0 to 2 of [model] and 0 to 1 of [optimizer], does not come
    up at epoch 2 of run 0: its construction raises [NotADirectoryError],
    for the directory [scheduler] that it does not track. *)
Theorem resume_example_raises :
  (∀ n, n ∈ ["model"; "optimizer"]%string → Fs.isdir ["run_00"%string; n] lagging_root = true)
  ∧ new_manager [("model", 5); ("optimizer", 6)]%string 3 true lagging_root
    = (Raise NotADirectoryError,
       World [("model", 5); ("optimizer", 6)]%string 3 true 0 [] lagging_root : demo_world).
Proof.
  split.
  - intros n Hn.
    repeat (apply elem_of_cons in Hn as [->|Hn]; [vm_compute; reflexivity|]).
    by apply elem_of_nil in Hn.
  - vm_compute. reflexivity.
Qed.

(** With a directory [scheduler] in the run the same root resumes at
    epoch 2 of run 0. *)
Example resume_example_three_names :
  new_manager demo_modules 3 true lagging_root3
  = (Return tt, World demo_modules 3 true 2 ["run_00"%string] lagging_root3).
Proof. vm_compute. reflexivity. Qed.

(** C4 fails as it is stated.  Under a budget of 101 the manager writes
    the epochs 0 to 100 of run 0 for each of the three objects it tracks;
    every tracked directory then holds the checkpoint of epoch 100, the
    last of the budget, and the run is reported incomplete: [100.pth] sorts
    before [99.pth], so the last epoch that is read is 99. *)
Lemma long_run_reported_incomplete :
  (modules_to_track long_world).*1 = fixed_names
  ∧ (∀ c, c ∈ (modules_to_track long_world).*1 →
       is_Some (Fs.resolve (["run_00"%string] ++ [c; ckpt_name (epochs_per_run long_world - 1)])
                  (disk long_world)))
  ∧ fst (get_last_epoch_index ["run_00"%string] long_world) = Return 99
  ∧ fst (is_run_completed ["run_00"%string] long_world) = Return false.
Proof.
  split; [reflexivity|]. split.
  - intros c Hc. change ((modules_to_track long_world).*1) with fixed_names in Hc.
    unfold fixed_names in Hc.
    repeat (apply elem_of_cons in Hc as [->|Hc];
            [eexists; vm_compute; reflexivity|]).
    by apply elem_of_nil in Hc.
  - split; vm_compute; reflexivity.
Qed.

(** It fails too when the directories hold an epoch beyond the budget:
    with the epochs 0 to 3 under a budget of 3, every tracked directory
    holds the checkpoint of epoch 2 and the run is reported incomplete. *)
Example overshoot_reported_incomplete :
  (Fs.read ["run_00"; "model"; ckpt_name 2]%string (disk overshoot_world),
   Fs.read ["run_00"; "optimizer"; ckpt_name 2]%string (disk overshoot_world),
   Fs.read ["run_00"; "scheduler"; ckpt_name 2]%string (disk overshoot_world),
   fst (is_run_completed ["run_00"%string] overshoot_world),
   start_epoch (snd (scan_experiment_dir overshoot_world)))
  = (Return 2, Return 2, Return 2, Return false, 4).
Proof. vm_compute. reflexivity. Qed.

(** ** The theorems at concrete inputs *)

Lemma within_budget_ckpts (epochs : list Z) (budget : Z) :
  (∀ e, e ∈ epochs → 0 ≤ e < budget) →
  within_budget budget
    (list_to_map (map (fun e => (PyStr.format_02d e +:+ ".pth", File e)) epochs)).
Proof.
  intros Hall name [x Hx].
  apply elem_of_list_to_map_2 in Hx.
  apply list_elem_of_In, in_map_iff in Hx as (e & Heq & He).
  exists e. split; [apply Hall; by apply list_elem_of_In|].
  by injection Heq as <- _.
Qed.

Lemma init_on_empty_root_witness :
  1 ≤ 3
  ∧ NoDup demo_modules.*1
  ∧ components demo_modules.*1
  ∧ new_manager demo_modules 3 true ∅ = (Return tt, fresh_world demo_modules 3).
Proof.
  split; [lia|]. split; [by_compute|]. split; [by_compute|].
  apply init_on_empty_root; [lia|by_compute|by_compute].
Defined.

Lemma failed_save_keeps_cursor_witness :
  let w := failing_hook_world in
  let w1 := snd (save_modules w) in
  save_modules w = (Raise HookError, w1)
  ∧ save_checkpoint w = (Raise HookError, w1)
  ∧ start_epoch w1 = start_epoch w
  ∧ current_run_dir_path w1 = current_run_dir_path w
  ∧ dom (disk w1) = dom (disk w).
Proof.
  intros w w1.
  assert (save_modules w = (Raise HookError, w1)) as Hloop by (vm_compute; reflexivity).
  destruct (proj1 (failed_save_keeps_cursor w) HookError w1 Hloop)
    as (Hs & He & Hc & _ & _ & Hd & _).
  split; [exact Hloop|]. split; [exact Hs|]. split; [exact He|].
  split; [exact Hc|exact Hd].
Defined.

Lemma save_advances_cursor_witness :
  let w := fresh_world demo_modules 1 in
  let w' := snd (save_checkpoint w) in
  NoDup (modules_to_track w).*1
  ∧ save_checkpoint w = (Return tt, w')
  ∧ start_epoch w' = 0
  ∧ run_index (current_run_dir_path w') = Some 1.
Proof.
  intros w w'.
  assert (NoDup (modules_to_track w).*1) as Hnd by by_compute.
  assert (save_checkpoint w = (Return tt, w')) as Hsave by (vm_compute; reflexivity).
  destruct (save_advances_cursor w w' Hnd Hsave) as (_ & _ & _ & Hcur).
  rewrite decide_True in Hcur by reflexivity.
  destruct Hcur as (i & Hi & He & _ & Hidx & _).
  assert (i = 0) as -> by (vm_compute in Hi; congruence).
  split; [exact Hnd|]. split; [exact Hsave|]. split; [exact He|exact Hidx].
Defined.

Lemma complete_iff_final_checkpoints_witness :
  let w : demo_world := World demo_modules 3 true 0 ["run_00"%string]
    {[ "run_00"%string :=
         Dir (<[ "model"%string := ckpt_dir [0; 1; 2] ]>
              (<[ "optimizer"%string := ckpt_dir [0; 1; 2] ]>
               {[ "scheduler"%string := ckpt_dir [0; 1; 2] ]})) ]} in
  1 ≤ epochs_per_run w ≤ 100
  ∧ (modules_to_track w).*1 ≡ₚ fixed_names
  ∧ ∃ completed, is_run_completed ["run_00"%string] w = (Return completed, w).
Proof.
  intros w.
  assert (1 ≤ epochs_per_run w ≤ 100) as Hb by (simpl; lia).
  assert ((modules_to_track w).*1 ≡ₚ fixed_names) as Hnames by reflexivity.
  split; [exact Hb|]. split; [exact Hnames|].
  destruct (complete_iff_final_checkpoints w ["run_00"%string] Hb Hnames)
    as (completed & Hc & _).
  - intros c Hc. change ((modules_to_track w).*1) with fixed_names in Hc.
    unfold fixed_names in Hc.
    repeat (apply elem_of_cons in Hc as [->|Hc];
            [eexists; split; [vm_compute; reflexivity|];
             apply (within_budget_ckpts [0; 1; 2] 3); intros e He;
             repeat (apply elem_of_cons in He as [->|He]; [lia|]);
             by apply elem_of_nil in He|]).
    by apply elem_of_nil in Hc.
  - by exists completed.
Defined.

Lemma resume_loads_previous_epoch_witness :
  let w := lagging_world demo_modules in
  let w1 := snd (scan_experiment_dir w) in
  scan_experiment_dir w = (Return tt, w1)
  ∧ start_epoch w1 ≠ 0
  ∧ NoDup (modules_to_track w1).*1
  ∧ load_last_checkpoint w
    = (Return tt,
       set_modules [("model", 1); ("optimizer", 1); ("scheduler", 1)]%string w1).
Proof.
  intros w w1.
  assert (scan_experiment_dir w = (Return tt, w1)) as Hscan by (vm_compute; reflexivity).
  assert (start_epoch w1 ≠ 0) as Hne by (vm_compute; discriminate).
  assert (NoDup (modules_to_track w1).*1) as Hnd by by_compute.
  split; [exact Hscan|]. split; [exact Hne|]. split; [exact Hnd|].
  destruct (resume_loads_previous_epoch w w1 Hscan) as [_ Hload].
  destruct (Hload Hne Hnd) as [_ Hiff].
  apply Hiff. eexists. split; [|reflexivity].
  repeat (constructor; [split; [reflexivity|]; eexists; split; vm_compute; reflexivity|]).
  constructor.
Defined.

Lemma rescan_of_own_layout_raises_witness :
  let modules := [("model", 5)]%string in
  let w0 := fresh_world modules 3 in
  NoDup modules.*1
  ∧ (∃ c, c ∈ fixed_names ∧ c ∉ modules.*1)
  ∧ new_manager modules 3 true ∅ = (Return tt, w0)
  ∧ Fs.isdir (current_run_dir_path w0 ++ ["model"%string]) (disk w0) = true
  ∧ scan_experiment_dir w0 = (Raise NotADirectoryError, w0).
Proof.
  intros modules w0.
  assert (NoDup modules.*1) as Hnd by by_compute.
  assert (∃ c, c ∈ fixed_names ∧ c ∉ modules.*1) as Hmiss.
  { exists "scheduler"%string. split; by_compute. }
  assert (new_manager modules 3 true ∅ = (Return tt, w0)) as Hnew
    by (vm_compute; reflexivity).
  destruct (rescan_of_own_layout_raises modules 3 true w0 Hnd Hmiss Hnew) as [Hdirs Hscan].
  split; [exact Hnd|]. split; [exact Hmiss|]. split; [exact Hnew|].
  split; [apply Hdirs; by_compute|exact Hscan].
Defined.

Lemma resume_at_epoch_zero_raises_witness :
  let modules := [("model", 5)]%string in
  let w0 := fresh_world modules 3 in
  NoDup modules.*1
  ∧ components modules.*1
  ∧ (∃ c, c ∈ fixed_names ∧ c ∉ modules.*1)
  ∧ new_manager modules 3 true ∅ = (Return tt, w0)
  ∧ start_epoch w0 = 0
  ∧ load_last_checkpoint w0 = (Raise NotADirectoryError, w0).
Proof.
  intros modules w0.
  assert (NoDup modules.*1) as Hnd by by_compute.
  assert (components modules.*1) as Hcs by by_compute.
  assert (∃ c, c ∈ fixed_names ∧ c ∉ modules.*1) as Hmiss.
  { exists "scheduler"%string. split; by_compute. }
  assert (new_manager modules 3 true ∅ = (Return tt, w0)) as Hnew
    by (vm_compute; reflexivity).
  destruct (resume_at_epoch_zero_raises modules 3 true w0 Hnd Hcs Hmiss Hnew)
    as [He Hload].
  split; [exact Hnd|]. split; [exact Hcs|]. split; [exact Hmiss|].
  split; [exact Hnew|]. split; [exact He|exact Hload].
Defined.

(** ** Further evaluations *)

(** Rollover: under a budget of 3, three calls on a fresh run 0 leave the
    cursor at epoch 0 of [run_01], and the fourth call writes epoch 0 of
    run 1. *)
Example rollover_after_three_saves :
  let w3 := snd (save_times 3 (fresh_world demo_modules 3)) in
  let w4 := snd (save_times 4 (fresh_world demo_modules 3)) in
  (fst (save_times 4 (fresh_world demo_modules 3)),
   start_epoch w3, current_run_dir_path w3,
   start_epoch w4, current_run_dir_path w4,
   Fs.read ["run_00"; "optimizer"; "02.pth"]%string (disk w4),
   Fs.read ["run_01"; "model"; "00.pth"]%string (disk w4))
  = (Return tt, 0, ["run_01"%string], 1, ["run_01"%string], Return 6, Return 5).
Proof. vm_compute. reflexivity. Qed.

(** A save that fails half way leaves the file of the first object behind;
    the scan of that disk resumes from the epoch that failed. *)
Example failed_save_then_scan :
  let w1 := snd (save_checkpoint failing_hook_world) in
  (fst (save_checkpoint failing_hook_world),
   Fs.read ["run_00"; "model"; "00.pth"]%string (disk w1),
   Fs.read ["run_00"; "optimizer"; "00.pth"]%string (disk w1),
   fst (scan_experiment_dir w1), start_epoch (snd (scan_experiment_dir w1)))
  = (Raise HookError, Return 5, Raise FileNotFoundError, Return tt, 0).
Proof. vm_compute. reflexivity. Qed.

(** A file write that fails: the directory of [ema] is not in the run. *)
Example failed_write_keeps_cursor :
  let w : demo_world :=
    World (demo_modules ++ [("ema", 8)]%string) 3 true 1 ["run_00"%string]
      (disk (fresh_world demo_modules 3)) in
  let w1 := snd (save_checkpoint w) in
  (fst (save_checkpoint w), start_epoch w1, current_run_dir_path w1)
  = (Raise FileNotFoundError, 1, ["run_00"%string]).
Proof. vm_compute. reflexivity. Qed.

(** The greatest entry of the root is taken as the last run even when it is
    a regular file. *)
Example stray_file_is_last_run :
  (fst (get_number_of_runs (World demo_modules 3 true 0 [] stray_file_root)),
   fst (get_last_run_dir_path (World demo_modules 3 true 0 [] stray_file_root)),
   fst (scan_experiment_dir (World demo_modules 3 true 0 [] stray_file_root)))
  = (Return 2, Return ["zzz.txt"%string], Raise NotADirectoryError).
Proof. vm_compute. reflexivity. Qed.

(** A name that is no epoch stops the scan with [ValueError] before the
    later directories are looked at. *)
Example junk_name_raises_value_error :
  fst (scan_experiment_dir (World demo_modules 3 true 0 [] junk_name_root))
  = Raise ValueError.
Proof. vm_compute. reflexivity. Qed.

(** A tracked object with another name is not looked at: its directory may
    be missing, and its checkpoints do not count. *)
Example other_names_are_ignored :
  let w : demo_world :=
    World (demo_modules ++ [("ema", 8)]%string) 3 true 0 [] lagging_root3 in
  (Fs.isdir ["run_00"; "ema"]%string (disk w),
   fst (scan_experiment_dir w), start_epoch (snd (scan_experiment_dir w)))
  = (false, Return tt, 2).
Proof. vm_compute. reflexivity. Qed.

(** The run that 101 calls of [save_checkpoint] write under a budget of 101
    is itself reported incomplete. *)
Example manager_written_long_run :
  let w := snd (save_times 101 (fresh_world demo_modules 101)) in
  (fst (save_times 101 (fresh_world demo_modules 101)),
   current_run_dir_path w,
   Fs.read ["run_00"; "model"; "100.pth"]%string (disk w),
   fst (is_run_completed ["run_00"%string] w))
  = (Return tt, ["run_01"%string], Return 5, Return false).
Proof. vm_compute. reflexivity. Qed.

(** * Further properties of the code *)

(** ** Names of runs and of checkpoints *)

Lemma sorts_like_numbers_spec (name : Z → string) (bound a b : Z) :
  sorts_like_numbers name bound = true →
  0 ≤ a < bound → 0 ≤ b < bound →
  String.le (name a) (name b) ↔ a ≤ b.
Proof.
  intros Hall Ha Hb. unfold sorts_like_numbers in Hall.
  rewrite forallb_forall in Hall.
  specialize (Hall a). rewrite forallb_forall in Hall.
  assert (Bool.eqb (String.leb (name a) (name b)) (a <=? b) = true) as Heq.
  { apply Hall; apply list_elem_of_In, elem_of_seqZ; lia. }
  apply eqb_prop in Heq. unfold String.le. rewrite Heq.
  rewrite Is_true_true. apply Z.leb_le.
Qed.

Lemma run_name_le a b :
  0 ≤ a < 100 → 0 ≤ b < 100 → String.le (run_name a) (run_name b) ↔ a ≤ b.
Proof. apply sorts_like_numbers_spec. vm_compute. reflexivity. Qed.

Lemma ckpt_name_le_iff a b :
  0 ≤ a < 100 → 0 ≤ b < 100 → String.le (ckpt_name a) (ckpt_name b) ↔ a ≤ b.
Proof. apply sorts_like_numbers_spec. vm_compute. reflexivity. Qed.

Lemma ckpt_name_inj a b : ckpt_name a = ckpt_name b → a = b.
Proof.
  intros Heq.
  assert (Some a = Some b) as Hab; [|by injection Hab].
  rewrite <- (checkpoint_name_epoch a), <- (checkpoint_name_epoch b).
  unfold ckpt_name in Heq. by rewrite Heq.
Qed.

Lemma run_name_inj a b : run_name a = run_name b → a = b.
Proof.
  intros Heq.
  assert (Some a = Some b) as Hab; [|by injection Hab].
  rewrite <- (run_name_index a), <- (run_name_index b).
  unfold run_name in Heq. by rewrite Heq.
Qed.

(** X1.  For indices and epochs from 0 to 99, the names [run_NN] and
    [NN.pth] that the manager builds sort, as strings, exactly like the
    numbers: this is what lets [sorted(...)[-1]] find the latest run and the
    latest checkpoint. *)
Theorem names_sort_like_numbers a b :
  0 ≤ a < 100 → 0 ≤ b < 100 →
  (String.le ("run_" +:+ PyStr.format_02d a) ("run_" +:+ PyStr.format_02d b) ↔ a ≤ b)
  ∧ (String.le (PyStr.format_02d a +:+ ".pth") (PyStr.format_02d b +:+ ".pth") ↔ a ≤ b).
Proof.
  intros Ha Hb. split; [by apply run_name_le|by apply ckpt_name_le_iff].
Qed.

Lemma names_sort_like_numbers_witness :
  0 ≤ 9 < 100 ∧ 0 ≤ 10 < 100
  ∧ (String.le ("run_" +:+ PyStr.format_02d 9) ("run_" +:+ PyStr.format_02d 10) ↔ 9 ≤ 10).
Proof.
  assert (0 ≤ 9 < 100) as Ha by lia. assert (0 ≤ 10 < 100) as Hb by lia.
  split; [exact Ha|]. split; [exact Hb|].
  exact (proj1 (names_sort_like_numbers 9 10 Ha Hb)).
Defined.

(** ** Directories under a write *)

Section WritingDirs.
Context {B : Type}.
Implicit Types (d : tree B) (p q cur : path).

(** A write that returns has put the file into the directory that holds
    it, which was there, and the name was not that of a directory. *)
Lemma write_parent cur n f x d d' :
  Fs.write (cur ++ [n; f]) x d = Return d' →
  ∃ es, Fs.resolve (cur ++ [n]) d = Some (Dir es)
        ∧ Fs.resolve (cur ++ [n]) d' = Some (Dir (<[f := File x]> es))
        ∧ ∀ y, es !! f ≠ Some (Dir y).
Proof.
  revert d d'. induction cur as [|c cur IH]; intros d d' Hw.
  - simpl app in *. rewrite write_cons2 in Hw. rewrite !resolve_cons.
    destruct (d !! n) as [[y|es]|] eqn:Hn; try done.
    destruct (Fs.write [f] x es) as [es'|] eqn:Hf; [|done].
    injection Hw as <-. exists es. rewrite lookup_insert_eq. simpl.
    simpl in Hf. destruct (es !! f) as [[z|z]|] eqn:Hz; simplify_eq; by repeat split.
  - assert (∃ c' r, cur ++ [n; f] = c' :: r) as (c' & r & Hr).
    { destruct cur; simpl; eauto. }
    rewrite <- !app_comm_cons in *. rewrite Hr, write_cons2 in Hw.
    rewrite !resolve_cons.
    destruct (d !! c) as [[y|dc]|] eqn:Hc; try done.
    destruct (Fs.write (c' :: r) x dc) as [dc'|] eqn:E; [|done].
    injection Hw as <-. rewrite lookup_insert_eq. rewrite <- Hr in E.
    by apply IH.
Qed.

(** A write into a directory that is there, under a name that is not a
    directory, returns. *)
Lemma write_returns cur n f x d es :
  Fs.resolve (cur ++ [n]) d = Some (Dir es) →
  (∀ y, es !! f ≠ Some (Dir y)) →
  ∃ d', Fs.write (cur ++ [n; f]) x d = Return d'.
Proof.
  revert d. induction cur as [|c cur IH]; intros d Hdir Hf.
  - simpl app in *. rewrite write_cons2. rewrite resolve_cons in Hdir.
    destruct (d !! n) as [[y|dn]|] eqn:Hn; try done.
    simpl in Hdir. injection Hdir as ->. simpl.
    destruct (es !! f) as [[z|z]|] eqn:Hz; eauto. by destruct (Hf z).
  - assert (∃ c' r, cur ++ [n; f] = c' :: r) as (c' & r & Hr).
    { destruct cur; simpl; eauto. }
    rewrite <- !app_comm_cons in *. rewrite Hr, write_cons2.
    rewrite resolve_cons in Hdir.
    destruct (d !! c) as [[y|dc]|] eqn:Hc; try done.
    + by destruct (cur ++ [n]).
    + destruct (IH dc Hdir Hf) as [dc' Hw]. rewrite <- Hr, Hw. eauto.
Qed.

(** A write below one entry of the root leaves the other entries alone. *)
Lemma write_root_other a c p x d d' n :
  Fs.write (a :: c :: p) x d = Return d' → n ≠ a → d' !! n = d !! n.
Proof.
  rewrite write_cons2. intros Hw Hne.
  destruct (d !! a) as [[y|es]|]; try done.
  destruct (Fs.write (c :: p) x es) as [es'|]; [|done].
  injection Hw as <-. by rewrite lookup_insert_ne.
Qed.

End WritingDirs.

(** ** What a save leaves on the disk *)

Section SavedFiles.
Context {Mod StateDict : Type} `{Trackable Mod StateDict}.
Implicit Types (w : world (Mod:=Mod) (StateDict:=StateDict)) (d : tree StateDict).
Local Abbreviation empty_dirs := (empty_dirs (StateDict:=StateDict)).

(** When the loop returns, the directory of every tracked object is what
    it was, with the file of the epoch put into it. *)
Lemma save_loop_dir ms w w1 :
  NoDup ms.*1 →
  for_each ms save_body w = (Return tt, w1) →
  ∀ n m, (n, m) ∈ ms →
    ∃ b es, state_dict m = Return b
      ∧ Fs.resolve (current_run_dir_path w ++ [n]) (disk w) = Some (Dir es)
      ∧ Fs.resolve (current_run_dir_path w ++ [n]) (disk w1)
        = Some (Dir (<[ckpt_name (start_epoch w) := File b]> es)).
Proof.
  revert w. induction ms as [|[n0 m0] ms IH]; intros w Hnd Hloop n m Hin.
  - by apply elem_of_nil in Hin.
  - simpl in Hnd. apply NoDup_cons in Hnd as [Hn0 Hnd].
    cbn [for_each] in Hloop. unfold bind in Hloop. rewrite save_body_eq in Hloop.
    destruct (state_dict m0) as [b0|e] eqn:Hsd; [|done].
    destruct (Fs.write (ckpt_path w n0 (start_epoch w)) b0 (disk w)) as [d'|e] eqn:Hw;
      [|done].
    apply elem_of_cons in Hin as [Heq|Hin].
    + injection Heq as -> ->. exists b0.
      destruct (write_parent _ _ _ _ _ _ Hw) as (es & Hbefore & Hafter & _).
      exists es. split; [done|]. split; [done|].
      apply save_loop_frame in Hloop as (d1 & -> & _ & Hframe).
      cbn [disk set_disk current_run_dir_path] in Hframe |- *.
      by rewrite Hframe.
    + destruct (IH (set_disk d' w) Hnd Hloop n m Hin) as (b & es & Hb & Hbefore & Hafter).
      exists b, es. split; [done|]. split; [|done].
      cbn [disk set_disk current_run_dir_path] in Hbefore.
      rewrite <- Hbefore. symmetry.
      eapply write_sibling; [exact Hw|].
      intros ->. apply Hn0. apply list_elem_of_fmap. by exists (n, m).
Qed.

(** The loop writes below the entry of the current run only. *)
Lemma save_loop_root ms w o w1 r rest n :
  current_run_dir_path w = r :: rest →
  for_each ms save_body w = (o, w1) →
  n ≠ r → disk w1 !! n = disk w !! n.
Proof.
  intros Hcur. revert w Hcur. induction ms as [|[n0 m0] ms IH]; intros w Hcur Hloop Hne.
  - simpl in Hloop. unfold ret in Hloop. by injection Hloop as _ <-.
  - cbn [for_each] in Hloop. unfold bind in Hloop. rewrite save_body_eq in Hloop.
    destruct (state_dict m0) as [b0|e]; [|by injection Hloop as _ <-].
    destruct (Fs.write (ckpt_path w n0 (start_epoch w)) b0 (disk w)) as [d'|e] eqn:Hw;
      [|by injection Hloop as _ <-].
    rewrite (IH (set_disk d' w) Hcur Hloop Hne). cbn [disk set_disk].
    unfold ckpt_path in Hw. rewrite Hcur in Hw.
    destruct rest as [|c rest]; simpl app in Hw;
      eapply write_root_other; [exact Hw|exact Hne| exact Hw|exact Hne].
Qed.

(** X2.  The paths of the checkpoints are distinct: within a run, for
    names that are single path components and epochs that [f'{epoch:02d}']
    formats, two paths built by [get_checkpoint_module_path] are equal only
    for the same name and the same epoch, negative epochs and epochs above
    99 included.  No two epochs and no two tracked objects share a file. *)
Theorem checkpoint_paths_distinct w n e n' e' :
  is_component n = true → is_component n' = true →
  Z.abs e < str_digits_limit → Z.abs e' < str_digits_limit →
  fst (get_checkpoint_module_path n e w) = fst (get_checkpoint_module_path n' e' w) →
  n = n' ∧ e = e'.
Proof.
  intros _ _ _ _.
  unfold get_checkpoint_module_path, bind, get, ret. cbn [fst].
  intros Heq. injection Heq as Heq. apply app_inv_head in Heq.
  injection Heq as -> Hf. split; [done|]. by apply ckpt_name_inj.
Qed.

(** X3.  Whatever the integer [index], for tracked names that are
    distinct single path components, a [make_run_dir(index)] that returns
    leaves the cursor at epoch 0 of a directory from whose name
    [get_run_index_from_path] reads [index] back; that directory is in the
    experiment directory and holds an empty directory for every tracked
    name. *)
Theorem run_index_round_trip index w w' :
  NoDup (modules_to_track w).*1 →
  components (modules_to_track w).*1 →
  make_run_dir index w = (Return tt, w') →
  start_epoch w' = 0
  ∧ get_run_index_from_path (current_run_dir_path w') w' = (Return index, w')
  ∧ Fs.isdir (current_run_dir_path w') (disk w') = true
  ∧ ∀ n, n ∈ (modules_to_track w).*1 →
      Fs.listdir (current_run_dir_path w' ++ [n]) (disk w') = Return [].
Proof.
  intros Hnd _ Hmk.
  destruct (disk w !! run_name index) as [x|] eqn:Hfree.
  { rewrite make_run_dir_taken in Hmk; [done|by rewrite Hfree]. }
  rewrite make_run_dir_fresh in Hmk by done. injection Hmk as <-.
  cbn [start_epoch current_run_dir_path disk set_current_run_dir_path
       set_start_epoch set_disk].
  split; [done|]. split.
  { rewrite get_run_index_from_path_eq. by rewrite run_index_run_name. }
  split.
  { unfold Fs.isdir. by rewrite resolve_cons, lookup_insert_eq. }
  intros n Hn. unfold Fs.listdir.
  change ([run_name index] ++ [n]) with [run_name index; n].
  rewrite resolve_cons, lookup_insert_eq, resolve_cons, empty_dirs_lookup.
  rewrite decide_True by done. simpl. by rewrite map_to_list_empty.
Qed.

(** X4.  What [save_checkpoint] writes, the scan reads back: after a call
    that returns, [_get_last_epoch_index] on the directory of a tracked
    object that was empty before gives the epoch that was saved, for every
    integer epoch. *)
Theorem saved_epoch_is_read_back w w' n m :
  NoDup (modules_to_track w).*1 →
  (n, m) ∈ modules_to_track w →
  Fs.resolve (current_run_dir_path w ++ [n]) (disk w) = Some (Dir ∅) →
  save_checkpoint w = (Return tt, w') →
  _get_last_epoch_index (current_run_dir_path w ++ [n]) w'
  = (Return (start_epoch w), w').
Proof.
  intros Hnd Hin Hempty Hsave.
  destruct (save_checkpoint_ok w w' Hnd Hsave) as (d1 & Hloop & Hdom & Hcur).
  rewrite save_modules_loop in Hloop.
  destruct (save_loop_dir _ _ _ Hnd Hloop n m Hin) as (b & es & Hb & Hbefore & Hafter).
  rewrite Hempty in Hbefore. injection Hbefore as <-.
  cbn [disk set_disk] in Hafter.
  assert (Fs.resolve (current_run_dir_path w ++ [n]) (disk w')
          = Some (Dir (<[ckpt_name (start_epoch w) := File b]> ∅))) as Hdir.
  { destruct (decide (start_epoch w + 1 = epochs_per_run w)).
    - destruct Hcur as (i & _ & Hfree & ->).
      cbn [disk set_disk set_start_epoch set_current_run_dir_path].
      apply resolve_insert_fresh; [done| |done].
      by destruct (current_run_dir_path w).
    - by subst w'. }
  rewrite _get_last_epoch_index_reads. f_equal.
  rewrite (last_index_nonempty _ _ _ Hdir); [|apply insert_non_empty].
  rewrite insert_empty, last_entry_singleton.
  unfold ckpt_name. by rewrite checkpoint_name_epoch.
Qed.

End SavedFiles.

(** ** What the scan and a save leave alone *)

Section Frames.
Context {Mod StateDict : Type} `{Trackable Mod StateDict}.
Implicit Types (w : world (Mod:=Mod) (StateDict:=StateDict)) (d : tree StateDict).
Local Abbreviation empty_dirs := (empty_dirs (StateDict:=StateDict)).

(** X5.  With tracked names that are distinct single path components,
    the scan never removes or changes an entry of the experiment
    directory.  Either it leaves the disk as it is, or it returns after
    adding exactly one run directory, under a name that was free, with one
    empty directory per tracked name and the cursor at its epoch 0.  A scan
    that raises changes nothing at all. *)
Theorem scan_adds_at_most_one_run w o w' :
  NoDup (modules_to_track w).*1 →
  components (modules_to_track w).*1 →
  scan_experiment_dir w = (o, w') →
  modules_to_track w' = modules_to_track w
  ∧ epochs_per_run w' = epochs_per_run w
  ∧ (o ≠ Return tt → w' = w)
  ∧ (disk w' = disk w
     ∨ o = Return tt
       ∧ start_epoch w' = 0
       ∧ ∃ i, disk w !! run_name i = None
              ∧ current_run_dir_path w' = [run_name i]
              ∧ disk w' = <[run_name i := Dir (empty_dirs (modules_to_track w).*1)]> (disk w)).
Proof.
  intros Hnd _.
  assert (∀ i, make_run_dir i w = (o, w') →
    modules_to_track w' = modules_to_track w
    ∧ epochs_per_run w' = epochs_per_run w
    ∧ (o ≠ Return tt → w' = w)
    ∧ (disk w' = disk w
       ∨ o = Return tt
         ∧ start_epoch w' = 0
         ∧ ∃ i, disk w !! run_name i = None
                ∧ current_run_dir_path w' = [run_name i]
                ∧ disk w' = <[run_name i := Dir (empty_dirs (modules_to_track w).*1)]> (disk w)))
    as Hmk.
  { intros i Hi. destruct (disk w !! run_name i) as [x|] eqn:Hfree.
    - rewrite make_run_dir_taken in Hi by (by rewrite Hfree).
      injection Hi as <- <-. repeat split; auto.
    - rewrite make_run_dir_fresh in Hi by done. injection Hi as <- <-.
      cbn. repeat split; [done|]. right. repeat split. by exists i. }
  destruct (decide (disk w = ∅)) as [Hempty|Hne].
  - rewrite scan_empty by done. apply Hmk.
  - rewrite scan_nonempty_reads by done.
    destruct (min_last_index [last_entry (disk w)] (disk w)) as [e|x].
    2:{ intros Hs. injection Hs as <- <-. repeat split; auto. }
    destruct (e =? epochs_per_run w - 1).
    + unfold bind. rewrite get_run_index_from_path_eq.
      destruct (run_index [last_entry (disk w)]) as [i|]; [apply Hmk|].
      intros Hs. injection Hs as <- <-. repeat split; auto.
    + intros Hs. injection Hs as <- <-. cbn. repeat split; auto. done.
Qed.

(** X6.  With tracked names that are distinct single path components,
    and a current run that is an entry of the experiment directory,
    [save_checkpoint] writes below the current run only: every other entry of the experiment directory is what it was, whether the
    call returns or raises, except that a call that rolls over adds the new
    run under a name that was free. *)
Theorem save_touches_current_run_only w o w' r rest n :
  NoDup (modules_to_track w).*1 →
  components (modules_to_track w).*1 →
  components (r :: rest) →
  current_run_dir_path w = r :: rest →
  save_checkpoint w = (o, w') →
  n ≠ r →
  disk w' !! n = disk w !! n
  ∨ o = Return tt ∧ disk w !! n = None ∧ current_run_dir_path w' = [n].
Proof.
  intros Hnd _ _ Hcur Hsave Hne. rewrite save_checkpoint_eq in Hsave.
  destruct (save_modules w) as [o1 w1] eqn:Hloop.
  rewrite save_modules_loop in Hloop.
  pose proof (save_loop_root _ _ _ _ _ _ n Hcur Hloop Hne) as Hother.
  apply save_loop_frame in Hloop as (d1 & -> & Hdom & _).
  cbn [disk set_disk] in Hother.
  destruct o1 as [[]|e]; [|injection Hsave as <- <-; by left].
  cbn [start_epoch set_disk epochs_per_run current_run_dir_path] in Hsave.
  destruct (start_epoch w + 1 =? epochs_per_run w);
    [|injection Hsave as <- <-; by left].
  destruct (run_index (current_run_dir_path w)) as [i|];
    [|injection Hsave as <- <-; by left].
  destruct (d1 !! run_name (i + 1)) as [x|] eqn:Hfree.
  - rewrite make_run_dir_taken in Hsave by (cbn; by rewrite Hfree).
    injection Hsave as <- <-. by left.
  - rewrite make_run_dir_fresh in Hsave by done. injection Hsave as <- <-.
    cbn [disk set_disk set_start_epoch set_current_run_dir_path current_run_dir_path].
    destruct (decide (n = run_name (i + 1))) as [->|Hn].
    + right. split; [done|]. split; [|done]. by rewrite <- Hother.
    + left. by rewrite lookup_insert_ne.
Qed.

(** X7.  A rollover that cannot be made is reported after the cursor has
    moved.  When every file of the last epoch of the budget is written but
    the name of the current run holds no index, or the directory of the next
    run is already there, [save_checkpoint] raises [ValueError] or
    [FileExistsError] and leaves the epoch equal to the budget, on the same
    run, with the files written. *)
Theorem blocked_rollover_advances_epoch w w1 :
  save_modules w = (Return tt, w1) →
  start_epoch w + 1 = epochs_per_run w →
  (run_index (current_run_dir_path w) = None
   ∨ ∃ i, run_index (current_run_dir_path w) = Some i
          ∧ disk w !! run_name (i + 1) ≠ None) →
  ∃ e, (e = ValueError ∨ e = FileExistsError)
       ∧ save_checkpoint w = (Raise e, set_start_epoch (epochs_per_run w) w1)
       ∧ current_run_dir_path w1 = current_run_dir_path w.
Proof.
  intros Hloop Hlast Hblocked. rewrite save_checkpoint_eq, Hloop.
  rewrite save_modules_loop in Hloop.
  apply save_loop_frame in Hloop as (d1 & -> & Hdom & _).
  cbn [start_epoch set_disk epochs_per_run current_run_dir_path].
  rewrite (proj2 (Z.eqb_eq _ _) Hlast), Hlast.
  destruct Hblocked as [->|(i & -> & Htaken)].
  - exists ValueError. split; [by left|]. by split.
  - exists FileExistsError. split; [by right|]. split; [|done].
    apply make_run_dir_taken. cbn [disk set_disk set_start_epoch].
    intros Hnone. apply Htaken.
    apply not_elem_of_dom. rewrite <- Hdom. by apply not_elem_of_dom.
Qed.

End Frames.

(** ** A load that fails *)

Section PartialLoad.
Context {Mod StateDict : Type} `{Trackable Mod StateDict}.
Implicit Types (w : world (Mod:=Mod) (StateDict:=StateDict)) (d : tree StateDict).

(** The loop of [load_last_checkpoint] over a part of the dictionary. *)
Lemma load_loop_part todo : ∀ pre post todo' w,
  modules_to_track w = pre ++ todo ++ post →
  NoDup (pre ++ todo ++ post).*1 →
  Forall2 (loaded_from w) todo todo' →
  for_each todo load_body w = (Return tt, set_modules (pre ++ todo' ++ post) w).
Proof.
  induction todo as [|[n m] todo IH]; intros pre post todo' w Hms Hnd Hall.
  - apply Forall2_nil_inv_l in Hall as ->. simpl in *. unfold ret.
    rewrite <- Hms. by destruct w.
  - apply Forall2_cons_inv_l in Hall
      as ([n' m'] & todo'' & [Hn (blob & Hfile & Hload)] & Hall & ->).
    simpl in Hn, Hfile, Hload. subst n'.
    assert (n ∉ pre.*1) as Hfresh.
    { rewrite fmap_app in Hnd. apply NoDup_app in Hnd as (_ & Hdisj & _).
      intros Hin. apply (Hdisj n Hin). simpl. set_solver. }
    cbn [for_each]. unfold bind. rewrite load_body_eq, Hfile, Hload.
    rewrite Hms. change (((n, m) :: todo) ++ post) with ((n, m) :: (todo ++ post)).
    rewrite replace_module_middle by done.
    rewrite (IH (pre ++ [(n, m')]) post todo'').
    + cbn. by rewrite <- !app_assoc.
    + cbn. by rewrite <- app_assoc.
    + rewrite <- app_assoc. rewrite !fmap_app in *. exact Hnd.
    + exact Hall.
Qed.

(** X8.  [load_last_checkpoint] is not atomic.  When the objects before
    one tracked object load their checkpoint and that object cannot (its
    file cannot be read, or its [load_state_dict] hook raises), the call
    raises that exception and leaves the earlier objects loaded, the failing
    one and the later ones untouched, the cursor and the disk as the scan
    left them. *)
Theorem failed_load_keeps_earlier_loads w w1 pre pre' n m post x :
  scan_experiment_dir w = (Return tt, w1) →
  start_epoch w1 ≠ 0 →
  NoDup (modules_to_track w1).*1 →
  modules_to_track w1 = pre ++ (n, m) :: post →
  Forall2 (loaded_from w1) pre pre' →
  (Fs.read (ckpt_path w1 n (start_epoch w1 - 1)) (disk w1) = Raise x
   ∨ ∃ blob, Fs.read (ckpt_path w1 n (start_epoch w1 - 1)) (disk w1) = Return blob
             ∧ load_state_dict m blob = Raise x) →
  load_last_checkpoint w = (Raise x, set_modules (pre' ++ (n, m) :: post) w1).
Proof.
  intros Hscan Hne Hnd Hms Hpre Hfail.
  rewrite load_last_checkpoint_eq, Hscan, (proj2 (Z.eqb_neq _ _) Hne).
  apply for_each_raises.
  exists pre, (n, m), post, (set_modules (pre' ++ (n, m) :: post) w1).
  split; [done|]. split.
  - apply (load_loop_part pre [] ((n, m) :: post) pre' w1); [done| |done].
    simpl. by rewrite <- Hms.
  - rewrite load_body_eq.
    change (ckpt_path (set_modules (pre' ++ (n, m) :: post) w1) n
              (start_epoch (set_modules (pre' ++ (n, m) :: post) w1) - 1))
      with (ckpt_path w1 n (start_epoch w1 - 1)).
    cbn [disk set_modules]. unfold Fs.read in Hfail.
    destruct (Fs.resolve (ckpt_path w1 n (start_epoch w1 - 1)) (disk w1))
      as [[blob|es]|].
    + destruct Hfail as [Hr|(b & Hr & Hl)]; [done|].
      injection Hr as <-. by rewrite Hl.
    + destruct Hfail as [Hr|(b & Hr & _)]; [|done]. by injection Hr as <-.
    + destruct Hfail as [Hr|(b & Hr & _)]; [|done]. by injection Hr as <-.
Qed.

End PartialLoad.

(** ** A manager in step with its disk *)

Section InStep.
Context {Mod StateDict : Type} `{Trackable Mod StateDict}.
Implicit Types (w : world (Mod:=Mod) (StateDict:=StateDict)) (d : tree StateDict).
Local Abbreviation empty_dirs := (empty_dirs (StateDict:=StateDict)).

Lemma fixed_names_NoDup : NoDup fixed_names.
Proof. by_compute. Qed.

Lemma epochs_dir_empty : epochs_dir 0 (∅ : tree StateDict).
Proof.
  split.
  - intros name. rewrite lookup_empty. split; [by intros [? ?]|].
    intros (k & Hk & _). lia.
  - intros name x. by rewrite lookup_empty.
Qed.

(** The last epoch of a directory that holds the epochs below [h]. *)
Lemma last_index_epochs_dir p d es h :
  Fs.resolve p d = Some (Dir es) → epochs_dir h es → 0 ≤ h ≤ 100 →
  last_index p d = Return (h - 1).
Proof.
  intros Hdir [Hnames _] Hh. destruct (decide (h = 0)) as [->|Hpos].
  - assert (es = ∅) as ->; [|by apply last_index_empty].
    apply map_empty. intros name. apply eq_None_not_Some.
    rewrite Hnames. intros (k & Hk & _). lia.
  - destruct (last_index_within_budget h p d es) as (hi & Hhi & _ & Hiff);
      [lia|done| |].
    { intros name Hname. by apply Hnames. }
    rewrite Hhi. f_equal. apply Hiff, Hnames. exists (h - 1). split; [lia|done].
Qed.

(** Putting the file of epoch [e] into a directory that holds the epochs
    below [e], or below [e + 1]. *)
Lemma epochs_dir_insert h e b (es : tree StateDict) :
  epochs_dir h es → h = e ∨ h = e + 1 → 0 ≤ e →
  epochs_dir (e + 1) (<[ckpt_name e := File b]> es).
Proof.
  intros [Hnames Hfiles] Hh He. split.
  - intros name. rewrite lookup_insert_is_Some, Hnames. split.
    + intros [<-|[_ (k & Hk & ->)]]; [exists e; split; [lia|done]|].
      exists k. split; [lia|done].
    + intros (k & Hk & ->).
      destruct (decide (k = e)) as [->|Hne]; [by left|].
      right. split; [intros Heq; by apply ckpt_name_inj in Heq|].
      exists k. split; [lia|done].
  - intros name x. rewrite lookup_insert_Some.
    intros [[_ <-]|[_ Hx]]; [by exists b|by eapply Hfiles].
Qed.

Lemma in_step_NoDup w : in_step w → NoDup (modules_to_track w).*1.
Proof.
  intros (i & done & todo & _ & _ & _ & Hperm & _).
  rewrite Hperm. apply fixed_names_NoDup.
Qed.

(** The last entry of the experiment directory is the current run. *)
Lemma in_step_last_entry w i :
  0 ≤ i < 100 →
  (∀ n, is_Some (disk w !! n) ↔ ∃ j, 0 ≤ j ≤ i ∧ n = run_name j) →
  disk w ≠ ∅ ∧ last_entry (disk w) = run_name i.
Proof.
  intros Hi Hroot.
  assert (is_Some (disk w !! run_name i)) as Hcur.
  { apply Hroot. exists i. split; [lia|done]. }
  assert (disk w ≠ ∅) as Hne.
  { intros Hempty. rewrite Hempty, lookup_empty in Hcur. by destruct Hcur. }
  split; [done|].
  destruct (last_entry_greatest (disk w) Hne) as [Hin Hmax].
  apply Hroot in Hin as (j & Hj & Hlast).
  specialize (Hmax _ Hcur). rewrite Hlast in Hmax |- *.
  apply run_name_le in Hmax; [|lia..].
  f_equal. lia.
Qed.

(** The three directories of the current run give the epoch before the
    cursor. *)
Lemma in_step_min_last_index w i done todo :
  (modules_to_track w).*1 ≡ₚ fixed_names →
  0 ≤ start_epoch w → start_epoch w + 1 ≤ 100 →
  (modules_to_track w).*1 = done ++ todo → todo ≠ [] →
  (∀ c, c ∈ done →
     ∃ es, Fs.resolve [run_name i; c] (disk w) = Some (Dir es)
           ∧ epochs_dir (start_epoch w + 1) es) →
  (∀ c, c ∈ todo →
     ∃ es, Fs.resolve [run_name i; c] (disk w) = Some (Dir es)
           ∧ epochs_dir (start_epoch w) es) →
  min_last_index [run_name i] (disk w) = Return (start_epoch w - 1).
Proof.
  intros Hperm He0 He1 Hsplit Htodo Hdone Hrest.
  assert (∀ c, c ∈ fixed_names →
    (c ∈ todo ∧ last_index [run_name i; c] (disk w) = Return (start_epoch w - 1))
    ∨ last_index [run_name i; c] (disk w) = Return (start_epoch w)) as Hlevel.
  { intros c Hc. rewrite <- Hperm, Hsplit in Hc.
    apply elem_of_app in Hc as [Hc|Hc].
    - right. destruct (Hdone c Hc) as (es & Hdir & Hes).
      rewrite (last_index_epochs_dir _ _ es (start_epoch w + 1)); [|done|done|lia].
      f_equal. lia.
    - left. split; [done|]. destruct (Hrest c Hc) as (es & Hdir & Hes).
      by rewrite (last_index_epochs_dir _ _ es (start_epoch w)); [|done|done|lia]. }
  assert (∃ c, c ∈ fixed_names ∧ c ∈ todo) as (c0 & Hc0 & Hc0todo).
  { destruct todo as [|c0 todo]; [done|]. exists c0.
    split; [|set_solver]. rewrite <- Hperm, Hsplit. set_solver. }
  assert (last_index [run_name i; c0] (disk w) = Return (start_epoch w - 1)) as Hlow.
  { destruct (Hrest c0 Hc0todo) as (es & Hdir & Hes).
    by rewrite (last_index_epochs_dir _ _ es (start_epoch w)); [|done|done|lia]. }
  unfold min_last_index.
  change ([run_name i] ++ ["model"%string]) with [run_name i; "model"%string].
  change ([run_name i] ++ ["optimizer"%string]) with [run_name i; "optimizer"%string].
  change ([run_name i] ++ ["scheduler"%string]) with [run_name i; "scheduler"%string].
  assert ("model"%string ∈ fixed_names) as Hmin by (unfold fixed_names; set_solver).
  assert ("optimizer"%string ∈ fixed_names) as Hoin by (unfold fixed_names; set_solver).
  assert ("scheduler"%string ∈ fixed_names) as Hsin by (unfold fixed_names; set_solver).
  destruct (Hlevel _ Hmin) as [[_ Hm]|Hm];
    destruct (Hlevel _ Hoin) as [[_ Ho]|Ho];
    destruct (Hlevel _ Hsin) as [[_ Hs]|Hs];
    rewrite Hm, Ho, Hs; cbn [out_bind]; try (f_equal; lia).
  exfalso. unfold fixed_names in Hc0.
  repeat (apply elem_of_cons in Hc0 as [->|Hc0];
          [first [rewrite Hm in Hlow|rewrite Ho in Hlow|rewrite Hs in Hlow];
           injection Hlow; lia|]).
  by apply elem_of_nil in Hc0.
Qed.

(** Scanning again, a manager in step finds the cursor it has. *)
Lemma in_step_rescan w : in_step w → scan_experiment_dir w = (Return tt, w).
Proof.
  intros (i & done & todo & Hi & Hcur & Hroot & Hperm & He & Hb & Hsplit & Htodo
          & Hdone & Hrest).
  destruct (in_step_last_entry w i Hi Hroot) as [Hne Hlast].
  rewrite scan_nonempty_reads by done. rewrite Hlast.
  rewrite (in_step_min_last_index w i done todo); try done; [|lia..].
  assert ((start_epoch w - 1 =? epochs_per_run w - 1) = false) as ->
    by (apply Z.eqb_neq; lia).
  f_equal. clear -Hcur. destruct w as [ms B v e cur d]. simpl in Hcur. subst cur.
  unfold set_start_epoch, set_current_run_dir_path. simpl. f_equal. lia.
Qed.

(** The loop of [save_checkpoint], whatever its outcome: it wrote the
    file of the epoch for the objects of a prefix [wr] of the dictionary, the
    whole of it when it returns, and changed nothing else. *)
Lemma save_loop_prefix ms w o w1 :
  NoDup ms.*1 →
  for_each ms save_body w = (o, w1) →
  ∃ d1 wr rest,
    w1 = set_disk d1 w
    ∧ dom d1 = dom (disk w)
    ∧ ms.*1 = wr ++ rest
    ∧ (o = Return tt → rest = [])
    ∧ (o ≠ Return tt → rest ≠ [])
    ∧ (∀ c, c ∈ wr →
         ∃ b es,
           Fs.resolve (current_run_dir_path w ++ [c]) (disk w) = Some (Dir es)
           ∧ Fs.resolve (current_run_dir_path w ++ [c]) d1
             = Some (Dir (<[ckpt_name (start_epoch w) := File b]> es)))
    ∧ (∀ c q, c ∉ wr →
         Fs.resolve (current_run_dir_path w ++ c :: q) d1
         = Fs.resolve (current_run_dir_path w ++ c :: q) (disk w)).
Proof.
  revert w. induction ms as [|[n m] ms IH]; intros w Hnd Hloop.
  - simpl in Hloop. unfold ret in Hloop. injection Hloop as <- <-.
    exists (disk w), [], []. rewrite set_disk_same.
    repeat split; try done. intros c Hc. by apply elem_of_nil in Hc.
  - rewrite fmap_cons in Hnd. apply NoDup_cons in Hnd as [Hn Hnd].
    assert (∀ x, (Raise x, w) = (o, w1) →
      ∃ d1 wr rest,
        w1 = set_disk d1 w ∧ dom d1 = dom (disk w)
        ∧ ((n, m) :: ms).*1 = wr ++ rest
        ∧ (o = Return tt → rest = []) ∧ (o ≠ Return tt → rest ≠ [])
        ∧ (∀ c, c ∈ wr →
             ∃ b es,
               Fs.resolve (current_run_dir_path w ++ [c]) (disk w) = Some (Dir es)
               ∧ Fs.resolve (current_run_dir_path w ++ [c]) d1
                 = Some (Dir (<[ckpt_name (start_epoch w) := File b]> es)))
        ∧ (∀ c q, c ∉ wr →
             Fs.resolve (current_run_dir_path w ++ c :: q) d1
             = Fs.resolve (current_run_dir_path w ++ c :: q) (disk w))) as Hfail.
    { intros x Hx. injection Hx as <- <-.
      exists (disk w), [], (((n, m) :: ms).*1). rewrite set_disk_same.
      repeat split; try done. intros c Hc. by apply elem_of_nil in Hc. }
    cbn [for_each] in Hloop. unfold bind in Hloop. rewrite save_body_eq in Hloop.
    destruct (state_dict m) as [b|x]; [|by apply (Hfail x)].
    destruct (Fs.write (ckpt_path w n (start_epoch w)) b (disk w)) as [d'|x] eqn:Hw;
      [|by apply (Hfail x)].
    clear Hfail.
    destruct (IH (set_disk d' w) Hnd Hloop)
      as (d1 & wr & rest & -> & Hdom & Hsplit & Hret & Hraise & Hwr & Hframe).
    cbn [disk set_disk current_run_dir_path start_epoch] in *.
    assert (n ∉ wr) as Hnwr.
    { intros Hin. apply Hn. rewrite Hsplit. set_solver. }
    exists d1, (n :: wr), rest.
    split; [done|]. split.
    { rewrite Hdom. by eapply write_dom_app. }
    split; [by rewrite fmap_cons, Hsplit|]. split; [done|]. split; [done|]. split.
    + intros c Hc. apply elem_of_cons in Hc as [->|Hc].
      * destruct (write_parent _ _ _ _ _ _ Hw) as (es & Hbefore & Hafter & _).
        exists b, es. split; [done|]. by rewrite (Hframe n [] Hnwr).
      * destruct (Hwr c Hc) as (b' & es & Hbefore & Hafter).
        exists b', es. split; [|done]. rewrite <- Hbefore. symmetry.
        eapply write_sibling; [exact Hw|]. by intros ->.
    + intros c q Hc. rewrite Hframe by set_solver.
      eapply write_sibling; [exact Hw|]. set_solver.
Qed.

(** The world that the constructor leaves on an empty experiment
    directory is in step. *)
Lemma fresh_world_in_step (modules : list (string * Mod)) (budget : Z) (verb : bool) :
  modules.*1 ≡ₚ fixed_names → 1 ≤ budget ≤ 100 →
  in_step (World modules budget verb 0 ["run_00"%string]
             ({[ "run_00"%string := Dir (empty_dirs modules.*1) ]} : tree StateDict)).
Proof.
  intros Hperm Hb. exists 0, [], modules.*1.
  cbn [current_run_dir_path disk modules_to_track start_epoch epochs_per_run].
  change (run_name 0) with "run_00"%string.
  split; [lia|]. split; [done|]. split.
  { intros n. rewrite lookup_singleton_is_Some. split.
    - intros <-. exists 0. split; [lia|done].
    - intros (j & Hj & ->). by assert (j = 0) as -> by lia. }
  split; [done|]. split; [lia|]. split; [lia|]. split; [done|]. split.
  { intros Hnil. rewrite Hnil in Hperm. by apply Permutation_nil_l in Hperm. }
  split; [intros c Hc; by apply elem_of_nil in Hc|].
  intros c Hc. exists ∅. split; [|apply epochs_dir_empty].
  rewrite resolve_cons, lookup_singleton_eq, resolve_cons, empty_dirs_lookup.
  by rewrite decide_True.
Qed.

(** A save keeps the manager in step, whether it returns or raises,
    provided a rollover does not go past run 99; when it raises the cursor
    is where it was. *)
Lemma save_in_step w o w' :
  in_step w →
  (start_epoch w + 1 = epochs_per_run w →
   run_index (current_run_dir_path w) ≠ Some 99) →
  save_checkpoint w = (o, w') →
  in_step w'
  ∧ (o ≠ Return tt →
     start_epoch w' = start_epoch w
     ∧ current_run_dir_path w' = current_run_dir_path w).
Proof.
  intros Hin Hroll. pose proof (in_step_NoDup w Hin) as Hnd.
  destruct Hin as (i & done & todo & Hi & Hcur & Hroot & Hperm & He & Hb & Hsplit
                   & Htodo & Hdone & Hrest).
  rewrite save_checkpoint_eq.
  destruct (save_modules w) as [o1 w1] eqn:Hloop.
  rewrite save_modules_loop in Hloop.
  destruct (save_loop_prefix _ _ _ _ Hnd Hloop)
    as (d1 & wr & rest & -> & Hdom & Hsplit2 & Hret & Hraise & Hwr & Hframe).
  rewrite Hcur in Hwr, Hframe.
  assert (∀ n, is_Some (d1 !! n) ↔ ∃ j, 0 ≤ j ≤ i ∧ n = run_name j) as Hroot1.
  { intros n. rewrite <- Hroot, <- !elem_of_dom. by rewrite Hdom. }
  assert (∀ c, c ∈ wr →
    ∃ es, Fs.resolve [run_name i; c] d1 = Some (Dir es)
          ∧ epochs_dir (start_epoch w + 1) es) as Hlev.
  { intros c Hc. destruct (Hwr c Hc) as (b & es & Hbefore & Hafter).
    exists (<[ckpt_name (start_epoch w) := File b]> es). split; [done|].
    assert (c ∈ done ++ todo) as Hc'.
    { rewrite <- Hsplit, Hsplit2. set_solver. }
    change ([run_name i] ++ [c]) with [run_name i; c] in Hbefore.
    apply elem_of_app in Hc' as [Hc'|Hc'].
    - destruct (Hdone c Hc') as (es' & Hdir & Hes).
      rewrite Hbefore in Hdir. injection Hdir as <-.
      apply (epochs_dir_insert (start_epoch w + 1)); [done|by right|lia].
    - destruct (Hrest c Hc') as (es' & Hdir & Hes).
      rewrite Hbefore in Hdir. injection Hdir as <-.
      apply (epochs_dir_insert (start_epoch w)); [done|by left|lia]. }
  assert (∀ c, c ∉ wr →
    Fs.resolve [run_name i; c] d1 = Fs.resolve [run_name i; c] (disk w)) as Hsame.
  { intros c Hc. apply (Hframe c [] Hc). }
  assert (∀ c, c ∈ rest → c ∉ wr) as Hdisj.
  { intros c Hc Hc'. rewrite Hsplit2 in Hnd.
    apply NoDup_app in Hnd as (_ & Hd & _). by apply (Hd c). }
  destruct o1 as [[]|x].
  - (* the loop returned: every directory holds the epoch *)
    specialize (Hret eq_refl). subst rest. rewrite app_nil_r in Hsplit2.
    cbn [start_epoch set_disk epochs_per_run current_run_dir_path].
    destruct (start_epoch w + 1 =? epochs_per_run w) eqn:Hlast.
    + apply Z.eqb_eq in Hlast. rewrite Hcur, run_index_run_name.
      rewrite Hcur, run_index_run_name in Hroll.
      assert (i ≠ 99) as Hi99 by (intros ->; by apply Hroll).
      assert (d1 !! run_name (i + 1) = None) as Hfree.
      { apply eq_None_not_Some. rewrite Hroot1. intros (j & Hj & Heq).
        apply run_name_inj in Heq. lia. }
      rewrite make_run_dir_fresh by done.
      intros Hres. injection Hres as <- <-. split; [|done].
      exists (i + 1), [], (modules_to_track w).*1.
      cbn [current_run_dir_path disk modules_to_track start_epoch epochs_per_run
           set_current_run_dir_path set_start_epoch set_disk].
      split; [lia|]. split; [done|]. split.
      { intros n. rewrite lookup_insert_is_Some, Hroot1. split.
        - intros [<-|[_ (j & Hj & ->)]].
          + exists (i + 1). split; [lia|done].
          + exists j. split; [lia|done].
        - intros (j & Hj & ->). destruct (decide (j = i + 1)) as [->|Hne].
          + by left.
          + right. split; [intros Heq; by apply run_name_inj in Heq|].
            exists j. split; [lia|done]. }
      split; [done|]. split; [lia|]. split; [done|]. split; [done|]. split.
      { rewrite Hsplit. intros Hnil. apply app_eq_nil in Hnil as [_ ?]. done. }
      split; [intros c Hc; by apply elem_of_nil in Hc|].
      intros c Hc. exists ∅. split; [|apply epochs_dir_empty].
      rewrite resolve_cons, lookup_insert_eq, resolve_cons, empty_dirs_lookup.
      by rewrite decide_True.
    + apply Z.eqb_neq in Hlast.
      intros Hres. injection Hres as <- <-. split; [|done].
      exists i, [], (modules_to_track w).*1.
      cbn [current_run_dir_path disk modules_to_track start_epoch epochs_per_run
           set_start_epoch set_disk].
      split; [done|]. split; [done|]. split; [done|]. split; [done|].
      split; [lia|]. split; [done|]. split; [done|]. split.
      { rewrite Hsplit. intros Hnil. apply app_eq_nil in Hnil as [_ ?]. done. }
      split; [intros c Hc; by apply elem_of_nil in Hc|].
      intros c Hc. apply Hlev. by rewrite <- Hsplit2.
  - (* the loop raised after the objects [wr] *)
    intros Hres. injection Hres as <- <-. split; [|done].
    assert (rest ≠ []) as Hrestne by (by apply Hraise).
    rewrite Hsplit in Hsplit2.
    destruct (app_eq_inv _ _ _ _ Hsplit2) as [(k & Hk1 & Hk2)|(k & Hk1 & Hk2)].
    + exists i, done, todo.
      cbn [current_run_dir_path disk modules_to_track start_epoch epochs_per_run set_disk].
      split; [done|]. split; [done|]. split; [done|]. split; [done|].
      split; [done|]. split; [done|]. split; [done|]. split; [done|]. split.
      * intros c Hc. destruct (decide (c ∈ wr)) as [Hcw|Hcw]; [by apply Hlev|].
        rewrite (Hsame c Hcw). by apply Hdone.
      * intros c Hc. rewrite Hsame; [by apply Hrest|].
        apply Hdisj. rewrite Hk2. set_solver.
    + exists i, wr, rest.
      cbn [current_run_dir_path disk modules_to_track start_epoch epochs_per_run set_disk].
      split; [done|]. split; [done|]. split; [done|]. split; [done|].
      split; [done|]. split; [done|]. split; [by rewrite Hsplit|]. split; [done|]. split.
      * done.
      * intros c Hc. rewrite Hsame by (by apply Hdisj).
        apply Hrest. rewrite Hk2. set_solver.
Qed.

(** In step, the directory of every tracked object is there and holds
    files only. *)
Lemma in_step_dirs w n :
  in_step w → n ∈ (modules_to_track w).*1 →
  ∃ es h, Fs.resolve (current_run_dir_path w ++ [n]) (disk w) = Some (Dir es)
          ∧ epochs_dir h es ∧ start_epoch w ≤ h.
Proof.
  intros (i & done & todo & Hi & Hcur & Hroot & Hperm & He & Hb & Hsplit
          & Htodo & Hdone & Hrest) Hn.
  rewrite Hcur. change ([run_name i] ++ [n]) with [run_name i; n].
  rewrite Hsplit in Hn. apply elem_of_app in Hn as [Hn|Hn].
  - destruct (Hdone n Hn) as (es & Hdir & Hes).
    exists es, (start_epoch w + 1). split; [done|]. split; [done|lia].
  - destruct (Hrest n Hn) as (es & Hdir & Hes).
    exists es, (start_epoch w). split; [done|]. split; [done|lia].
Qed.

(** In step, past epoch 0, the checkpoint that a resume needs is a file of
    every tracked directory. *)
Lemma in_step_checkpoint_files w n :
  in_step w → start_epoch w ≠ 0 → n ∈ (modules_to_track w).*1 →
  ∃ b, Fs.resolve (ckpt_path w n (start_epoch w - 1)) (disk w) = Some (File b).
Proof.
  intros Hin He0 Hn.
  destruct (in_step_dirs w n Hin Hn) as (es & h & Hdir & [Hnames Hfiles] & Hh).
  assert (0 ≤ start_epoch w) as He.
  { by destruct Hin as (? & ? & ? & _ & _ & _ & _ & [? _] & _). }
  destruct (proj2 (Hnames (ckpt_name (start_epoch w - 1)))) as [x Hx].
  { exists (start_epoch w - 1). split; [lia|done]. }
  destruct (Hfiles _ _ Hx) as [b ->]. exists b.
  unfold ckpt_path.
  change (current_run_dir_path w ++ [n; PyStr.format_02d (start_epoch w - 1) +:+ ".pth"])
    with (current_run_dir_path w ++ [n] ++ [ckpt_name (start_epoch w - 1)]).
  by rewrite app_assoc, resolve_snoc, Hdir.
Qed.

(** In step, the loop of [save_checkpoint] returns when every tracked
    object gives its state. *)
Lemma save_modules_returns_in_step w :
  in_step w →
  (∀ n m, (n, m) ∈ modules_to_track w → ∃ b, state_dict m = Return b) →
  ∃ w1, save_modules w = (Return tt, w1).
Proof.
  intros Hin Hhooks. pose proof (in_step_NoDup w Hin) as Hnd.
  destruct (save_modules w) as [[[]|x] w1] eqn:Hloop; [by eexists|]. exfalso.
  rewrite save_modules_loop in Hloop.
  apply for_each_raises in Hloop as (pre & [n m] & post & w0 & Hms & Hpre & Hbody).
  assert (NoDup pre.*1 ∧ n ∉ pre.*1) as [Hndpre Hfresh].
  { rewrite Hms, fmap_app, fmap_cons in Hnd.
    apply NoDup_app in Hnd as (Hp & Hd & _). split; [done|].
    intros Hn. apply (Hd n Hn). set_solver. }
  destruct (save_loop_prefix _ _ _ _ Hndpre Hpre)
    as (d0 & wr & rest & -> & _ & Hsplit & Hret & _ & _ & Hframe).
  rewrite (Hret eq_refl), app_nil_r in Hsplit. subst wr.
  rewrite save_body_eq in Hbody.
  destruct (Hhooks n m) as [b Hb]; [rewrite Hms; set_solver|].
  rewrite Hb in Hbody.
  destruct (in_step_dirs w n Hin) as (es & h & Hdir & [_ Hfiles] & _).
  { rewrite Hms, fmap_app, fmap_cons. set_solver. }
  rewrite <- (Hframe n [] Hfresh) in Hdir.
  destruct (write_returns (current_run_dir_path w) n
              (ckpt_name (start_epoch w)) b d0 es Hdir) as [d' Hw].
  { intros y Hy. by destruct (Hfiles _ _ Hy). }
  unfold ckpt_path in Hbody. cbn [current_run_dir_path start_epoch disk set_disk] in Hbody.
  unfold ckpt_name in Hw. by rewrite Hw in Hbody.
Qed.

End InStep.

(** ** Run directories laid out by epochs *)

Section Layouts.
Context {Mod StateDict : Type} `{Trackable Mod StateDict}.
Implicit Types (w : world (Mod:=Mod) (StateDict:=StateDict)) (d : tree StateDict).
Local Abbreviation empty_dirs := (empty_dirs (StateDict:=StateDict)).

Lemma min_last_index_holds run d hm ho hs :
  holds_epochs run "model" hm d →
  holds_epochs run "optimizer" ho d →
  holds_epochs run "scheduler" hs d →
  min_last_index run d = Return (Z.min (Z.min hm ho) hs - 1).
Proof.
  intros (Hm & em & Hdm & Hem) (Ho & eo & Hdo & Heo) (Hs & es & Hds & Hes).
  unfold min_last_index.
  rewrite (last_index_epochs_dir _ _ _ _ Hdm Hem Hm),
          (last_index_epochs_dir _ _ _ _ Hdo Heo Ho),
          (last_index_epochs_dir _ _ _ _ Hds Hes Hs).
  cbn [out_bind]. f_equal. lia.
Qed.

Lemma greatest_last_entry d (last : string) :
  is_Some (d !! last) →
  (∀ k, is_Some (d !! k) → String.le k last) →
  d ≠ ∅ ∧ last_entry d = last.
Proof.
  intros Hin Hmax.
  assert (d ≠ ∅) as Hne.
  { intros ->. rewrite lookup_empty in Hin. by destruct Hin. }
  split; [done|].
  destruct (last_entry_greatest d Hne) as [Hlast Hup].
  apply (anti_symm String.le); [by apply Hmax|by apply Hup].
Qed.

(** The scan of a root whose greatest entry is a run laid out by epochs. *)
Lemma scan_layout w (last : string) hm ho hs :
  is_Some (disk w !! last) →
  (∀ k, is_Some (disk w !! k) → String.le k last) →
  holds_epochs [last] "model" hm (disk w) →
  holds_epochs [last] "optimizer" ho (disk w) →
  holds_epochs [last] "scheduler" hs (disk w) →
  scan_experiment_dir w
  = if Z.min (Z.min hm ho) hs =? epochs_per_run w then
      (i <- get_run_index_from_path [last] ; make_run_dir (i + 1)) w
    else
      (Return tt,
       set_start_epoch (Z.min (Z.min hm ho) hs) (set_current_run_dir_path [last] w)).
Proof.
  intros Hin Hmax Hm Ho Hs.
  destruct (greatest_last_entry (disk w) last Hin Hmax) as [Hne Hlast].
  rewrite (scan_nonempty_reads w Hne), Hlast.
  rewrite (min_last_index_holds [last] (disk w) hm ho hs Hm Ho Hs).
  destruct (Z.eqb_spec (Z.min (Z.min hm ho) hs) (epochs_per_run w)) as [Heq|Hneq].
  - by rewrite (proj2 (Z.eqb_eq _ _)) by lia.
  - rewrite (proj2 (Z.eqb_neq _ _)) by lia. by rewrite Z.sub_add.
Qed.

(** C8.  The last epoch and the completeness of a run are read from its
    directories [model], [optimizer] and [scheduler] and from nothing
    else, whatever the manager tracks.  Two managers compute the same on
    two disks that show the same three directories, and the scan of a run
    that is not complete resumes from the same epoch of the same run on
    both; the scan raises as soon as one of the three directories is not
    there.  The three directories are all read: when they hold the epochs
    below [hm], [ho] and [hs], the last epoch is the least of the three
    less one, the run is complete exactly when that least number is the
    budget, and the scan of a root whose greatest entry is such a run, not
    complete, resumes at that least number, whatever the other
    directories of the run hold. *)
Theorem fixed_component_directories :
  (∀ w1 w2 run,
     same_fixed_dirs run (disk w1) (disk w2) →
     epochs_per_run w1 = epochs_per_run w2 →
     fst (get_last_epoch_index run w1) = fst (get_last_epoch_index run w2)
     ∧ fst (is_run_completed run w1) = fst (is_run_completed run w2))
  ∧ (∀ w1 w2 last,
       disk w1 ≠ ∅ → disk w2 ≠ ∅ →
       last_entry (disk w1) = last → last_entry (disk w2) = last →
       same_fixed_dirs [last] (disk w1) (disk w2) →
       epochs_per_run w1 = epochs_per_run w2 →
       fst (is_run_completed [last] w1) = Return false →
       fst (scan_experiment_dir w1) = Return tt
       ∧ fst (scan_experiment_dir w2) = Return tt
       ∧ start_epoch (snd (scan_experiment_dir w1))
         = start_epoch (snd (scan_experiment_dir w2))
       ∧ current_run_dir_path (snd (scan_experiment_dir w1)) = [last]
       ∧ current_run_dir_path (snd (scan_experiment_dir w2)) = [last])
  ∧ (∀ w c,
       disk w ≠ ∅ → c ∈ fixed_names →
       Fs.isdir [last_entry (disk w); c] (disk w) = false →
       ∃ e, scan_experiment_dir w = (Raise e, w))
  ∧ (∀ w run hm ho hs,
       holds_epochs run "model" hm (disk w) →
       holds_epochs run "optimizer" ho (disk w) →
       holds_epochs run "scheduler" hs (disk w) →
       get_last_epoch_index run w = (Return (Z.min (Z.min hm ho) hs - 1), w)
       ∧ is_run_completed run w
         = (Return (Z.min (Z.min hm ho) hs =? epochs_per_run w), w))
  ∧ (∀ w (last : string) hm ho hs,
       readable_dir (disk w) →
       is_Some (disk w !! last) →
       (∀ k, is_Some (disk w !! k) → String.le k last) →
       holds_epochs [last] "model" hm (disk w) →
       holds_epochs [last] "optimizer" ho (disk w) →
       holds_epochs [last] "scheduler" hs (disk w) →
       Z.min (Z.min hm ho) hs ≠ epochs_per_run w →
       scan_experiment_dir w
       = (Return tt,
          set_start_epoch (Z.min (Z.min hm ho) hs)
            (set_current_run_dir_path [last] w))).
Proof.
  split; [|split; [|split; [|split]]].
  - intros w1 w2 run Hsame Hbudget.
    rewrite !get_last_epoch_index_reads, !is_run_completed_reads. simpl.
    by rewrite (min_last_index_ext run _ _ Hsame), Hbudget.
  - intros w1 w2 last Hne1 Hne2 Hl1 Hl2 Hsame Hbudget Hinc.
    rewrite is_run_completed_reads in Hinc. simpl in Hinc.
    rewrite (scan_nonempty_reads w1 Hne1), (scan_nonempty_reads w2 Hne2).
    rewrite Hl1, Hl2, <- (min_last_index_ext [last] _ _ Hsame), <- Hbudget.
    destruct (min_last_index [last] (disk w1)) as [e|x]; [|done].
    simpl in Hinc. injection Hinc as ->. done.
  - intros w c Hne Hc Hmiss.
    destruct (min_last_index_missing [last_entry (disk w)] (disk w) c Hc Hmiss)
      as [e He].
    exists e. by rewrite (scan_nonempty_reads w Hne), He.
  - intros w run hm ho hs Hm Ho Hs.
    rewrite get_last_epoch_index_reads, is_run_completed_reads.
    rewrite (min_last_index_holds run (disk w) hm ho hs Hm Ho Hs).
    split; [done|]. cbn [out_bind]. do 2 f_equal.
    destruct (Z.eqb_spec (Z.min (Z.min hm ho) hs) (epochs_per_run w)) as [Heq|Hneq].
    + apply Z.eqb_eq. lia.
    + apply Z.eqb_neq. lia.
  - intros w last hm ho hs _ Hin Hmax Hm Ho Hs Hinc.
    rewrite (scan_layout w last hm ho hs Hin Hmax Hm Ho Hs).
    by rewrite (proj2 (Z.eqb_neq _ _) Hinc).
Qed.


End Layouts.

(** ** Saving, restarting and resuming in step *)

Section InStepTheorems.
Context {Mod StateDict : Type} `{Trackable Mod StateDict}.
Implicit Types (w : world (Mod:=Mod) (StateDict:=StateDict)) (d : tree StateDict).

(** X9.  Being in step is an invariant of the manager, for the names
    [model], [optimizer] and [scheduler] and a budget from 1 to 100.  The
    constructor establishes it on an empty experiment directory; every call
    of [save_checkpoint] keeps it, whether it returns or raises half way,
    as long as a rollover does not go past run 99. *)
Theorem in_step_is_invariant :
  (∀ (modules : list (string * Mod)) (budget : Z) (verb : bool),
     modules.*1 ≡ₚ fixed_names → 1 ≤ budget ≤ 100 →
     ∃ w0, new_manager modules budget verb ∅ = (Return tt, w0) ∧ in_step w0)
  ∧ (∀ w o w',
       in_step w →
       (start_epoch w + 1 = epochs_per_run w →
        run_index (current_run_dir_path w) ≠ Some 99) →
       save_checkpoint w = (o, w') →
       in_step w').
Proof.
  split.
  - intros modules budget verb Hperm Hb. eexists. split.
    + apply new_manager_on_empty. rewrite Hperm. apply fixed_names_NoDup.
    + by apply fresh_world_in_step.
  - intros w o w' Hin Hroll Hsave. by destruct (save_in_step w o w' Hin Hroll Hsave).
Qed.

(** X10.  A restart finds the cursor again.  After any call of
    [save_checkpoint] on a manager in step, returned or raised half way, a
    scan of the disk it leaves, and so the construction of a new manager on
    that disk, returns with exactly the epoch and the run that the manager
    holds and changes nothing; and after a call that raised, this is the
    epoch that was being saved. *)
Theorem restart_recovers_cursor w o w' :
  in_step w →
  (start_epoch w + 1 = epochs_per_run w →
   run_index (current_run_dir_path w) ≠ Some 99) →
  save_checkpoint w = (o, w') →
  scan_experiment_dir w' = (Return tt, w')
  ∧ new_manager (modules_to_track w') (epochs_per_run w') (verbose w') (disk w')
    = (Return tt, w')
  ∧ (o ≠ Return tt →
     start_epoch w' = start_epoch w
     ∧ current_run_dir_path w' = current_run_dir_path w).
Proof.
  intros Hin Hroll Hsave.
  destruct (save_in_step w o w' Hin Hroll Hsave) as [Hin' Hcursor].
  pose proof (in_step_rescan w' Hin') as Hscan.
  split; [done|]. split; [|done].
  unfold new_manager.
  destruct (scan_overwrites_cursor w' 0 [] (in_step_NoDup w' Hin')) as [_ Heq].
  change (World (modules_to_track w') (epochs_per_run w') (verbose w') 0 [] (disk w'))
    with (set_start_epoch 0 (set_current_run_dir_path [] w')).
  rewrite Heq; [done|by rewrite Hscan].
Qed.

Lemma save_returns_in_step w :
  in_step w →
  (∀ n m, (n, m) ∈ modules_to_track w → ∃ b, state_dict m = Return b) →
  (start_epoch w + 1 = epochs_per_run w →
   run_index (current_run_dir_path w) ≠ Some 99) →
  ∃ w', save_checkpoint w = (Return tt, w') ∧ in_step w'.
Proof.
  intros Hin Hhooks Hroll.
  destruct (save_modules_returns_in_step w Hin Hhooks) as [w1 Hloop].
  destruct (save_checkpoint w) as [o w'] eqn:Hsave.
  destruct (save_in_step w o w' Hin Hroll Hsave) as [Hin' Hcursor].
  destruct o as [[]|x]; [by exists w'|]. exfalso.
  destruct Hcursor as [He _]; [done|].
  rewrite save_checkpoint_eq, Hloop in Hsave.
  rewrite save_modules_loop in Hloop.
  apply save_loop_frame in Hloop as (d1 & -> & _ & _).
  cbn [start_epoch set_disk epochs_per_run current_run_dir_path] in Hsave.
  destruct (start_epoch w + 1 =? epochs_per_run w); [|done].
  destruct (run_index (current_run_dir_path w)) as [i|].
  - destruct (d1 !! run_name (i + 1)) as [y|] eqn:Hfree.
    + rewrite make_run_dir_taken in Hsave by (cbn; by rewrite Hfree).
      injection Hsave as _ <-. cbn in He. lia.
    + rewrite make_run_dir_fresh in Hsave; [done|done|].
      apply (in_step_NoDup w Hin).
  - injection Hsave as _ <-. cbn in He. lia.
Qed.

(** X11.  On a manager in step a save fails only through a hook.  When
    every tracked object gives its state, [save_checkpoint] returns: no file
    write and no rollover can raise (short of going past run 99), and the
    manager it leaves is in step. *)
Theorem save_returns_when_hooks_do w :
  in_step w →
  (∀ n m, (n, m) ∈ modules_to_track w → ∃ b, state_dict m = Return b) →
  (start_epoch w + 1 = epochs_per_run w →
   run_index (current_run_dir_path w) ≠ Some 99) →
  ∃ w', save_checkpoint w = (Return tt, w') ∧ in_step w'.
Proof. apply save_returns_in_step. Qed.

Lemma save_times_returns n : ∀ w i,
  in_step w →
  (∀ n m, (n, m) ∈ modules_to_track w → ∃ b, state_dict m = Return b) →
  run_index (current_run_dir_path w) = Some i →
  i + (start_epoch w + Z.of_nat n) `div` epochs_per_run w < 100 →
  ∃ w', save_times n w = (Return tt, w') ∧ in_step w'.
Proof.
  induction n as [|n IH]; intros w i Hin Hhooks Hidx Hbound.
  { exists w. by split. }
  pose proof (in_step_NoDup w Hin) as Hnd.
  assert (0 ≤ start_epoch w < epochs_per_run w) as Hrange.
  { by destruct Hin as (? & ? & ? & _ & _ & _ & _ & ? & _). }
  assert (0 ≤ Z.of_nat n `div` epochs_per_run w) as Hq by (apply Z.div_pos; lia).
  destruct (save_returns_in_step w Hin Hhooks) as (w1 & Hsave & Hin1).
  { intros Heq. rewrite Hidx. intros [= ->].
    replace (start_epoch w + Z.of_nat (S n))
      with (Z.of_nat n + 1 * epochs_per_run w) in Hbound by lia.
    rewrite Z.div_add in Hbound by lia. lia. }
  cbn [save_times]. unfold bind. rewrite Hsave.
  destruct (save_checkpoint_ok w w1 Hnd Hsave) as (d1 & _ & _ & Hcur).
  destruct (decide (start_epoch w + 1 = epochs_per_run w)) as [Heq|Hne].
  - destruct Hcur as (j & Hj & _ & ->).
    assert (j = i) as -> by congruence.
    apply (IH _ (i + 1)); [done|done|apply run_index_run_name|].
    cbn [start_epoch epochs_per_run set_current_run_dir_path set_start_epoch set_disk].
    replace (start_epoch w + Z.of_nat (S n))
      with (Z.of_nat n + 1 * epochs_per_run w) in Hbound by lia.
    rewrite Z.div_add in Hbound by lia. rewrite Z.add_0_l. lia.
  - subst w1. apply (IH _ i); [done|done|done|].
    cbn [start_epoch epochs_per_run set_start_epoch set_disk].
    by replace (start_epoch w + 1 + Z.of_nat n)
      with (start_epoch w + Z.of_nat (S n)) by lia.
Qed.

(** X14.  Any number of saves in a row.  On a manager in step whose
    tracked objects all give their state, [n] calls of [save_checkpoint]
    all return, as long as they do not lead past run 99; they leave a
    manager in step, [n] epochs further, counted in runs of
    [epochs_per_run] epochs. *)
Theorem saves_return_up_to_run_99 n w i :
  in_step w →
  (∀ n m, (n, m) ∈ modules_to_track w → ∃ b, state_dict m = Return b) →
  run_index (current_run_dir_path w) = Some i →
  i + (start_epoch w + Z.of_nat n) `div` epochs_per_run w < 100 →
  ∃ w', save_times n w = (Return tt, w')
        ∧ in_step w'
        ∧ start_epoch w' = (start_epoch w + Z.of_nat n) `mod` epochs_per_run w
        ∧ run_index (current_run_dir_path w')
          = Some (i + (start_epoch w + Z.of_nat n) `div` epochs_per_run w).
Proof.
  intros Hin Hhooks Hidx Hbound.
  destruct (save_times_returns n w i Hin Hhooks Hidx Hbound) as (w' & Hrun & Hin').
  exists w'. split; [done|]. split; [done|].
  apply (save_times_cursor n w w' i); [apply (in_step_NoDup w Hin)| |done|done].
  by destruct Hin as (? & ? & ? & _ & _ & _ & _ & ? & _).
Qed.

Lemma Forall2_pointwise {A C} (R : A → C → Prop) (l : list A) :
  (∀ x, x ∈ l → ∃ y, R x y) → ∃ k, Forall2 R l k.
Proof.
  induction l as [|x l IH]; intros Hall; [by exists []|].
  destruct (Hall x) as [y Hy]; [set_solver|].
  destruct IH as [k Hk]; [intros z Hz; apply Hall; set_solver|].
  exists (y :: k). by constructor.
Qed.

Lemma loaded_from_names w (l k : list (string * Mod)) :
  Forall2 (loaded_from w) l k → k.*1 = l.*1.
Proof.
  induction 1 as [|x y l k [Hn _] _ IH]; [done|].
  rewrite !fmap_cons. by rewrite Hn, IH.
Qed.

(** X12.  On a manager in step a resume fails only through a hook.  When
    the [load_state_dict] hooks accept the checkpoints that are on the disk,
    [load_last_checkpoint] returns: the checkpoint of the epoch before the
    cursor is there for every tracked object.  The cursor and the disk are
    unchanged, the tracked names too, and at epoch 0 nothing is loaded. *)
Theorem resume_returns_when_hooks_do w :
  in_step w →
  (∀ n m blob,
     (n, m) ∈ modules_to_track w →
     Fs.resolve (ckpt_path w n (start_epoch w - 1)) (disk w) = Some (File blob) →
     ∃ m', load_state_dict m blob = Return m') →
  ∃ loaded,
    load_last_checkpoint w = (Return tt, set_modules loaded w)
    ∧ loaded.*1 = (modules_to_track w).*1
    ∧ (start_epoch w = 0 → loaded = modules_to_track w).
Proof.
  intros Hin Hhooks. rewrite load_last_checkpoint_eq, (in_step_rescan w Hin).
  destruct (start_epoch w =? 0) eqn:He.
  - exists (modules_to_track w). split; [by destruct w|]. by split.
  - apply Z.eqb_neq in He.
    destruct (Forall2_pointwise (loaded_from w) (modules_to_track w)) as [loaded Hall].
    { intros [n m] Hnm.
      destruct (in_step_checkpoint_files w n Hin He) as [b Hb].
      { apply list_elem_of_fmap. by exists (n, m). }
      destruct (Hhooks n m b Hnm Hb) as [m' Hm'].
      exists (n, m'). split; [done|]. exists b. by split. }
    exists loaded. split.
    + apply (load_loop (modules_to_track w) []); [done|apply (in_step_NoDup w Hin)|].
      by exists loaded.
    + split; [by apply (loaded_from_names w)|done].
Qed.

(** X13.  Round trip through the store.  On a manager in step, after a
    [save_checkpoint] that returns without rolling over, a
    [load_last_checkpoint] gives every tracked object the state that this
    object gave to the save: it returns with each object replaced by what
    its [load_state_dict] makes of its own [state_dict]. *)
Theorem save_then_resume w w' loaded :
  in_step w →
  start_epoch w + 1 ≠ epochs_per_run w →
  save_checkpoint w = (Return tt, w') →
  Forall2 (fun before after : string * Mod =>
             after.1 = before.1
             ∧ ∃ b, state_dict before.2 = Return b
                    ∧ load_state_dict before.2 b = Return after.2)
          (modules_to_track w) loaded →
  load_last_checkpoint w' = (Return tt, set_modules loaded w').
Proof.
  intros Hin Hlast Hsave Hall.
  pose proof (in_step_NoDup w Hin) as Hnd.
  destruct (save_in_step w _ w' Hin (fun Heq => False_ind _ (Hlast Heq)) Hsave)
    as [Hin' _].
  rewrite load_last_checkpoint_eq, (in_step_rescan w' Hin').
  destruct (save_checkpoint_ok w w' Hnd Hsave) as (d1 & Hloop & _ & Hcur).
  rewrite decide_False in Hcur by done. subst w'.
  rewrite save_modules_loop in Hloop.
  pose proof (save_loop_ok _ _ _ Hnd Hloop) as Hfiles.
  cbn [start_epoch set_start_epoch set_disk modules_to_track disk] in *.
  assert (0 ≤ start_epoch w) as He.
  { by destruct Hin as (? & ? & ? & _ & _ & _ & _ & [? _] & _). }
  assert ((start_epoch w + 1 =? 0) = false) as -> by (apply Z.eqb_neq; lia).
  apply (load_loop (modules_to_track w) []); [done|done|].
  exists loaded. split; [|done].
  assert (∀ l k, (∀ x, x ∈ l → x ∈ modules_to_track w) →
    Forall2 (fun before after : string * Mod =>
               after.1 = before.1
               ∧ ∃ b, state_dict before.2 = Return b
                      ∧ load_state_dict before.2 b = Return after.2) l k →
    Forall2 (loaded_from (set_start_epoch (start_epoch w + 1) (set_disk d1 w))) l k)
    as Hconv.
  { intros l k Hsub HF. induction HF as [|[n m] y l k [Hn (b & Hb & Hl)] HF IH];
      [constructor|].
    constructor; [|apply IH; intros z Hz; apply Hsub; set_solver].
    split; [done|]. exists b. split; [|done].
    destruct (Hfiles n m) as (b' & Hb' & Hfile); [apply Hsub; set_solver|].
    simpl in Hb. rewrite Hb in Hb'. injection Hb' as <-.
    unfold ckpt_path in *.
    cbn [current_run_dir_path start_epoch set_start_epoch set_disk disk fst].
    by rewrite Z.add_simpl_r. }
  by apply Hconv.
Qed.

End InStepTheorems.

(** ** Queries and directory creation *)

Section Queries.
Context {Mod StateDict : Type} `{Trackable Mod StateDict}.
Implicit Types (w : world (Mod:=Mod) (StateDict:=StateDict)) (d : tree StateDict).

(** X15.  The queries never write: [get_number_of_runs],
    [get_last_run_dir_path], [_get_last_epoch_index],
    [get_last_epoch_index], [is_checkpoint_dir_full], [is_run_completed],
    [get_checkpoint_module_path], [get_run_index_from_path] and
    [get_start_epoch] leave the disk, the cursor and the tracked objects as
    they are, whether they return or raise, on every path and every disk. *)
Theorem queries_change_nothing w (p : path) (name : string) (epoch : Z) :
  snd (get_number_of_runs w) = w
  ∧ snd (get_last_run_dir_path w) = w
  ∧ snd (_get_last_epoch_index p w) = w
  ∧ snd (get_last_epoch_index p w) = w
  ∧ snd (is_checkpoint_dir_full p w) = w
  ∧ snd (is_run_completed p w) = w
  ∧ snd (get_checkpoint_module_path name epoch w) = w
  ∧ snd (get_run_index_from_path p w) = w
  ∧ snd (get_start_epoch w) = w.
Proof.
  split; [by rewrite get_number_of_runs_reads|].
  split.
  { unfold get_last_run_dir_path, os_listdir, bind, get, lift, ret, raise. simpl.
    by destruct (last (PyStr.sorted (map_to_list (disk w)).*1)). }
  split; [by rewrite _get_last_epoch_index_reads|].
  split; [by rewrite get_last_epoch_index_reads|].
  split.
  { unfold is_checkpoint_dir_full, bind. rewrite get_last_epoch_index_reads.
    by destruct (min_last_index p (disk w)). }
  split; [by rewrite is_run_completed_reads|].
  split; [done|].
  split; [|done].
  rewrite get_run_index_from_path_eq. by destruct (run_index p).
Qed.

(** X16.  The last epoch of a directory is read off one name only.  In
    a directory that holds entries, all of them with ASCII names of at
    most 4300 characters, [_get_last_epoch_index] returns the
    integer before the first dot of the greatest name, in the order of the
    strings, and raises [ValueError] when that is no integer; the other
    entries are not looked at, whatever their names and whether or not the
    epochs below are there. *)
Theorem last_epoch_is_read_off_greatest_name w (p : path) (es : tree StateDict) (name : string) :
  Fs.resolve p (disk w) = Some (Dir es) →
  readable_dir es →
  is_Some (es !! name) →
  (∀ k, is_Some (es !! k) → String.le k name) →
  _get_last_epoch_index p w
  = (match PyStr.int (PyStr.first (PyStr.split "." name)) with
     | Some e => Return e
     | None => Raise ValueError
     end, w).
Proof.
  intros Hdir _ Hin Hmax.
  assert (es ≠ ∅) as Hne.
  { intros ->. rewrite lookup_empty in Hin. by destruct Hin. }
  destruct (last_entry_greatest es Hne) as [Hlast Hup].
  assert (last_entry es = name) as Hname.
  { apply (anti_symm String.le); [by apply Hmax|by apply Hup]. }
  rewrite _get_last_epoch_index_reads, (last_index_nonempty p (disk w) es Hdir Hne).
  by rewrite Hname.
Qed.

(** X17.  [get_last_run_dir_path] raises [IndexError] on an empty
    experiment directory, which is why the scan asks for the number of runs
    first; otherwise, the entries having ASCII names of at most 4300
    characters, it returns the entry with the greatest name, in the order
    of the strings, whatever that entry is. *)
Theorem last_run_is_greatest_entry w :
  (disk w = ∅ → get_last_run_dir_path w = (Raise IndexError, w))
  ∧ (∀ name,
       readable_dir (disk w) →
       is_Some (disk w !! name) →
       (∀ k, is_Some (disk w !! k) → String.le k name) →
       get_last_run_dir_path w = (Return [name], w)).
Proof.
  split.
  - intros He. unfold get_last_run_dir_path, os_listdir, bind, get, lift, ret, raise.
    simpl. by rewrite He, map_to_list_empty.
  - intros name _ Hin Hmax.
    assert (disk w ≠ ∅) as Hne.
    { intros He. rewrite He, lookup_empty in Hin. by destruct Hin. }
    destruct (last_entry_greatest (disk w) Hne) as [Hlast Hup].
    rewrite (get_last_run_dir_path_reads w Hne).
    fold (last_entry (disk w)).
    assert (last_entry (disk w) = name) as ->; [|done].
    apply (anti_symm String.le); [by apply Hmax|by apply Hup].
Qed.

(** X18.  [make_run_dir] never reuses a name.  With tracked names that
    are distinct single path components and an index that [f'{index:02d}']
    formats, it returns exactly when the experiment directory has no entry
    named [run_NN] for the index; otherwise it raises [FileExistsError]
    and changes nothing, neither the disk nor the cursor. *)
Theorem make_run_dir_returns_iff_free index w :
  NoDup (modules_to_track w).*1 →
  components (modules_to_track w).*1 →
  Z.abs index < str_digits_limit →
  (fst (make_run_dir index w) = Return tt
   ↔ disk w !! ("run_" +:+ PyStr.format_02d index)%string = None)
  ∧ (fst (make_run_dir index w) ≠ Return tt →
     make_run_dir index w = (Raise FileExistsError, w)).
Proof.
  intros Hnd _ _. fold (run_name index).
  destruct (disk w !! run_name index) as [x|] eqn:Hfree.
  - rewrite make_run_dir_taken by (by rewrite Hfree). by split.
  - rewrite make_run_dir_fresh by done. split; [done|]. by intros [].
Qed.

End Queries.

(** ** The further properties on concrete managers *)

Lemma small_below_str_digits_limit n : Z.abs n < 100 → Z.abs n < str_digits_limit.
Proof.
  intros Hn. apply (Z.lt_le_trans _ 100); [exact Hn|].
  apply Z.leb_le. vm_compute. reflexivity.
Qed.

Lemma checkpoint_paths_distinct_witness :
  let w := fresh_world demo_modules 3 in
  is_component "model" = true
  ∧ Z.abs 2 < str_digits_limit
  ∧ Z.abs (1 + 1) < str_digits_limit
  ∧ fst (get_checkpoint_module_path "model" 2 w)
    = fst (get_checkpoint_module_path "model" (1 + 1) w)
  ∧ "model"%string = "model"%string ∧ 2 = 1 + 1.
Proof.
  intros w.
  assert (is_component "model" = true) as Hc by reflexivity.
  assert (Z.abs 2 < str_digits_limit) as He
    by (apply small_below_str_digits_limit; reflexivity).
  assert (Z.abs (1 + 1) < str_digits_limit) as He'
    by (apply small_below_str_digits_limit; reflexivity).
  assert (fst (get_checkpoint_module_path "model" 2 w)
          = fst (get_checkpoint_module_path "model" (1 + 1) w)) as Heq by reflexivity.
  split; [exact Hc|]. split; [exact He|]. split; [exact He'|]. split; [exact Heq|].
  exact (checkpoint_paths_distinct w "model" 2 "model" (1 + 1) Hc Hc He He' Heq).
Defined.

Lemma run_index_round_trip_witness :
  let w := fresh_world demo_modules 3 in
  let w' := snd (make_run_dir 7 w) in
  NoDup (modules_to_track w).*1
  ∧ components (modules_to_track w).*1
  ∧ make_run_dir 7 w = (Return tt, w')
  ∧ start_epoch w' = 0
  ∧ get_run_index_from_path (current_run_dir_path w') w' = (Return 7, w').
Proof.
  intros w w'.
  assert (NoDup (modules_to_track w).*1) as Hnd by by_compute.
  assert (components (modules_to_track w).*1) as Hcs by by_compute.
  assert (make_run_dir 7 w = (Return tt, w')) as Hmk by (vm_compute; reflexivity).
  destruct (run_index_round_trip 7 w w' Hnd Hcs Hmk) as (He & Hidx & _).
  split; [exact Hnd|]. split; [exact Hcs|]. split; [exact Hmk|].
  split; [exact He|exact Hidx].
Defined.

Lemma saved_epoch_is_read_back_witness :
  let w := fresh_world demo_modules 3 in
  let w' := snd (save_checkpoint w) in
  NoDup (modules_to_track w).*1
  ∧ ("model"%string, 5) ∈ modules_to_track w
  ∧ Fs.resolve (current_run_dir_path w ++ ["model"%string]) (disk w) = Some (Dir ∅)
  ∧ save_checkpoint w = (Return tt, w')
  ∧ _get_last_epoch_index (current_run_dir_path w ++ ["model"%string]) w'
    = (Return 0, w').
Proof.
  intros w w'.
  assert (NoDup (modules_to_track w).*1) as Hnd by by_compute.
  assert (("model"%string, 5) ∈ modules_to_track w) as Hin by by_compute.
  assert (Fs.resolve (current_run_dir_path w ++ ["model"%string]) (disk w)
          = Some (Dir ∅)) as Hdir by (vm_compute; reflexivity).
  assert (save_checkpoint w = (Return tt, w')) as Hsave by (vm_compute; reflexivity).
  split; [exact Hnd|]. split; [exact Hin|]. split; [exact Hdir|]. split; [exact Hsave|].
  exact (saved_epoch_is_read_back w w' "model" 5 Hnd Hin Hdir Hsave).
Defined.

Lemma scan_adds_at_most_one_run_witness :
  let w : demo_world := World demo_modules 3 true 0 [] ∅ in
  let w' := snd (scan_experiment_dir w) in
  NoDup (modules_to_track w).*1
  ∧ components (modules_to_track w).*1
  ∧ scan_experiment_dir w = (Return tt, w')
  ∧ modules_to_track w' = modules_to_track w
  ∧ epochs_per_run w' = epochs_per_run w.
Proof.
  intros w w'.
  assert (NoDup (modules_to_track w).*1) as Hnd by by_compute.
  assert (components (modules_to_track w).*1) as Hcs by by_compute.
  assert (scan_experiment_dir w = (Return tt, w')) as Hscan by (vm_compute; reflexivity).
  destruct (scan_adds_at_most_one_run w (Return tt) w' Hnd Hcs Hscan) as (Hms & Hb & _).
  split; [exact Hnd|]. split; [exact Hcs|]. split; [exact Hscan|].
  split; [exact Hms|exact Hb].
Defined.

Lemma save_touches_current_run_only_witness :
  let w := lagging_world demo_modules in
  let w1 := snd (scan_experiment_dir w) in
  let w' := snd (save_checkpoint w1) in
  NoDup (modules_to_track w1).*1
  ∧ components (modules_to_track w1).*1
  ∧ components ["run_00"%string]
  ∧ current_run_dir_path w1 = ["run_00"%string]
  ∧ save_checkpoint w1 = (Return tt, w')
  ∧ "run_01"%string ≠ "run_00"%string
  ∧ (disk w' !! "run_01"%string = disk w1 !! "run_01"%string
     ∨ Return tt = Return tt
       ∧ disk w1 !! "run_01"%string = None
       ∧ current_run_dir_path w' = ["run_01"%string]).
Proof.
  intros w w1 w'.
  assert (NoDup (modules_to_track w1).*1) as Hnd by by_compute.
  assert (components (modules_to_track w1).*1) as Hcs by by_compute.
  assert (components ["run_00"%string]) as Hrun by by_compute.
  assert (current_run_dir_path w1 = ["run_00"%string]) as Hcur by reflexivity.
  assert (save_checkpoint w1 = (Return tt, w')) as Hsave by (vm_compute; reflexivity).
  assert ("run_01"%string ≠ "run_00"%string) as Hne by discriminate.
  split; [exact Hnd|]. split; [exact Hcs|]. split; [exact Hrun|].
  split; [exact Hcur|]. split; [exact Hsave|]. split; [exact Hne|].
  exact (save_touches_current_run_only w1 (Return tt) w' "run_00" [] "run_01"
           Hnd Hcs Hrun Hcur Hsave Hne).
Defined.

Lemma blocked_rollover_advances_epoch_witness :
  let w := blocked_world in
  let w1 := snd (save_modules w) in
  save_modules w = (Return tt, w1)
  ∧ start_epoch w + 1 = epochs_per_run w
  ∧ run_index (current_run_dir_path w) = Some 0
  ∧ disk w !! run_name (0 + 1) ≠ None
  ∧ ∃ e, (e = ValueError ∨ e = FileExistsError)
         ∧ save_checkpoint w = (Raise e, set_start_epoch (epochs_per_run w) w1)
         ∧ current_run_dir_path w1 = current_run_dir_path w.
Proof.
  intros w w1.
  assert (save_modules w = (Return tt, w1)) as Hloop by (vm_compute; reflexivity).
  assert (start_epoch w + 1 = epochs_per_run w) as Hlast by reflexivity.
  assert (run_index (current_run_dir_path w) = Some 0) as Hidx by (vm_compute; reflexivity).
  assert (disk w !! run_name (0 + 1) ≠ None) as Htaken by (vm_compute; discriminate).
  split; [exact Hloop|]. split; [exact Hlast|]. split; [exact Hidx|]. split; [exact Htaken|].
  apply (blocked_rollover_advances_epoch w w1 Hloop Hlast).
  right. exists 0. split; [exact Hidx|exact Htaken].
Defined.

Lemma failed_load_keeps_earlier_loads_witness :
  let w := refused_world in
  let w1 := snd (scan_experiment_dir w) in
  scan_experiment_dir w = (Return tt, w1)
  ∧ start_epoch w1 ≠ 0
  ∧ NoDup (modules_to_track w1).*1
  ∧ load_last_checkpoint w
    = (Raise HookError,
       set_modules [("model", 1); ("optimizer", 6); ("scheduler", 7)]%string w1).
Proof.
  intros w w1.
  assert (scan_experiment_dir w = (Return tt, w1)) as Hscan by (vm_compute; reflexivity).
  assert (start_epoch w1 ≠ 0) as Hne by (vm_compute; discriminate).
  assert (NoDup (modules_to_track w1).*1) as Hnd by by_compute.
  split; [exact Hscan|]. split; [exact Hne|]. split; [exact Hnd|].
  apply (failed_load_keeps_earlier_loads w w1
           [("model", 5)]%string [("model", 1)]%string
           "optimizer" 6 [("scheduler", 7)]%string HookError Hscan Hne Hnd).
  - reflexivity.
  - constructor; [|constructor].
    split; [reflexivity|]. exists 1. split; vm_compute; reflexivity.
  - right. exists (-1). split; vm_compute; reflexivity.
Defined.

Lemma demo_modules_fixed_names : demo_modules.*1 ≡ₚ fixed_names.
Proof. reflexivity. Qed.

Lemma fresh_demo_in_step : in_step (fresh_world demo_modules 3).
Proof.
  apply (fresh_world_in_step demo_modules 3 true demo_modules_fixed_names). lia.
Qed.

Lemma failing_hook_in_step : in_step failing_hook_world.
Proof.
  apply (fresh_world_in_step
           [("model", 5); ("optimizer", -1); ("scheduler", 7)]%string 3 true).
  - reflexivity.
  - lia.
Qed.

Lemma no_rollover_of_three (w : demo_world) :
  start_epoch w = 0 → epochs_per_run w = 3 →
  start_epoch w + 1 = epochs_per_run w →
  run_index (current_run_dir_path w) ≠ Some 99.
Proof. intros -> ->. discriminate. Qed.

Lemma in_step_is_invariant_witness :
  let w := fresh_world demo_modules 3 in
  let w' := snd (save_checkpoint w) in
  demo_modules.*1 ≡ₚ fixed_names
  ∧ 1 ≤ 3 ≤ 100
  ∧ (∃ w0 : demo_world, new_manager demo_modules 3 true ∅ = (Return tt, w0) ∧ in_step w0)
  ∧ in_step w
  ∧ save_checkpoint w = (Return tt, w')
  ∧ in_step w'.
Proof.
  intros w w'.
  assert (1 ≤ 3 ≤ 100) as Hb by lia.
  assert (save_checkpoint w = (Return tt, w')) as Hsave by (vm_compute; reflexivity).
  pose proof (in_step_is_invariant (Mod:=Z) (StateDict:=Z)) as [Hnew Hkeep].
  split; [exact demo_modules_fixed_names|]. split; [exact Hb|].
  split; [exact (Hnew demo_modules 3 true demo_modules_fixed_names Hb)|].
  split; [exact fresh_demo_in_step|]. split; [exact Hsave|].
  exact (Hkeep w (Return tt) w' fresh_demo_in_step
           (no_rollover_of_three w eq_refl eq_refl) Hsave).
Defined.

Lemma restart_recovers_cursor_witness :
  let w := failing_hook_world in
  let w' := snd (save_checkpoint w) in
  in_step w
  ∧ save_checkpoint w = (Raise HookError, w')
  ∧ scan_experiment_dir w' = (Return tt, w')
  ∧ new_manager (modules_to_track w') (epochs_per_run w') (verbose w') (disk w')
    = (Return tt, w')
  ∧ start_epoch w' = start_epoch w.
Proof.
  intros w w'.
  assert (save_checkpoint w = (Raise HookError, w')) as Hsave by (vm_compute; reflexivity).
  destruct (restart_recovers_cursor w (Raise HookError) w' failing_hook_in_step
              (no_rollover_of_three w eq_refl eq_refl) Hsave) as (Hscan & Hnew & Hcur).
  split; [exact failing_hook_in_step|]. split; [exact Hsave|].
  split; [exact Hscan|]. split; [exact Hnew|].
  apply Hcur. discriminate.
Defined.

Lemma demo_hooks_return n m :
  (n, m) ∈ demo_modules → ∃ b, state_dict m = Return b.
Proof.
  intros Hin. exists m.
  assert (m = 5 ∨ m = 6 ∨ m = 7) as [->|[->| ->]]; [|reflexivity..].
  unfold demo_modules in Hin.
  repeat (apply elem_of_cons in Hin as [Hin|Hin]; [injection Hin as _ ->; auto|]).
  by apply elem_of_nil in Hin.
Qed.

Lemma save_returns_when_hooks_do_witness :
  let w := fresh_world demo_modules 3 in
  in_step w
  ∧ (∀ n m, (n, m) ∈ modules_to_track w → ∃ b, state_dict m = Return b)
  ∧ ∃ w', save_checkpoint w = (Return tt, w') ∧ in_step w'.
Proof.
  intros w.
  split; [exact fresh_demo_in_step|]. split; [exact demo_hooks_return|].
  exact (save_returns_when_hooks_do w fresh_demo_in_step demo_hooks_return
           (no_rollover_of_three w eq_refl eq_refl)).
Defined.

Lemma saved_demo_in_step : in_step (snd (save_checkpoint (fresh_world demo_modules 3))).
Proof.
  destruct (save_in_step (fresh_world demo_modules 3) (Return tt)
              (snd (save_checkpoint (fresh_world demo_modules 3))) fresh_demo_in_step
              (no_rollover_of_three (fresh_world demo_modules 3) eq_refl eq_refl)) as [Hin _];
    [vm_compute; reflexivity|exact Hin].
Qed.

Lemma saved_demo_hooks_accept n m blob :
  let w := snd (save_checkpoint (fresh_world demo_modules 3)) in
  (n, m) ∈ modules_to_track w →
  Fs.resolve (ckpt_path w n (start_epoch w - 1)) (disk w) = Some (File blob) →
  ∃ m', load_state_dict m blob = Return m'.
Proof.
  intros w Hin Hfile. exists blob.
  assert (blob = 5 ∨ blob = 6 ∨ blob = 7) as [->|[->| ->]]; [|reflexivity..].
  change (modules_to_track w) with demo_modules in Hin. unfold demo_modules in Hin.
  repeat (apply elem_of_cons in Hin as [Hin|Hin];
          [injection Hin as -> _; vm_compute in Hfile; injection Hfile as <-; auto|]).
  by apply elem_of_nil in Hin.
Qed.

Lemma resume_returns_when_hooks_do_witness :
  let w := snd (save_checkpoint (fresh_world demo_modules 3)) in
  in_step w
  ∧ ∃ loaded,
      load_last_checkpoint w = (Return tt, set_modules loaded w)
      ∧ loaded.*1 = (modules_to_track w).*1.
Proof.
  intros w.
  split; [exact saved_demo_in_step|].
  destruct (resume_returns_when_hooks_do w saved_demo_in_step saved_demo_hooks_accept)
    as (loaded & Hload & Hnames & _).
  exists loaded. split; [exact Hload|exact Hnames].
Defined.

Lemma save_then_resume_witness :
  let w := fresh_world demo_modules 3 in
  let w' := snd (save_checkpoint w) in
  in_step w
  ∧ start_epoch w + 1 ≠ epochs_per_run w
  ∧ save_checkpoint w = (Return tt, w')
  ∧ load_last_checkpoint w' = (Return tt, set_modules demo_modules w').
Proof.
  intros w w'.
  assert (start_epoch w + 1 ≠ epochs_per_run w) as Hlast by discriminate.
  assert (save_checkpoint w = (Return tt, w')) as Hsave by (vm_compute; reflexivity).
  split; [exact fresh_demo_in_step|]. split; [exact Hlast|]. split; [exact Hsave|].
  apply (save_then_resume w w' demo_modules fresh_demo_in_step Hlast Hsave).
  repeat (constructor; [split; [reflexivity|]; eexists; split; reflexivity|]).
  constructor.
Defined.

Lemma saves_return_up_to_run_99_witness :
  let w := fresh_world demo_modules 3 in
  in_step w
  ∧ (∀ n m, (n, m) ∈ modules_to_track w → ∃ b, state_dict m = Return b)
  ∧ run_index (current_run_dir_path w) = Some 0
  ∧ 0 + (start_epoch w + Z.of_nat 7) `div` epochs_per_run w < 100
  ∧ ∃ w', save_times 7 w = (Return tt, w')
          ∧ in_step w'
          ∧ start_epoch w' = 1
          ∧ run_index (current_run_dir_path w') = Some 2.
Proof.
  intros w.
  assert (run_index (current_run_dir_path w) = Some 0) as Hidx by (vm_compute; reflexivity).
  assert (0 + (start_epoch w + Z.of_nat 7) `div` epochs_per_run w < 100) as Hbound
    by (vm_compute; reflexivity).
  split; [exact fresh_demo_in_step|]. split; [exact demo_hooks_return|].
  split; [exact Hidx|]. split; [exact Hbound|].
  exact (saves_return_up_to_run_99 7 w 0 fresh_demo_in_step demo_hooks_return Hidx Hbound).
Defined.

Lemma last_epoch_is_read_off_greatest_name_witness :
  let w : demo_world := World demo_modules 3 true 0 [] junk_name_root in
  let p : path := ["run_00"; "model"]%string in
  (∃ es, Fs.resolve p (disk w) = Some (Dir es)
         ∧ readable_dir es
         ∧ is_Some (es !! "notes.txt"%string)
         ∧ ∀ k, is_Some (es !! k) → String.le k "notes.txt")
  ∧ _get_last_epoch_index p w = (Raise ValueError, w).
Proof.
  intros w p.
  set (es := (<[ "notes.txt"%string := File 0 ]> {[ "00.pth"%string := File 0 ]}
              : tree Z)).
  assert (Fs.resolve p (disk w) = Some (Dir es)) as Hdir by reflexivity.
  assert (readable_dir es) as Hread.
  { intros k [x Hk]. unfold es in Hk.
    apply lookup_insert_Some in Hk as [[<- _]|[_ Hk]]; [reflexivity|].
    apply lookup_singleton_Some in Hk as [<- _]. reflexivity. }
  assert (is_Some (es !! "notes.txt"%string)) as Hin by (by exists (File 0)).
  assert (∀ k, is_Some (es !! k) → String.le k "notes.txt") as Hmax.
  { intros k [x Hk]. unfold es in Hk.
    apply lookup_insert_Some in Hk as [[<- _]|[_ Hk]]; [reflexivity|].
    apply lookup_singleton_Some in Hk as [<- _]. by_compute. }
  split; [exists es; split; [exact Hdir|]; split; [exact Hread|];
          split; [exact Hin|exact Hmax]|].
  exact (last_epoch_is_read_off_greatest_name w p es "notes.txt" Hdir Hread Hin Hmax).
Defined.

Lemma last_run_is_greatest_entry_witness :
  let w : demo_world := World demo_modules 3 true 0 [] stray_file_root in
  readable_dir (disk w)
  ∧ is_Some (disk w !! "zzz.txt"%string)
  ∧ (∀ k, is_Some (disk w !! k) → String.le k "zzz.txt")
  ∧ get_last_run_dir_path w = (Return ["zzz.txt"%string], w).
Proof.
  intros w.
  assert (readable_dir (disk w)) as Hread.
  { intros k [x Hk]. cbn [disk w] in Hk. unfold stray_file_root, lagging_root3 in Hk.
    apply lookup_insert_Some in Hk as [[<- _]|[_ Hk]]; [reflexivity|].
    apply lookup_singleton_Some in Hk as [<- _]. reflexivity. }
  assert (is_Some (disk w !! "zzz.txt"%string)) as Hin by (by exists (File 0)).
  assert (∀ k, is_Some (disk w !! k) → String.le k "zzz.txt") as Hmax.
  { intros k [x Hk]. cbn [disk w] in Hk. unfold stray_file_root, lagging_root3 in Hk.
    apply lookup_insert_Some in Hk as [[<- _]|[_ Hk]]; [reflexivity|].
    apply lookup_singleton_Some in Hk as [<- _]. by_compute. }
  split; [exact Hread|]. split; [exact Hin|]. split; [exact Hmax|].
  exact (proj2 (last_run_is_greatest_entry w) "zzz.txt"%string Hread Hin Hmax).
Defined.

Lemma make_run_dir_returns_iff_free_witness :
  let w := fresh_world demo_modules 3 in
  NoDup (modules_to_track w).*1
  ∧ components (modules_to_track w).*1
  ∧ Z.abs 0 < str_digits_limit
  ∧ fst (make_run_dir 0 w) ≠ Return tt
  ∧ make_run_dir 0 w = (Raise FileExistsError, w).
Proof.
  intros w.
  assert (NoDup (modules_to_track w).*1) as Hnd by by_compute.
  assert (components (modules_to_track w).*1) as Hcs by by_compute.
  assert (Z.abs 0 < str_digits_limit) as Hidx
    by (apply small_below_str_digits_limit; reflexivity).
  assert (fst (make_run_dir 0 w) ≠ Return tt) as Hraise by (vm_compute; discriminate).
  split; [exact Hnd|]. split; [exact Hcs|]. split; [exact Hidx|]. split; [exact Hraise|].
  exact (proj2 (make_run_dir_returns_iff_free 0 w Hnd Hcs Hidx) Hraise).
Defined.

(** ** The layouts on concrete managers *)

Lemma epochs_dir_ckpts (h : Z) (es : tree Z) :
  0 ≤ h → ckpt_dir (seqZ 0 h) = Dir es → epochs_dir h es.
Proof.
  intros Hh Heq. unfold ckpt_dir in Heq. injection Heq as <-. split.
  - intros name. split.
    + intros [x Hx]. apply elem_of_list_to_map_2 in Hx.
      apply list_elem_of_In, in_map_iff in Hx as (e & Heq & He).
      apply list_elem_of_In, elem_of_seqZ in He.
      exists e. split; [lia|]. by injection Heq as <- _.
    + intros (k & Hk & ->).
      destruct (list_to_map (M:=tree Z) _ !! ckpt_name k) as [x|] eqn:E; [done|].
      apply not_elem_of_list_to_map_2 in E. exfalso. apply E.
      apply list_elem_of_fmap. exists (ckpt_name k, File k). split; [done|].
      apply list_elem_of_In, in_map_iff. exists k. split; [done|].
      apply list_elem_of_In, elem_of_seqZ. lia.
  - intros name x Hx. apply elem_of_list_to_map_2 in Hx.
    apply list_elem_of_In, in_map_iff in Hx as (e & Heq & _).
    exists e. by injection Heq as _ <-.
Qed.

Lemma holds_epochs_ckpts (d : tree Z) (run : path) (c : string) (h : Z) (es : tree Z) :
  0 ≤ h ≤ 100 →
  Fs.resolve (run ++ [c]) d = Some (Dir es) →
  ckpt_dir (seqZ 0 h) = Dir es →
  holds_epochs run c h d.
Proof.
  intros Hh Hdir Hes. split; [done|]. exists es. split; [done|].
  apply (epochs_dir_ckpts h es); [lia|done].
Qed.

Lemma run_00_readable (x : node Z) :
  readable_dir ({[ "run_00"%string := x ]} : tree Z).
Proof. intros k [y Hk]. by apply lookup_singleton_Some in Hk as [<- _]. Qed.

Lemma run_00_greatest (x : node Z) (k : string) :
  is_Some (({[ "run_00"%string := x ]} : tree Z) !! k) → String.le k "run_00".
Proof. intros [y Hk]. by apply lookup_singleton_Some in Hk as [<- _]. Qed.

Lemma fixed_component_directories_witness :
  let w := foreign_world in
  (modules_to_track w).*1 = ["encoder"%string]
  ∧ readable_dir (disk w)
  ∧ is_Some (disk w !! "run_00"%string)
  ∧ (∀ k, is_Some (disk w !! k) → String.le k "run_00")
  ∧ holds_epochs ["run_00"%string] "model" 3 (disk w)
  ∧ holds_epochs ["run_00"%string] "optimizer" 2 (disk w)
  ∧ holds_epochs ["run_00"%string] "scheduler" 3 (disk w)
  ∧ holds_epochs ["run_00"%string] "encoder" 5 (disk w)
  ∧ Z.min (Z.min 3 2) 3 ≠ epochs_per_run w
  ∧ get_last_epoch_index ["run_00"%string] w = (Return 1, w)
  ∧ is_run_completed ["run_00"%string] w = (Return false, w)
  ∧ scan_experiment_dir w
    = (Return tt, set_start_epoch 2 (set_current_run_dir_path ["run_00"%string] w)).
Proof.
  intros w.
  assert (readable_dir (disk w)) as Hread by apply run_00_readable.
  assert (is_Some (disk w !! "run_00"%string)) as Hin by (by eexists).
  assert (∀ k, is_Some (disk w !! k) → String.le k "run_00") as Hmax
    by apply run_00_greatest.
  assert (holds_epochs ["run_00"%string] "model" 3 (disk w)) as Hm.
  { eapply holds_epochs_ckpts; [lia|vm_compute; reflexivity|vm_compute; reflexivity]. }
  assert (holds_epochs ["run_00"%string] "optimizer" 2 (disk w)) as Ho.
  { eapply holds_epochs_ckpts; [lia|vm_compute; reflexivity|vm_compute; reflexivity]. }
  assert (holds_epochs ["run_00"%string] "scheduler" 3 (disk w)) as Hs.
  { eapply holds_epochs_ckpts; [lia|vm_compute; reflexivity|vm_compute; reflexivity]. }
  assert (holds_epochs ["run_00"%string] "encoder" 5 (disk w)) as He.
  { eapply holds_epochs_ckpts; [lia|vm_compute; reflexivity|vm_compute; reflexivity]. }
  assert (Z.min (Z.min 3 2) 3 ≠ epochs_per_run w) as Hinc by discriminate.
  pose proof (fixed_component_directories (Mod:=Z) (StateDict:=Z))
    as (_ & _ & _ & Hread3 & Hscan).
  destruct (Hread3 w ["run_00"%string] 3 2 3 Hm Ho Hs) as [Hidx Hcomp].
  split; [reflexivity|]. split; [exact Hread|]. split; [exact Hin|].
  split; [exact Hmax|]. split; [exact Hm|]. split; [exact Ho|]. split; [exact Hs|].
  split; [exact He|]. split; [exact Hinc|]. split; [exact Hidx|].
  split; [exact Hcomp|].
  exact (Hscan w "run_00"%string 3 2 3 Hread Hin Hmax Hm Ho Hs Hinc).
Defined.


